(** * Pruning-aware fine-tuning loop of [run_classifier_nni.py]

    A shallow embedding of the pruning engine ([do_sparse], [do_sparse_chn],
    [do_sparse_mh]), of the rate balancer ([balance]), of the metric helper
    ([accuracy]) and of the orchestrator ([prune_function.eval_after_train]);
    then of the input pipeline ([_truncate_seq_pair],
    [convert_examples_to_features] and the data processors), of the
    constructor ([prune_function.__init__]), of the first version of the
    engine ([sparse]) and of the reading of the plan in [main]; followed by
    the properties established about them.

    Conventions of the embedding.
    - A 2-D torch tensor is a shape together with its contiguous row-major
      storage, so that [reshape] is a view on the same storage, as in torch.
    - Weights, rates and logits are exact rationals ([Q]), and so is the
      arithmetic of the balancer and of the metric.  The number [k] of rows
      handed to [topk], where a rounding changes an integer, is computed as
      the machine computes it: in IEEE 754 binary64, each operation rounded
      to the nearest double, ties to even.  Scores, which go through a
      square root, are extended reals ([npfloat]: NaN, the infinities, or a
      real).
    - Python exceptions are the [Raise] outcome of a [Result]; the input
      pipeline and the constructor, which raise more kinds of them, have the
      [Throw] outcome of an [Outcome].
    - Calls into libraries that the embedding does not look into (the
      tokenizer, the file system, the devices) are parameters of the
      definitions that make them. *)

From Stdlib Require Import String.
From Stdlib Require Import List Arith ZArith QArith Qabs Qround Qpower Lia Bool.
From Stdlib Require Import Permutation Sorted Reals Lra.
From Stdlib Require Lqa.
From Stdlib Require Import Qfield.
From Stdlib Require Import DecimalString DecimalNat.
From Equations Require Import Equations.
Import ListNotations.

Local Open Scope nat_scope.

(** ** Exceptions *)

Inductive Exn : Type :=
| RuntimeError       (* raised by torch: bad reshape, bad k, bad index *)
| IndexError         (* Python list index out of range *)
| ZeroDivisionError
| UnboundLocalError
| OverflowError.      (* [int] of an infinity, [float] of too large an int *)

Inductive Result (A : Type) : Type :=
| Ok (a : A)
| Raise (e : Exn).
Arguments Ok {A} a.
Arguments Raise {A} e.

Definition bind {A B : Type} (m : Result A) (f : A -> Result B) : Result B :=
  match m with
  | Ok a => f a
  | Raise e => Raise e
  end.

Declare Scope result_scope.
Delimit Scope result_scope with result.
Notation "x <- m ;; k" := (bind m (fun x => k))
  (at level 61, m at next level, right associativity) : result_scope.
Notation "' p <- m ;; k" := (bind m (fun p => k))
  (at level 61, p pattern, m at next level, right associativity) : result_scope.
Local Open Scope result_scope.

(** ** Tensors *)

Record Tensor (A : Type) : Type := mkTensor {
  size0 : nat;          (* w.shape[0] *)
  size1 : nat;          (* w.shape[1] *)
  storage : list A      (* row-major contents *)
}.
Arguments mkTensor {A} size0 size1 storage.
Arguments size0 {A} t.
Arguments size1 {A} t.
Arguments storage {A} t.

Definition numel {A} (t : Tensor A) : nat := size0 t * size1 t.

(** Every torch tensor holds exactly [numel] elements. *)
Definition wf {A} (t : Tensor A) : Prop := length (storage t) = numel t.

Definition get {A} (d : A) (t : Tensor A) (i j : nat) : A :=
  nth (i * size1 t + j) (storage t) d.

Definition getQ := get 0%Q.
Definition getI := get 0%nat.

(** The tensor of shape [(d1, d2)] whose entry [(i, j)] is [f i j]. *)
Definition tabulate {A} (d1 d2 : nat) (f : nat -> nat -> A) : Tensor A :=
  mkTensor d1 d2 (map (fun p => f (p / d2) (p mod d2)) (seq 0 (d1 * d2))).

Definition column (t : Tensor Q) (j : nat) : list Q :=
  map (fun i => getQ t i j) (seq 0 (size0 t)).

Definition row (t : Tensor Q) (i : nat) : list Q :=
  firstn (size1 t) (skipn (i * size1 t) (storage t)).

(** [w.reshape(r, c)]: a view of the same storage; torch raises when the
    element counts differ. *)
Definition reshape {A} (t : Tensor A) (r c : nat) : Result (Tensor A) :=
  if numel t =? r * c then Ok (mkTensor r c (storage t)) else Raise RuntimeError.

(** [w.reshape(-1, 1)]: the inferred dimension is the element count. *)
Definition reshape_m1_1 {A} (t : Tensor A) : Tensor A :=
  mkTensor (numel t) 1 (storage t).

(** [w.abs()] *)
Definition tabs (t : Tensor Q) : Tensor Q :=
  mkTensor (size0 t) (size1 t) (map Qabs (storage t)).

Definition Qsum (l : list Q) : Q := fold_right Qplus 0%Q l.

(** [w.sum(dim=1, keepdim=True)] *)
Definition sum_dim1 (t : Tensor Q) : Tensor Q :=
  mkTensor (size0 t) 1 (map (fun i => Qsum (row t i)) (seq 0 (size0 t))).

(** [torch.cat(ts, 1)]: the rows of the pieces side by side.  An empty list
    of pieces, or pieces of different heights, is an error. *)
Definition cat1 (ts : list (Tensor Q)) : Result (Tensor Q) :=
  match ts with
  | [] => Raise RuntimeError
  | t0 :: _ =>
      if forallb (fun t => size0 t =? size0 t0) ts
      then Ok (mkTensor (size0 t0) (list_sum (map size1 ts))
                 (flat_map (fun i => flat_map (fun t => row t i) ts)
                           (seq 0 (size0 t0))))
      else Raise RuntimeError
  end.

(** [torch.cuda.FloatTensor(k, d2).fill_(0)] *)
Definition zeros (k : Z) (d2 : nat) : Result (Tensor Q) :=
  if (k <? 0)%Z then Raise RuntimeError
  else Ok (mkTensor (Z.to_nat k) d2 (repeat 0%Q (Z.to_nat k * d2))).

(** ** [torch.topk(., k, largest=False, dim=0)] *)

(** Indices are ordered by ascending key; among equal keys the earlier
    position comes first. *)
Fixpoint insert_by (key : nat -> Q) (i : nat) (l : list nat) : list nat :=
  match l with
  | [] => [i]
  | j :: l' =>
      if Qle_bool (key i) (key j) then i :: l else j :: insert_by key i l'
  end.

Definition sort_by (key : nat -> Q) (l : list nat) : list nat :=
  fold_right (insert_by key) [] l.

Definition key_of (col : list Q) (i : nat) : Q := nth i col 0%Q.

(** The positions of the [k] smallest entries of one column. *)
Definition topk_col (k : nat) (col : list Q) : list nat :=
  firstn k (sort_by (key_of col) (seq 0 (length col))).

(** Along dimension 0 every column is ranked on its own; the result has
    shape [(k, size1)].  torch raises unless [0 <= k <= size0]. *)
Definition topk (t : Tensor Q) (k : Z) : Result (Tensor Q * Tensor nat) :=
  if ((k <? 0) || (Z.of_nat (size0 t) <? k))%Z then Raise RuntimeError
  else
    let kn := Z.to_nat k in
    let cols := map (fun j => topk_col kn (column t j)) (seq 0 (size1 t)) in
    let idx := tabulate kn (size1 t) (fun i j => nth i (nth j cols []) 0) in
    Ok (tabulate kn (size1 t) (fun i j => getQ t (getI idx i j) j), idx).

(** ** [self.scatter_(0, index, src)]

    [self[index[i][j]][j] = src[i][j]] for every position [(i, j)] of
    [index]; the last write to a cell wins.  torch raises when [index] is
    larger than [src], wider than [self], or holds a row number outside
    [self]. *)
Definition scatter_ (self : Tensor Q) (index : Tensor nat) (src : Tensor Q)
  : Result (Tensor Q) :=
  if negb ((size0 index <=? size0 src) && (size1 index <=? size1 src)
           && (size1 index <=? size1 self))
  then Raise RuntimeError
  else if negb (forallb (fun r => r <? size0 self) (storage index))
  then Raise RuntimeError
  else Ok (tabulate (size0 self) (size1 self) (fun r c =>
         if c <? size1 index then
           match find (fun i => getI index i c =? r)
                      (rev (seq 0 (size0 index))) with
           | Some i => getQ src i c
           | None => getQ self r c
           end
         else getQ self r c)).

(** ** IEEE 754 binary64 *)

(** The integer nearest to [x], the even one when two are as near. *)
Definition round_half_even (x : Q) : Z :=
  let f := Qfloor x in
  match (x - inject_Z f ?= 1 # 2)%Q with
  | Lt => f
  | Gt => (f + 1)%Z
  | Eq => if Z.even f then f else (f + 1)%Z
  end.

(** [floor(log2(x))] for a positive [x]. *)
Definition ilog2 (x : Q) : Z :=
  let e0 := (Z.log2 (Qnum x) - Z.log2 (Zpos (Qden x)))%Z in
  if Qle_bool (2 ^ e0) x then e0 else (e0 - 1)%Z.

(** The exponent of the last place of the doubles around [x]: 52 binary
    places below the leading one, and not below that of the subnormal
    numbers. *)
Definition ulp_exp (x : Q) : Z := Z.max (ilog2 (Qabs x) - 52) (-1074).

(** The number with 53 significant bits nearest to [x], ties to even. *)
Definition f64_round (x : Q) : Q :=
  if Qeq_bool x 0 then 0%Q
  else let e := ulp_exp x in
       (inject_Z (round_half_even (x / 2 ^ e)) * 2 ^ e)%Q.

(** The double that an operation with exact result [x] returns; [None]
    stands for an infinity. *)
Definition f64 (x : Q) : option Q :=
  let y := f64_round x in
  if Qle_bool (2 ^ 1024) (Qabs y) then None else Some y.

(** ** Python arithmetic *)

(** [int(x)] truncates toward zero. *)
Definition py_int (x : Q) : Z := Z.quot (Qnum x) (Zpos (Qden x)).

(** [float(n)]: the double nearest to [n]; Python raises when [n] is
    beyond the doubles. *)
Definition py_float (n : nat) : Result Q :=
  match f64 (inject_Z (Z.of_nat n)) with
  | Some x => Ok x
  | None => Raise OverflowError
  end.

(** [x - y] for two doubles whose difference is within the doubles, as is
    that of 1 and any double. *)
Definition py_sub (x y : Q) : Q := f64_round (x - y).

(** [int(x * y)] for two doubles: the product is rounded to a double, and
    [int] of an infinity raises. *)
Definition py_int_mul (x y : Q) : Result Z :=
  match f64 (x * y) with
  | Some p => Ok (py_int p)
  | None => Raise OverflowError
  end.

(** [int(ratio * float(d1))], the number of rows handed to [topk]. *)
Definition topk_k (ratio : Q) (d1 : nat) : Result Z :=
  f <- py_float d1 ;;
  py_int_mul ratio f.

(** ** The pruning engine *)

(** [do_sparse(w, ratio, param_tensor, model)]: unstructured pruning.  The
    write goes through [scatter_] into the storage shared with the
    parameter; the value returned here is the parameter afterwards. *)
Definition do_sparse (w : Tensor Q) (ratio : Q) : Result (Tensor Q) :=
  let d1_old := size0 w in
  let d2_old := size1 w in
  let w := reshape_m1_1 w in
  let d1 := size0 w in
  let d2 := size1 w in
  k <- topk_k ratio d1 ;;
  '(bottom_k, indices) <- topk (tabs w) k ;;
  src <- zeros k d2 ;;
  w <- scatter_ w indices src ;;
  reshape w d1_old d2_old.

(** [do_sparse_chn(w, ratio, param_tensor, model)]: output-channel pruning. *)
Definition do_sparse_chn (w : Tensor Q) (ratio : Q) : Result (Tensor Q) :=
  let d1 := size0 w in
  let d2 := size1 w in
  k <- topk_k ratio d1 ;;
  new_w <- cat1 (repeat (sum_dim1 (tabs w)) d2) ;;
  '(bottom_k, indices) <- topk new_w k ;;
  src <- zeros k d2 ;;
  scatter_ w indices src.

(** The body of [do_sparse_mh] with its four literal sizes as arguments:
    [h] heads of [d] elements each, in a parameter of shape [(r, c)]. *)
Definition sparse_heads (h d r c : nat) (w : Tensor Q) (ratio : Q)
  (indices : option (Tensor nat)) : Result (Tensor Q * Tensor nat) :=
  w <- reshape w h d ;;
  let d1 := size0 w in
  let d2 := size1 w in
  k <- topk_k ratio d1 ;;
  indices <- match indices with
             | None => '(bottom_k, indices) <- topk (tabs w) k ;; Ok indices
             | Some indices => Ok indices
             end ;;
  src <- zeros k d2 ;;
  w <- scatter_ w indices src ;;
  w <- reshape w r c ;;
  Ok (w, indices).

(** [do_sparse_mh(w, ratio, param_tensor, model, indices=None)]: the
    multi-head mode, [w.reshape(12, 64*768)] and back to [(768, 768)].
    Returns the parameter afterwards and the indices. *)
Definition do_sparse_mh : Tensor Q -> Q -> option (Tensor nat) ->
                          Result (Tensor Q * Tensor nat) :=
  sparse_heads 12 (64 * 768) 768 768.

(** ** Python lists *)

(** [l[i]] for a non-negative [i]. *)
Definition py_getitem {A} (l : list A) (i : nat) : Result A :=
  match nth_error l i with
  | Some x => Ok x
  | None => Raise IndexError
  end.

Fixpoint replace_nth {A} (l : list A) (i : nat) (v : A) : list A :=
  match l, i with
  | [], _ => []
  | _ :: l', O => v :: l'
  | x :: l', S i' => x :: replace_nth l' i' v
  end.

(** [l[i] = v] for a non-negative [i]. *)
Definition py_setitem {A} (l : list A) (i : nat) (v : A) : Result (list A) :=
  if i <? length l then Ok (replace_nth l i v) else Raise IndexError.

(** [for i in l: s = body(i, s)], stopping at the first exception. *)
Fixpoint for_each {X S} (l : list X) (body : X -> S -> Result S) (s : S)
  : Result S :=
  match l with
  | [] => Ok s
  | x :: l' => s' <- body x s ;; for_each l' body s'
  end.

(** ** The rate balancer *)

Definition whole_param : list Z :=
  [768 * 768 * 3; 768 * 768; 768 * 3072; 3072 * 768]%Z.

(** [balance(prune_rate, ratio)], nested in [main]. *)
Definition balance (prune_rate : list Q) (ratio : Q) : Result (list Q) :=
  let rate_all := 0%Q in
  let rate_one := 0%Z in
  '(rate_all, rate_one) <-
     for_each (seq 0 48) (fun i '(rate_all, rate_one) =>
       r <- py_getitem prune_rate i ;;
       p <- py_getitem whole_param (i mod 4) ;;
       p' <- py_getitem whole_param (i mod 4) ;;
       Ok ((rate_all + r * inject_Z p)%Q, (rate_one + p')%Z))
     (rate_all, rate_one) ;;
  rate_all <- (if (rate_one =? 0)%Z then Raise ZeroDivisionError
               else Ok (rate_all / inject_Z rate_one)%Q) ;;
  for_each (seq 0 48) (fun i prune_rate =>
      r <- py_getitem prune_rate i ;;
      q <- (if Qeq_bool rate_all 0 then Raise ZeroDivisionError
            else Ok (r / rate_all)%Q) ;;
      py_setitem prune_rate i (q * ratio)%Q)
    prune_rate.

(** The parameter count of slot [i], and the parameter-count-weighted mean
    of the first 48 rates, the quantity the balancer normalises; the sums
    run in index order. *)
Definition slot_weight (i : nat) : Z := nth (i mod 4) whole_param 0%Z.

Definition weighted_sum (rates : list Q) : Q :=
  fold_left (fun acc i => acc + nth i rates 0 * inject_Z (slot_weight i))%Q
            (seq 0 48) 0%Q.

Definition weight_total : Z :=
  fold_left (fun acc i => acc + slot_weight i)%Z (seq 0 48) 0%Z.

Definition weighted_mean (rates : list Q) : Q :=
  (weighted_sum rates / inject_Z weight_total)%Q.

(** ** numpy scalars *)

(** A float64 up to rounding: not-a-number, an infinity, or a real. *)
Inductive npfloat : Type :=
| NaN
| PInf
| NInf
| Fin (x : R).

Definition fl_neg (a : npfloat) : npfloat :=
  match a with
  | NaN => NaN
  | PInf => NInf
  | NInf => PInf
  | Fin x => Fin (- x)
  end.

Definition fl_add (a b : npfloat) : npfloat :=
  match a, b with
  | NaN, _ | _, NaN => NaN
  | PInf, NInf | NInf, PInf => NaN
  | PInf, _ | _, PInf => PInf
  | NInf, _ | _, NInf => NInf
  | Fin x, Fin y => Fin (x + y)
  end.

(** Division does not raise in numpy: [0/0] is NaN and [x/0] an infinity. *)
Definition fl_div (a b : npfloat) : npfloat :=
  match a, b with
  | NaN, _ | _, NaN => NaN
  | Fin x, Fin y =>
      if Req_dec_T y 0 then
        if Req_dec_T x 0 then NaN
        else if Rlt_dec 0 x then PInf else NInf
      else Fin (x / y)
  | Fin _, _ => Fin 0
  | _, Fin y => if Rlt_dec y 0 then fl_neg a else a
  | _, _ => NaN
  end.

(** [a > b]; false as soon as one side is NaN. *)
Definition fl_gt (a b : npfloat) : bool :=
  match a, b with
  | NaN, _ | _, NaN => false
  | _, PInf => false
  | PInf, _ => true
  | NInf, _ => false
  | Fin _, NInf => true
  | Fin x, Fin y => if Rlt_dec y x then true else false
  end.

(** [a != b]; a NaN differs from everything, itself included. *)
Definition fl_ne (a b : npfloat) : bool :=
  match a, b with
  | NaN, _ | _, NaN => true
  | PInf, PInf | NInf, NInf => false
  | Fin x, Fin y => if Req_dec_T x y then false else true
  | _, _ => true
  end.

(** [n ** 0.5] for an integer [n]: NaN below zero. *)
Definition pow_half (n : Z) : npfloat :=
  if (n <? 0)%Z then NaN else Fin (sqrt (IZR n)).

Definition of_int (n : Z) : npfloat := Fin (IZR n).

(** ** The metric helper *)

(** [np.argmax] of one row: the first position of the maximum. *)
Fixpoint argmax_from (best : Q) (besti : nat) (i : nat) (l : list Q) : nat :=
  match l with
  | [] => besti
  | x :: l' =>
      if Qle_bool x best then argmax_from best besti (S i) l'
      else argmax_from x i (S i) l'
  end.

Definition argmax (l : list Q) : nat :=
  match l with
  | [] => 0
  | x :: l' => argmax_from x 0 1 l'
  end.

Definition zsum (l : list Z) : Z := fold_right Z.add 0%Z l.

(** Elementwise product of two arrays of the same length, then [.sum()]. *)
Definition dot (f g : Z -> Z) (a b : list Z) : Z :=
  zsum (map (fun '(x, y) => f x * g y)%Z (combine a b)).

(** [accuracy(out, labels)]: the number of correct predictions of the batch
    and the batch's Matthews-style correlation. *)
Definition accuracy (out : list (list Q)) (labels : list Z) : Z * npfloat :=
  let outputs := map (fun r => Z.of_nat (argmax r)) out in
  let tp := dot (fun o => o) (fun l => l) outputs labels in
  let tn := dot (fun o => 1 - o)%Z (fun l => 1 - l)%Z outputs labels in
  let fp := dot (fun o => o) (fun l => 1 - l)%Z outputs labels in
  let fn := dot (fun o => 1 - o)%Z (fun l => l) outputs labels in
  let mc := fl_div (of_int (tp * tn - fp * fn))
              (pow_half ((tp + fp) * (tp + fn) * (tn + fp) * (tn + fn))) in
  (zsum (map (fun '(o, l) => if (o =? l)%Z then 1 else 0)%Z
             (combine outputs labels)), mc).

(** ** The encoder's prunable parameters *)

(** The six weight matrices the orchestrator collects in [to_change]. *)
Record Layer : Type := mkLayer {
  self_query : Tensor Q;              (* attention.self.query.weight *)
  self_key : Tensor Q;                (* attention.self.key.weight *)
  self_value : Tensor Q;              (* attention.self.value.weight *)
  attention_output : Tensor Q;        (* attention.output.dense.weight *)
  intermediate : Tensor Q;            (* intermediate.dense.weight *)
  output : Tensor Q                   (* output.dense.weight *)
}.

Inductive PruneMode : Type := Vanilla | Channel | MultiHead.

(** The strings the orchestrator's first three slots compare against. *)
Definition mode_name (m : PruneMode) : string :=
  match m with
  | Vanilla => "vanilla"
  | Channel => "channel"
  | MultiHead => "multihead"
  end.

(** One application of the engine to one matrix, as the orchestrator calls
    it: the functions receive [1 - prune_rate[slot]]. *)
Definition prune (mode : PruneMode) (w : Tensor Q) (keepRatio : Q)
  : Result (Tensor Q) :=
  match mode with
  | Vanilla => do_sparse w (py_sub 1 keepRatio)
  | Channel => do_sparse_chn w (py_sub 1 keepRatio)
  | MultiHead => '(w, _) <- do_sparse_mh w (py_sub 1 keepRatio) None ;; Ok w
  end.

(** The attention triple of one layer, slot [layer_now * 4 + 0]. *)
Definition sparse_slot0 (prune_type : list string) (prune_rate : list Q)
  (layer_now : nat) (L : Layer) : Result Layer :=
  t <- py_getitem prune_type (layer_now * 4 + 0) ;;
  if (t =? "vanilla")%string then
    r <- py_getitem prune_rate (layer_now * 4 + 0) ;;
    q <- do_sparse (self_query L) (py_sub 1 r) ;;
    k <- do_sparse (self_key L) (py_sub 1 r) ;;
    v <- do_sparse (self_value L) (py_sub 1 r) ;;
    Ok (mkLayer q k v (attention_output L) (intermediate L) (output L))
  else if (t =? "channel")%string then
    r <- py_getitem prune_rate (layer_now * 4 + 0) ;;
    q <- do_sparse_chn (self_query L) (py_sub 1 r) ;;
    k <- do_sparse_chn (self_key L) (py_sub 1 r) ;;
    v <- do_sparse_chn (self_value L) (py_sub 1 r) ;;
    Ok (mkLayer q k v (attention_output L) (intermediate L) (output L))
  else if (t =? "multihead")%string then
    r <- py_getitem prune_rate (layer_now * 4 + 0) ;;
    '(v, indices) <- do_sparse_mh (self_value L) (py_sub 1 r) None ;;
    '(q, _) <- do_sparse_mh (self_query L) (py_sub 1 r) (Some indices) ;;
    '(k, _) <- do_sparse_mh (self_key L) (py_sub 1 r) (Some indices) ;;
    Ok (mkLayer q k v (attention_output L) (intermediate L) (output L))
  else Ok L.

(** A single matrix, slots 1 to 3; [chn] is the string the slot compares
    against for channel pruning. *)
Definition sparse_single (chn : string) (prune_type : list string)
  (prune_rate : list Q) (slot : nat) (w : Tensor Q) : Result (Tensor Q) :=
  t <- py_getitem prune_type slot ;;
  if (t =? "vanilla")%string then
    r <- py_getitem prune_rate slot ;; do_sparse w (py_sub 1 r)
  else if (t =? chn)%string then
    r <- py_getitem prune_rate slot ;; do_sparse_chn w (py_sub 1 r)
  else Ok w.

(** The body of [for layer_now in range(layer_num)]. *)
Definition sparse_layer (prune_type : list string) (prune_rate : list Q)
  (layer_now : nat) (layers : list Layer) : Result (list Layer) :=
  L <- py_getitem layers layer_now ;;
  L <- sparse_slot0 prune_type prune_rate layer_now L ;;
  w3 <- sparse_single "channel" prune_type prune_rate (layer_now * 4 + 1)
          (attention_output L) ;;
  w4 <- sparse_single "channel" prune_type prune_rate (layer_now * 4 + 2)
          (intermediate L) ;;
  w5 <- sparse_single "chn" prune_type prune_rate (layer_now * 4 + 3)
          (output L) ;;
  py_setitem layers layer_now
    (mkLayer (self_query L) (self_key L) (self_value L) w3 w4 w5).

Definition layer_num : nat := 12.

(** The whole pruning pass that follows every training step. *)
Definition sparse_pass (prune_type : list string) (prune_rate : list Q)
  (layers : list Layer) : Result (list Layer) :=
  for_each (seq 0 layer_num) (sparse_layer prune_type prune_rate) layers.

(** ** The orchestrator *)

Section Orchestrator.

(** What the embedding leaves opaque: the parameters other than the
    seventy-two pruned matrices, the optimizer, the batches, and the
    forward, backward and update computations. *)
Variables Rest Opt Batch EvalInput : Type.

Record BertModel : Type := mkModel {
  layers : list Layer;               (* model.bert.encoder.layer *)
  rest : Rest
}.

(** The optimizer built over the parameters of a model. *)
Variable make_optimizer : BertModel -> Opt.

(** One iteration up to the pruning pass: forward with the plan, loss,
    backward and, on accumulation boundaries, the optimizer step. *)
Variable train_step :
  list string -> list Q -> nat -> Batch -> BertModel * Opt -> BertModel * Opt.

(** The logits of one evaluation batch. *)
Variable forward : list string -> list Q -> BertModel -> EvalInput -> list (list Q).

(** Objects live in a store; [self.model] and the local [model] are
    references into it.  [nni_log] collects the intermediate results
    reported to the controller, [nni_final] the final one. *)
Record World : Type := mkWorld {
  heap : nat -> BertModel;
  next : nat;                        (* first unused reference *)
  nni_log : list npfloat;
  nni_final : option npfloat
}.

Definition M (A : Type) : Type := World -> Result A * World.

Definition ret {A} (a : A) : M A := fun w => (Ok a, w).

Definition bindM {A B} (m : M A) (f : A -> M B) : M B :=
  fun w => match m w with
           | (Ok a, w') => f a w'
           | (Raise e, w') => (Raise e, w')
           end.

Definition lift {A} (r : Result A) : M A := fun w => (r, w).

Definition get_obj (p : nat) : M BertModel := fun w => (Ok (heap w p), w).

Definition set_obj (p : nat) (m : BertModel) : M unit :=
  fun w => (Ok tt,
            mkWorld (fun q => if q =? p then m else heap w q)
                    (next w) (nni_log w) (nni_final w)).

(** [copy.deepcopy(obj)]: a fresh object with the same contents. *)
Definition deepcopy (p : nat) : M nat :=
  fun w => (Ok (next w),
            mkWorld (fun q => if q =? next w then heap w p else heap w q)
                    (S (next w)) (nni_log w) (nni_final w)).

Definition report_intermediate_result (s : npfloat) : M unit :=
  fun w => (Ok tt, mkWorld (heap w) (next w) (nni_log w ++ [s]) (nni_final w)).

Definition report_final_result (s : npfloat) : M unit :=
  fun w => (Ok tt, mkWorld (heap w) (next w) (nni_log w) (Some s)).

Fixpoint for_eachM {X S} (l : list X) (body : X -> S -> M S) (s : S) : M S :=
  match l with
  | [] => ret s
  | x :: l' => bindM (body x s) (for_eachM l' body)
  end.

Declare Scope world_scope.
Notation "x <- m ;; k" := (bindM m (fun x => k))
  (at level 61, m at next level, right associativity) : world_scope.
Notation "' p <- m ;; k" := (bindM m (fun p => k))
  (at level 61, p pattern, m at next level, right associativity) : world_scope.
Local Open Scope world_scope.

Record prune_function : Type := mkSelf {
  task_name : string;                (* args.task_name *)
  num_train_epochs : Q;              (* args.num_train_epochs *)
  train_dataloader : nat -> list Batch;  (* the batches drawn in each epoch *)
  eval_dataloader : list (EvalInput * list Z);
  self_model : nat                   (* reference to self.model *)
}.

(** One iteration of the inner training loop on the object [model]. *)
Definition train_iteration (model : nat) (prune_type : list string)
  (prune_rate : list Q) (step : nat) (batch : Batch) (optimizer : Opt)
  : M Opt :=
  m <- get_obj model ;;
  let '(m, optimizer) :=
    train_step prune_type prune_rate step batch (m, optimizer) in
  _ <- set_obj model m ;;
  _ <- for_eachM (seq 0 layer_num) (fun layer_now (_ : unit) =>
         m <- get_obj model ;;
         ls <- lift (sparse_layer prune_type prune_rate layer_now (layers m)) ;;
         set_obj model (mkModel ls (rest m))) tt ;;
  ret optimizer.

(** The body of the evaluation loop; the loop-carried locals are
[eval_accuracy], [eval_mc], [nb_eval_steps] and [nb_eval_examples]. *)
Definition eval_step (prune_type : list string) (prune_rate : list Q)
  (m : BertModel) (st : Z * npfloat * Z * Z) (batch : EvalInput * list Z)
  : Z * npfloat * Z * Z :=
  let '(eval_accuracy, eval_mc, nb_eval_steps, nb_eval_examples) := st in
  let '(input_ids, label_ids) := batch in
  let logits := forward prune_type prune_rate m input_ids in
  let '(tmp_eval_accuracy, mc) := accuracy logits label_ids in
  ((eval_accuracy + tmp_eval_accuracy)%Z, fl_add eval_mc mc,
   (nb_eval_steps + 1)%Z,
   (nb_eval_examples + Z.of_nat (length label_ids))%Z).

(** The evaluation loop and the three averages; dividing by a zero count
of steps is Python's [ZeroDivisionError].  Returns [eval_accuracy]
and [eval_mc] as stored in [result]. *)
Definition evaluate (self : prune_function) (prune_type : list string)
  (prune_rate : list Q) (m : BertModel) : Result (npfloat * npfloat) :=
  let '(eval_accuracy, eval_mc, nb_eval_steps, nb_eval_examples) :=
    fold_left (eval_step prune_type prune_rate m) (eval_dataloader self)
      (0%Z, of_int 0, 0%Z, 0%Z) in
  if (nb_eval_steps =? 0)%Z then Raise ZeroDivisionError
  else Ok (fl_div (of_int eval_accuracy) (of_int nb_eval_examples),
           fl_div eval_mc (of_int nb_eval_steps)).

(** The score of an epoch, from the two averages. *)
Definition epoch_score (self : prune_function) (eval_accuracy eval_mc : npfloat)
  : npfloat :=
  let eval_mc := if fl_ne eval_mc eval_mc then of_int 0 else eval_mc in
  if (task_name self =? "cola")%string then eval_mc else eval_accuracy.

Definition update_best (best_acc eval_accuracy : npfloat) : npfloat :=
  if fl_gt eval_accuracy best_acc then eval_accuracy else best_acc.

(** The body of [for epoch_i in trange(int(args.num_train_epochs))]; the
    loop-carried locals are the optimizer, the last [step] and [best_acc]. *)
Definition epoch (self : prune_function) (model : nat)
  (prune_type : list string) (prune_rate : list Q) (epoch_i : nat)
  (st : Opt * option nat * npfloat) : M (Opt * option nat * npfloat) :=
  let '(optimizer, step, best_acc) := st in
  '(optimizer, step) <-
     for_eachM (combine (seq 0 (length (train_dataloader self epoch_i)))
                        (train_dataloader self epoch_i))
       (fun '(step, batch) '(optimizer, _) =>
          optimizer <- train_iteration model prune_type prune_rate step
                         batch optimizer ;;
          ret (optimizer, Some step))
       (optimizer, step) ;;
  _ <- lift (match step with
             | Some _ => Ok tt
             | None => Raise UnboundLocalError
             end) ;;
  m <- get_obj model ;;
  '(eval_accuracy, eval_mc) <- lift (evaluate self prune_type prune_rate m) ;;
  let eval_accuracy := epoch_score self eval_accuracy eval_mc in
  let best_acc := update_best best_acc eval_accuracy in
  _ <- report_intermediate_result eval_accuracy ;;
  ret (optimizer, step, best_acc).

(** [prune_function.eval_after_train(self, prune_type, prune_rate)] *)
Definition eval_after_train (self : prune_function)
  (prune_type : list string) (prune_rate : list Q) : M npfloat :=
  model <- deepcopy (self_model self) ;;
  m <- get_obj model ;;
  let optimizer := make_optimizer m in
  let best_acc := of_int 0 in
  '(_, _, best_acc) <-
     for_eachM (seq 0 (Z.to_nat (py_int (num_train_epochs self))))
       (epoch self model prune_type prune_rate)
       (optimizer, None, best_acc) ;;
  ret best_acc.

(** The end of [main]: balance the rates, run, report the final result. *)
Definition main_trial (self : prune_function) (prune_type : list string)
  (prune_rate : list Q) : M npfloat :=
  prune_rate <- lift (balance prune_rate (3 # 10)) ;;
  acc <- eval_after_train self prune_type prune_rate ;;
  _ <- report_final_result acc ;;
  ret acc.

End Orchestrator.

Arguments mkModel {Rest} layers rest.
Arguments layers {Rest} b.
Arguments rest {Rest} b.
Arguments mkWorld {Rest} heap next nni_log nni_final.
Arguments heap {Rest} w _.
Arguments next {Rest} w.
Arguments nni_log {Rest} w.
Arguments nni_final {Rest} w.
Arguments ret {Rest A} a _.
Arguments bindM {Rest A B} m f _.
Arguments lift {Rest A} r _.
Arguments get_obj {Rest} p _.
Arguments set_obj {Rest} p m _.
Arguments deepcopy {Rest} p _.
Arguments report_intermediate_result {Rest} s _.
Arguments report_final_result {Rest} s _.
Arguments for_eachM {Rest X S} l body s _.
Arguments mkSelf {Batch EvalInput}.
Arguments task_name {Batch EvalInput} p.
Arguments num_train_epochs {Batch EvalInput} p.
Arguments train_dataloader {Batch EvalInput} p _.
Arguments eval_dataloader {Batch EvalInput} p.
Arguments self_model {Batch EvalInput} p.
Arguments train_iteration {Rest Opt Batch}.
Arguments eval_step {Rest EvalInput}.
Arguments evaluate {Rest Batch EvalInput}.
Arguments epoch_score {Batch EvalInput}.
Arguments epoch {Rest Opt Batch EvalInput}.
Arguments eval_after_train {Rest Opt Batch EvalInput}.
Arguments main_trial {Rest Opt Batch EvalInput}.

(** ** Reference descriptions used in the statements *)

Definition mem (r : nat) (S : list nat) : bool := existsb (Nat.eqb r) S.

(** The tensor [self] with, in every column [c], the rows listed in
    [sel c] set to zero. *)
Definition zero_sel (sel : nat -> list nat) (self : Tensor Q) : Tensor Q :=
  tabulate (size0 self) (size1 self)
    (fun r c => if mem r (sel c) then 0%Q else getQ self r c).

(** Entrywise numeric equality of two tensors of the same shape. *)
Definition tensor_eq (a b : Tensor Q) : Prop :=
  size0 a = size0 b /\ size1 a = size1 b /\ Forall2 Qeq (storage a) (storage b).

(** The flattened contents [l] with the positions listed in [S] set to
    zero. *)
Definition zero_at (S : list nat) (l : list Q) : list Q :=
  map (fun p => if mem p S then 0%Q else nth p l 0%Q) (seq 0 (length l)).

(** The number [k] of rows handed to [topk] for [d] candidate rows at keep
    ratio [r], as the specification writes it. *)
Definition k_of (r : Q) (d : nat) : nat :=
  Z.to_nat (Qfloor ((1 - r) * inject_Z (Z.of_nat d))).

Definition count (f : Q -> bool) (l : list Q) : Z :=
  Z.of_nat (length (filter f l)).

(** The all-ones matrix. *)
Definition ones (d1 d2 : nat) : Tensor Q := mkTensor d1 d2 (repeat 1%Q (d1 * d2)).

(** The sum of the absolute values of row [i], and the list of these sums. *)
Definition row_abs_sum (w : Tensor Q) (i : nat) : Q := Qsum (map Qabs (row w i)).

Definition row_sums (w : Tensor Q) : list Q :=
  map (row_abs_sum w) (seq 0 (size0 w)).

(** The view [w.reshape(h, d)] of a parameter: one row per attention
    head. *)
Definition heads_view (h d : nat) (w : Tensor Q) : Tensor Q :=
  mkTensor h d (storage w).

(** The rows that the multi-head mode, ranking on [v], selects in column
    [c] of the head view. *)
Definition mh_sel (h d k : nat) (v : Tensor Q) (c : nat) : list nat :=
  topk_col k (column (tabs (heads_view h d v)) c).

(** A 768x768 parameter without zeros: in head [h] (rows [64h] to
    [64h+63]) the entries of the even columns are [h + 1] and those of the
    odd columns [12 - h].  Given by flattened position [p], whose parity is
    that of the column and whose head is [p / (64*768)]. *)
Definition w_heads : Tensor Q :=
  mkTensor 768 768
    (map (fun p => if Nat.even p
                   then (inject_Z (Z.of_nat (p / (64 * 768))) + 1)%Q
                   else (12 - inject_Z (Z.of_nat (p / (64 * 768))))%Q)
         (seq 0 (768 * 768))).

(** The number of candidate rows the mode ranks, and the shapes on which
    the mode's tensor operations other than [topk] go through. *)
Definition rows_ranked (mode : PruneMode) (w : Tensor Q) : nat :=
  match mode with
  | Vanilla => numel w
  | Channel => size0 w
  | MultiHead => 12
  end.

Definition fits (mode : PruneMode) (w : Tensor Q) : Prop :=
  match mode with
  | Vanilla => wf w
  | Channel => 0 < size1 w
  | MultiHead => numel w = 12 * (64 * 768)
  end.

(** The argument [k] given to [topk] at keep ratio [r] for [d] candidate
    rows, as the program computes it, [int((1 - r) * float(d))] in doubles;
    and that number when there is one. *)
Definition k_arg_of (r : Q) (d : nat) : Result Z := topk_k (py_sub 1 r) d.

Definition k_f64 (r : Q) (d : nat) : nat :=
  match k_arg_of r d with
  | Ok k => Z.to_nat k
  | Raise _ => 0
  end.

Definition k_arg (mode : PruneMode) (w : Tensor Q) (r : Q) : Result Z :=
  k_arg_of r (rows_ranked mode w).

(** A twelve-layer encoder of 2x2 matrices on which every slot asks for
    channel pruning at keep ratio 1/2. *)
Definition w_small : Tensor Q := mkTensor 2 2 [1; 2; 3; 4]%Q.
Definition w_small_pruned : Tensor Q := mkTensor 2 2 [0; 0; 3; 4]%Q.
Definition layer_small : Layer :=
  mkLayer w_small w_small w_small w_small w_small w_small.
Definition all_channel : list string := repeat "channel"%string 48.
Definition all_half : list Q := repeat (1 # 2)%Q 48.

(** Relations between the world before and after a step. *)

(** The step keeps every object allocated below [n0] and allocates above. *)
Definition untouched_below {Rest} (n0 : nat) (w w' : World Rest) : Prop :=
  n0 <= next w -> n0 <= next w' /\ forall p, p < n0 -> heap w' p = heap w p.

(** The step reports nothing to the controller. *)
Definition silent {Rest} (w w' : World Rest) : Prop :=
  nni_log w' = nni_log w /\ nni_final w' = nni_final w.

Definition respects {Rest A} (P : World Rest -> World Rest -> Prop)
  (m : M Rest A) : Prop :=
  forall w, P w (snd (m w)).

(** The per-batch correlation of a batch whose predictions are all
    correct, from its labels. *)
Definition mc_all_correct (labels : list Z) : npfloat :=
  if ((zsum labels =? 0) || (Z.of_nat (length labels) - zsum labels =? 0))%Z
  then NaN else Fin 1.

(** A small trial: twelve layers of 1x1 matrices, updates that leave the
    weights alone, one training batch and one evaluation batch of two
    examples per epoch, and a model that always answers with [logits]. *)
Definition tiny_model : BertModel unit :=
  mkModel (repeat (let w := mkTensor 1 1 [1%Q] in mkLayer w w w w w w) 12) tt.

Definition tiny_world : World unit := mkWorld (fun _ => tiny_model) 1 [] None.

Definition tiny_self (epochs : Q) (labels : list Z) : prune_function unit unit :=
  mkSelf "cola"%string epochs (fun _ => [tt]) [(tt, labels)] 0.

Definition tiny_run (logits : list (list Q)) (labels : list Z)
  : Result npfloat * World unit :=
  eval_after_train (fun _ => tt) (fun _ _ _ _ s => s) (fun _ _ _ _ => logits)
    (tiny_self 1 labels) (repeat "vanilla"%string 48) (repeat (1 # 2)%Q 48)
    tiny_world.

(** The number of examples of an evaluation set. *)
Definition total_examples {X} (batches : list (X * list Z)) : Z :=
  zsum (map (fun b => Z.of_nat (length (snd b))) batches).

(** Every prediction of the evaluation set is its label, and the labels
    are those of a two-class task. *)
Definition all_predictions_correct {Rest EvalInput}
  (forward : list string -> list Q -> BertModel Rest -> EvalInput -> list (list Q))
  (prune_type : list string) (prune_rate : list Q) (m : BertModel Rest)
  (batches : list (EvalInput * list Z)) : Prop :=
  Forall (fun b =>
            map (fun r => Z.of_nat (argmax r))
                (forward prune_type prune_rate m (fst b)) = snd b /\
            Forall (fun x => x = 0 \/ x = 1)%Z (snd b)) batches.

(** The batch holds an example of each class. *)
Definition two_classes (labels : list Z) : Prop := In 0%Z labels /\ In 1%Z labels.

(** ** What a pruning step may do to a matrix *)

(** [out] holds as many entries as [w], each of them the entry of [w] at
    the same position or zero. *)
Definition only_zeroes (w out : Tensor Q) : Prop :=
  length (storage out) = length (storage w) /\
  forall p, nth p (storage out) 0%Q = 0%Q \/
            nth p (storage out) 0%Q = nth p (storage w) 0%Q.

Definition layer_wf (L : Layer) : Prop :=
  wf (self_query L) /\ wf (self_key L) /\ wf (self_value L) /\
  wf (attention_output L) /\ wf (intermediate L) /\ wf (output L).

Definition layer_only_zeroes (L L' : Layer) : Prop :=
  only_zeroes (self_query L) (self_query L') /\
  only_zeroes (self_key L) (self_key L') /\
  only_zeroes (self_value L) (self_value L') /\
  only_zeroes (attention_output L) (attention_output L') /\
  only_zeroes (intermediate L) (intermediate L') /\
  only_zeroes (output L) (output L').

(** The strings slot [slot] of the plan reacts to; any other string leaves
    the slot's matrices alone. *)
Definition recognised (slot : nat) (t : string) : bool :=
  match slot mod 4 with
  | 0 => (t =? "vanilla")%string || (t =? "channel")%string
         || (t =? "multihead")%string
  | 1 | 2 => (t =? "vanilla")%string || (t =? "channel")%string
  | _ => (t =? "vanilla")%string || (t =? "chn")%string
  end.

(** ** Predictions and labels of a two-class batch *)

(** [np.argmax(out, axis=1)] *)
Definition predictions (out : list (list Q)) : list Z :=
  map (fun r => Z.of_nat (argmax r)) out.

Definition binary (l : list Z) : Prop := Forall (fun x => x = 0 \/ x = 1)%Z l.

(** A batch as the metric helper expects it: one row of two logits per
    label, the labels those of a two-class task. *)
Definition two_class_batch (out : list (list Q)) (labels : list Z) : Prop :=
  length out = length labels /\
  Forall (fun r => length r = 2) out /\ binary labels.

(** ** Preparing the inputs: truncation of a sequence pair *)

(** [l.pop()], for its effect on [l]: the list without its last element;
    on an empty list Python raises [IndexError]. *)
Definition py_pop {A} (l : list A) : Result (list A) :=
  match l with
  | [] => Raise IndexError
  | _ :: _ => Ok (removelast l)
  end.

(** [_truncate_seq_pair(tokens_a, tokens_b, max_length)].  The two lists
    are truncated in place; the value returned here is the pair of lists
    afterwards.  The loop [while True] ends by [break] or by the
    [IndexError] of a [pop] on an empty list; each turn removes one token,
    so that the total length decreases. *)
Equations _truncate_seq_pair {A} (tokens_a tokens_b : list A) (max_length : Z)
  : Result (list A * list A) by wf (length tokens_a + length tokens_b) lt :=
  _truncate_seq_pair tokens_a tokens_b max_length
    with (Z.of_nat (length tokens_a + length tokens_b) <=? max_length)%Z := {
    | true => Ok (tokens_a, tokens_b)                       (* break *)
    | false with (length tokens_b <? length tokens_a) := {
      | true with tokens_a := {                             (* tokens_a.pop() *)
        | [] => Raise IndexError
        | x :: l =>
            _truncate_seq_pair (removelast (x :: l)) tokens_b max_length }
      | false with tokens_b := {                            (* tokens_b.pop() *)
        | [] => Raise IndexError
        | y :: l =>
            _truncate_seq_pair tokens_a (removelast (y :: l)) max_length } } }.
Next Obligation.
  assert (H : length (removelast (x :: l)) < S (length l))
    by (rewrite removelast_firstn_len, length_firstn; cbn [length]; lia).
  simpl in *. lia.
Qed.
Next Obligation.
  assert (H : length (removelast (y :: l)) < S (length l))
    by (rewrite removelast_firstn_len, length_firstn; cbn [length]; lia).
  simpl in *. lia.
Qed.

(** ** Exceptions of the data pipeline *)

(** The input pipeline raises, beside the exceptions of the engine, five
    more of Python's built-in exceptions. *)
Inductive Exception : Type :=
| Builtin (e : Exn)
| AssertionError
| KeyError
| ValueError
| TypeError
| AttributeError
| Other (name : string).         (* an exception of a library *)

Inductive Outcome (A : Type) : Type :=
| Return (a : A)
| Throw (e : Exception).
Arguments Return {A} a.
Arguments Throw {A} e.

Definition bindO {A B : Type} (m : Outcome A) (f : A -> Outcome B) : Outcome B :=
  match m with
  | Return a => f a
  | Throw e => Throw e
  end.

Declare Scope outcome_scope.
Delimit Scope outcome_scope with outcome.
Notation "x <- m ;; k" := (bindO m (fun x => k))
  (at level 61, m at next level, right associativity) : outcome_scope.
Notation "' p <- m ;; k" := (bindO m (fun p => k))
  (at level 61, p pattern, m at next level, right associativity) : outcome_scope.

Definition of_result {A} (r : Result A) : Outcome A :=
  match r with
  | Ok a => Return a
  | Raise e => Throw (Builtin e)
  end.

(** [assert c] *)
Definition py_assert (c : bool) : Outcome unit :=
  if c then Return tt else Throw AssertionError.

(** [for x in l: s = body(x, s)], stopping at the first exception. *)
Fixpoint for_eachO {X S} (l : list X) (body : X -> S -> Outcome S) (s : S)
  : Outcome S :=
  match l with
  | [] => Return s
  | x :: l' => bindO (body x s) (for_eachO l' body)
  end.

(** ** Python lists and dicts, continued *)

(** [l[:stop]]: a negative [stop] counts from the end. *)
Definition py_slice_to {A} (l : list A) (stop : Z) : list A :=
  if (stop <? 0)%Z then firstn (Z.to_nat (Z.of_nat (length l) + stop)) l
  else firstn (Z.to_nat stop) l.

(** [[x] * n]: empty for [n <= 0]. *)
Definition py_repeat {A} (x : A) (n : Z) : list A := repeat x (Z.to_nat n).

(** A dict as the list of its items, the latest first: setting a key
    shadows the older item. *)
Definition dict (K V : Type) : Type := list (K * V).

Definition dict_set {K V} (d : dict K V) (k : K) (v : V) : dict K V := (k, v) :: d.

Definition dict_get {K V} (eqb : K -> K -> bool) (d : dict K V) (k : K)
  : option V :=
  match find (fun kv => eqb (fst kv) k) d with
  | Some kv => Some (snd kv)
  | None => None
  end.

(** [enumerate(l)] *)
Definition enumerate {A} (l : list A) : list (nat * A) :=
  combine (seq 0 (length l)) l.

(** ** Examples and features *)

Record InputExample : Type := mkInputExample {
  guid : string;
  text_a : string;
  text_b : option string;           (* None for a single sequence *)
  label : option string
}.

(** A label id is an index into the label list, or a float for a
    regression task. *)
Inductive LabelId : Type :=
| IntLabel (i : nat)
| FloatLabel (x : Q).

Record InputFeatures : Type := mkInputFeatures {
  input_ids : list Z;
  input_mask : list Z;
  segment_ids : list Z;
  label_id : LabelId
}.

(** Equality of two labels, each a string or [None]. *)
Definition label_eqb (a b : option string) : bool :=
  match a, b with
  | Some x, Some y => (x =? y)%string
  | None, None => true
  | _, _ => false
  end.

(** [{label: i for i, label in enumerate(label_list)}] *)
Definition make_label_map (label_list : list (option string))
  : dict (option string) nat :=
  fold_left (fun d '(i, label) => dict_set d label i) (enumerate label_list) [].

(** The truth value of [example.text_b]: false for [None] and for the
    empty string. *)
Definition py_truthy (t : option string) : option string :=
  match t with
  | Some s => if (s =? "")%string then None else Some s
  | None => None
  end.

Section Conversion.

(** What the embedding leaves opaque: the tokenizer, and the reading of a
    float from a string. *)
Variable tokenize : string -> list string.
Variable convert_tokens_to_ids : list string -> Outcome (list Z).
Variable float_of_string : string -> option Q.

Local Open Scope outcome_scope.

(** The body of the loop of [convert_examples_to_features]. *)
Definition convert_example (label_map : dict (option string) nat)
  (max_seq_length : Z) (output_mode : string) (example : InputExample)
  : Outcome InputFeatures :=
  let tokens_a := tokenize (text_a example) in
  '(tokens_a, tokens_b) <-
     match py_truthy (text_b example) with
     | Some s =>
         let tokens_b := tokenize s in
         '(tokens_a, tokens_b) <-
            of_result (_truncate_seq_pair tokens_a tokens_b (max_seq_length - 3)) ;;
         Return (tokens_a, Some tokens_b)
     | None =>
         Return (if (max_seq_length - 2 <? Z.of_nat (length tokens_a))%Z
                 then py_slice_to tokens_a (max_seq_length - 2)
                 else tokens_a, None)
     end ;;
  let tokens := ["[CLS]"%string] ++ tokens_a ++ ["[SEP]"%string] in
  let segment_ids := repeat 0%Z (length tokens) in
  let '(tokens, segment_ids) :=
    match tokens_b with
    | Some (t :: tb) =>
        (tokens ++ (t :: tb) ++ ["[SEP]"%string],
         segment_ids ++ repeat 1%Z (length (t :: tb) + 1))
    | _ => (tokens, segment_ids)
    end in
  input_ids <- convert_tokens_to_ids tokens ;;
  let input_mask := repeat 1%Z (length input_ids) in
  let padding := py_repeat 0%Z (max_seq_length - Z.of_nat (length input_ids)) in
  let input_ids := input_ids ++ padding in
  let input_mask := input_mask ++ padding in
  let segment_ids := segment_ids ++ padding in
  _ <- py_assert (Z.of_nat (length input_ids) =? max_seq_length)%Z ;;
  _ <- py_assert (Z.of_nat (length input_mask) =? max_seq_length)%Z ;;
  _ <- py_assert (Z.of_nat (length segment_ids) =? max_seq_length)%Z ;;
  label_id <-
    (if (output_mode =? "classification")%string then
       match dict_get label_eqb label_map (label example) with
       | Some i => Return (IntLabel i)
       | None => Throw KeyError
       end
     else if (output_mode =? "regression")%string then
       match label example with
       | None => Throw TypeError
       | Some s => match float_of_string s with
                   | Some x => Return (FloatLabel x)
                   | None => Throw ValueError
                   end
       end
     else Throw KeyError) ;;
  Return (mkInputFeatures input_ids input_mask segment_ids label_id).

(** [convert_examples_to_features(examples, label_list, max_seq_length,
    tokenizer, output_mode)]; [examples] is [None] when the caller has read
    no examples. *)
Definition convert_examples_to_features (examples : option (list InputExample))
  (label_list : list (option string)) (max_seq_length : Z)
  (output_mode : string) : Outcome (list InputFeatures) :=
  let label_map := make_label_map label_list in
  match examples with
  | None => Throw TypeError                 (* enumerate(None) *)
  | Some examples =>
      for_eachO examples (fun example features =>
          f <- convert_example label_map max_seq_length output_mode example ;;
          Return (features ++ [f]))
        []
  end.

End Conversion.

(** Features padded to [max_seq_length]: [n] real tokens, at least the two
    markers, under a mask of [n] ones followed by zeros, with zeros in the
    padding of the two other sequences. *)
Definition padded_to (max_seq_length : Z) (f : InputFeatures) : Prop :=
  exists n : nat,
    2 <= n /\ (Z.of_nat n <= max_seq_length)%Z /\
    input_mask f = repeat 1%Z n ++ repeat 0%Z (Z.to_nat max_seq_length - n) /\
    length (input_ids f) = Z.to_nat max_seq_length /\
    length (segment_ids f) = Z.to_nat max_seq_length /\
    forall i, n <= i -> nth i (input_ids f) 0%Z = 0%Z /\
                        nth i (segment_ids f) 0%Z = 0%Z.

(** A tokenizer that knows every token and gives one id per token. *)
Definition one_id_per_token (convert_tokens_to_ids : list string -> Outcome (list Z))
  : Prop :=
  forall tokens, exists ids,
    convert_tokens_to_ids tokens = Return ids /\ length ids = length tokens.

(** ** The data processors *)

(** [l[i]] for an index of either sign: a negative one counts from the
    end. *)
Definition py_index {A} (l : list A) (i : Z) : Result A :=
  if (i <? 0)%Z then
    if (Z.of_nat (length l) + i <? 0)%Z then Raise IndexError
    else py_getitem l (Z.to_nat (Z.of_nat (length l) + i))
  else py_getitem l (Z.to_nat i).

(** [str(i)] for a non-negative integer. *)
Definition py_str (i : nat) : string := NilEmpty.string_of_uint (Nat.to_uint i).

(** ["%s-%s" % (a, b)] for two strings. *)
Definition guid_format (a b : string) : string := (a ++ "-" ++ b)%string.

(** What the processors see of the file system: [os.path.join] and
    [DataProcessor._read_tsv], which returns the rows of a file, each a list
    of fields, or raises. *)
Record Files : Type := mkFiles {
  os_path_join : string -> string -> string;
  _read_tsv : string -> Outcome (list (list string))
}.

(** A processor object, by its three public methods. *)
Record DataProcessor : Type := mkDataProcessor {
  train_examples_of : string -> Outcome (list InputExample);
  dev_examples_of : string -> Outcome (list InputExample);
  labels_of : list (option string)
}.

(** Processor for the MRPC data set. *)
Module MrpcProcessor.

Local Open Scope result_scope.

Definition get_labels : list (option string) := [Some "0"; Some "1"]%string.

Definition _create_examples (lines : list (list string)) (set_type : string)
  : Result (list InputExample) :=
  for_each (enumerate lines) (fun '(i, line) examples =>
      if i =? 0 then Ok examples                  (* continue *)
      else
        let guid := guid_format set_type (py_str i) in
        text_a <- py_index line 3 ;;
        text_b <- py_index line 4 ;;
        label <- py_index line 0 ;;
        Ok (examples ++ [mkInputExample guid text_a (Some text_b) (Some label)]))
    [].

Local Open Scope outcome_scope.

Definition get_train_examples (fs : Files) (data_dir : string)
  : Outcome (list InputExample) :=
  lines <- _read_tsv fs (os_path_join fs data_dir "train.tsv") ;;
  of_result (_create_examples lines "train").
Definition get_dev_examples (fs : Files) (data_dir : string)
  : Outcome (list InputExample) :=
  lines <- _read_tsv fs (os_path_join fs data_dir "dev.tsv") ;;
  of_result (_create_examples lines "dev").

End MrpcProcessor.

(** Processor for the MultiNLI data set. *)
Module MnliProcessor.

Local Open Scope result_scope.

Definition get_labels : list (option string) := [Some "contradiction"; Some "entailment"; Some "neutral"]%string.

Definition _create_examples (lines : list (list string)) (set_type : string)
  : Result (list InputExample) :=
  for_each (enumerate lines) (fun '(i, line) examples =>
      if i =? 0 then Ok examples                  (* continue *)
      else
        l0 <- py_index line 0 ;;
        let guid := guid_format set_type l0 in
        text_a <- py_index line 8 ;;
        text_b <- py_index line 9 ;;
        label <- py_index line (-1) ;;
        Ok (examples ++ [mkInputExample guid text_a (Some text_b) (Some label)]))
    [].

Local Open Scope outcome_scope.

Definition get_train_examples (fs : Files) (data_dir : string)
  : Outcome (list InputExample) :=
  lines <- _read_tsv fs (os_path_join fs data_dir "train.tsv") ;;
  of_result (_create_examples lines "train").
Definition get_dev_examples (fs : Files) (data_dir : string)
  : Outcome (list InputExample) :=
  lines <- _read_tsv fs (os_path_join fs data_dir "dev_matched.tsv") ;;
  of_result (_create_examples lines "dev_matched").

End MnliProcessor.

(** Processor for the MultiNLI mismatched data set: [MnliProcessor] with
    another file for the development set. *)
Module MnliMismatchedProcessor.

Local Open Scope outcome_scope.

Definition get_labels : list (option string) := MnliProcessor.get_labels.

Definition _create_examples := MnliProcessor._create_examples.

Definition get_train_examples := MnliProcessor.get_train_examples.

Definition get_dev_examples (fs : Files) (data_dir : string)
  : Outcome (list InputExample) :=
  lines <- _read_tsv fs (os_path_join fs data_dir "dev_mismatched.tsv") ;;
  of_result (_create_examples lines "dev_matched").

End MnliMismatchedProcessor.

(** Processor for the CoLA data set. *)
Module ColaProcessor.

Local Open Scope result_scope.

Definition get_labels : list (option string) := [Some "0"; Some "1"]%string.

Definition _create_examples (lines : list (list string)) (set_type : string)
  : Result (list InputExample) :=
  for_each (enumerate lines) (fun '(i, line) examples =>
      let guid := guid_format set_type (py_str i) in
      text_a <- py_index line 3 ;;
      label <- py_index line 1 ;;
      Ok (examples ++ [mkInputExample guid text_a None (Some label)]))
    [].

Local Open Scope outcome_scope.

Definition get_train_examples (fs : Files) (data_dir : string)
  : Outcome (list InputExample) :=
  lines <- _read_tsv fs (os_path_join fs data_dir "train.tsv") ;;
  of_result (_create_examples lines "train").
Definition get_dev_examples (fs : Files) (data_dir : string)
  : Outcome (list InputExample) :=
  lines <- _read_tsv fs (os_path_join fs data_dir "dev.tsv") ;;
  of_result (_create_examples lines "dev").

End ColaProcessor.

(** Processor for the SST-2 data set. *)
Module Sst2Processor.

Local Open Scope result_scope.

Definition get_labels : list (option string) := [Some "0"; Some "1"]%string.

Definition _create_examples (lines : list (list string)) (set_type : string)
  : Result (list InputExample) :=
  for_each (enumerate lines) (fun '(i, line) examples =>
      if i =? 0 then Ok examples                  (* continue *)
      else
        let guid := guid_format set_type (py_str i) in
        text_a <- py_index line 0 ;;
        label <- py_index line 1 ;;
        Ok (examples ++ [mkInputExample guid text_a None (Some label)]))
    [].

Local Open Scope outcome_scope.

Definition get_train_examples (fs : Files) (data_dir : string)
  : Outcome (list InputExample) :=
  lines <- _read_tsv fs (os_path_join fs data_dir "train.tsv") ;;
  of_result (_create_examples lines "train").
Definition get_dev_examples (fs : Files) (data_dir : string)
  : Outcome (list InputExample) :=
  lines <- _read_tsv fs (os_path_join fs data_dir "dev.tsv") ;;
  of_result (_create_examples lines "dev").

End Sst2Processor.

(** Processor for the STS-B data set. *)
Module StsbProcessor.

Local Open Scope result_scope.

Definition get_labels : list (option string) := [None].

Definition _create_examples (lines : list (list string)) (set_type : string)
  : Result (list InputExample) :=
  for_each (enumerate lines) (fun '(i, line) examples =>
      if i =? 0 then Ok examples                  (* continue *)
      else
        l0 <- py_index line 0 ;;
        let guid := guid_format set_type l0 in
        text_a <- py_index line 7 ;;
        text_b <- py_index line 8 ;;
        label <- py_index line (-1) ;;
        Ok (examples ++ [mkInputExample guid text_a (Some text_b) (Some label)]))
    [].

Local Open Scope outcome_scope.

Definition get_train_examples (fs : Files) (data_dir : string)
  : Outcome (list InputExample) :=
  lines <- _read_tsv fs (os_path_join fs data_dir "train.tsv") ;;
  of_result (_create_examples lines "train").
Definition get_dev_examples (fs : Files) (data_dir : string)
  : Outcome (list InputExample) :=
  lines <- _read_tsv fs (os_path_join fs data_dir "dev.tsv") ;;
  of_result (_create_examples lines "dev").

End StsbProcessor.

(** Processor for the QQP data set: a row without the fields 3 to 5 is
    left out. *)
Module QqpProcessor.

Local Open Scope result_scope.

Definition get_labels : list (option string) := [Some "0"; Some "1"]%string.

Definition _create_examples (lines : list (list string)) (set_type : string)
  : Result (list InputExample) :=
  for_each (enumerate lines) (fun '(i, line) examples =>
      if i =? 0 then Ok examples                  (* continue *)
      else
        l0 <- py_index line 0 ;;
        let guid := guid_format set_type l0 in
        match (text_a <- py_index line 3 ;;       (* try: *)
               text_b <- py_index line 4 ;;
               label <- py_index line 5 ;;
               Ok (text_a, text_b, label)) with
        | Ok (text_a, text_b, label) =>
            Ok (examples ++ [mkInputExample guid text_a (Some text_b) (Some label)])
        | Raise IndexError => Ok examples         (* except IndexError: continue *)
        | Raise e => Raise e
        end)
    [].

Local Open Scope outcome_scope.

Definition get_train_examples (fs : Files) (data_dir : string)
  : Outcome (list InputExample) :=
  lines <- _read_tsv fs (os_path_join fs data_dir "train.tsv") ;;
  of_result (_create_examples lines "train").
Definition get_dev_examples (fs : Files) (data_dir : string)
  : Outcome (list InputExample) :=
  lines <- _read_tsv fs (os_path_join fs data_dir "dev.tsv") ;;
  of_result (_create_examples lines "dev").

End QqpProcessor.

(** Processor for the QNLI data set. *)
Module QnliProcessor.

Local Open Scope result_scope.

Definition get_labels : list (option string) := [Some "entailment"; Some "not_entailment"]%string.

Definition _create_examples (lines : list (list string)) (set_type : string)
  : Result (list InputExample) :=
  for_each (enumerate lines) (fun '(i, line) examples =>
      if i =? 0 then Ok examples                  (* continue *)
      else
        l0 <- py_index line 0 ;;
        let guid := guid_format set_type l0 in
        text_a <- py_index line 1 ;;
        text_b <- py_index line 2 ;;
        label <- py_index line (-1) ;;
        Ok (examples ++ [mkInputExample guid text_a (Some text_b) (Some label)]))
    [].

Local Open Scope outcome_scope.

Definition get_train_examples (fs : Files) (data_dir : string)
  : Outcome (list InputExample) :=
  lines <- _read_tsv fs (os_path_join fs data_dir "train.tsv") ;;
  of_result (_create_examples lines "train").
Definition get_dev_examples (fs : Files) (data_dir : string)
  : Outcome (list InputExample) :=
  lines <- _read_tsv fs (os_path_join fs data_dir "dev.tsv") ;;
  of_result (_create_examples lines "dev_matched").

End QnliProcessor.

(** Processor for the RTE data set. *)
Module RteProcessor.

Local Open Scope result_scope.

Definition get_labels : list (option string) := [Some "entailment"; Some "not_entailment"]%string.

Definition _create_examples (lines : list (list string)) (set_type : string)
  : Result (list InputExample) :=
  for_each (enumerate lines) (fun '(i, line) examples =>
      if i =? 0 then Ok examples                  (* continue *)
      else
        l0 <- py_index line 0 ;;
        let guid := guid_format set_type l0 in
        text_a <- py_index line 1 ;;
        text_b <- py_index line 2 ;;
        label <- py_index line (-1) ;;
        Ok (examples ++ [mkInputExample guid text_a (Some text_b) (Some label)]))
    [].

Local Open Scope outcome_scope.

Definition get_train_examples (fs : Files) (data_dir : string)
  : Outcome (list InputExample) :=
  lines <- _read_tsv fs (os_path_join fs data_dir "train.tsv") ;;
  of_result (_create_examples lines "train").
Definition get_dev_examples (fs : Files) (data_dir : string)
  : Outcome (list InputExample) :=
  lines <- _read_tsv fs (os_path_join fs data_dir "dev.tsv") ;;
  of_result (_create_examples lines "dev").

End RteProcessor.

(** Processor for the WNLI data set. *)
Module WnliProcessor.

Local Open Scope result_scope.

Definition get_labels : list (option string) := [Some "0"; Some "1"]%string.

Definition _create_examples (lines : list (list string)) (set_type : string)
  : Result (list InputExample) :=
  for_each (enumerate lines) (fun '(i, line) examples =>
      if i =? 0 then Ok examples                  (* continue *)
      else
        l0 <- py_index line 0 ;;
        let guid := guid_format set_type l0 in
        text_a <- py_index line 1 ;;
        text_b <- py_index line 2 ;;
        label <- py_index line (-1) ;;
        Ok (examples ++ [mkInputExample guid text_a (Some text_b) (Some label)]))
    [].

Local Open Scope outcome_scope.

Definition get_train_examples (fs : Files) (data_dir : string)
  : Outcome (list InputExample) :=
  lines <- _read_tsv fs (os_path_join fs data_dir "train.tsv") ;;
  of_result (_create_examples lines "train").
Definition get_dev_examples (fs : Files) (data_dir : string)
  : Outcome (list InputExample) :=
  lines <- _read_tsv fs (os_path_join fs data_dir "dev.tsv") ;;
  of_result (_create_examples lines "dev").

End WnliProcessor.

(** ** The constructor of [prune_function] *)

(** [str.lower] on a string of ASCII characters. *)
Fixpoint ascii_lower (s : string) : string :=
  match s with
  | EmptyString => EmptyString
  | String c s' =>
      let n := Ascii.nat_of_ascii c in
      String (if (65 <=? n) && (n <=? 90) then Ascii.ascii_of_nat (n + 32) else c)
        (ascii_lower s')
  end.

(** A dict literal: the items are set from left to right. *)
Definition dict_of {K V} (items : list (K * V)) : dict K V :=
  fold_left (fun d '(k, v) => dict_set d k v) items [].

Module Construction.

Local Open Scope outcome_scope.

(** The command-line arguments that the constructor reads. *)
Record Args : Type := mkArgs {
  local_rank : Z;
  no_cuda : bool;
  fp16 : bool;
  gradient_accumulation_steps : Z;
  train_batch_size : Z;
  eval_batch_size : Z;
  seed : Z;
  do_train : bool;
  do_eval : bool;
  task_name : string;
  data_dir : string;
  bert_model : string;
  do_lower_case : bool;
  max_seq_length : Z;
  num_train_epochs : Q
}.

(** [args.train_batch_size = v] *)
Definition set_train_batch_size (args : Args) (v : Z) : Args :=
  mkArgs (local_rank args) (no_cuda args) (fp16 args)
    (gradient_accumulation_steps args) v (eval_batch_size args) (seed args)
    (do_train args) (do_eval args) (task_name args) (data_dir args)
    (bert_model args) (do_lower_case args) (max_seq_length args)
    (num_train_epochs args).

Definition processors (fs : Files) : dict string DataProcessor :=
  dict_of
    [("cola", mkDataProcessor (ColaProcessor.get_train_examples fs)
                (ColaProcessor.get_dev_examples fs) ColaProcessor.get_labels);
     ("mnli", mkDataProcessor (MnliProcessor.get_train_examples fs)
                (MnliProcessor.get_dev_examples fs) MnliProcessor.get_labels);
     ("mnli-mm", mkDataProcessor (MnliMismatchedProcessor.get_train_examples fs)
                   (MnliMismatchedProcessor.get_dev_examples fs)
                   MnliMismatchedProcessor.get_labels);
     ("mrpc", mkDataProcessor (MrpcProcessor.get_train_examples fs)
                (MrpcProcessor.get_dev_examples fs) MrpcProcessor.get_labels);
     ("sst-2", mkDataProcessor (Sst2Processor.get_train_examples fs)
                 (Sst2Processor.get_dev_examples fs) Sst2Processor.get_labels);
     ("sts-b", mkDataProcessor (StsbProcessor.get_train_examples fs)
                 (StsbProcessor.get_dev_examples fs) StsbProcessor.get_labels);
     ("qqp", mkDataProcessor (QqpProcessor.get_train_examples fs)
               (QqpProcessor.get_dev_examples fs) QqpProcessor.get_labels);
     ("qnli", mkDataProcessor (QnliProcessor.get_train_examples fs)
                (QnliProcessor.get_dev_examples fs) QnliProcessor.get_labels);
     ("rte", mkDataProcessor (RteProcessor.get_train_examples fs)
               (RteProcessor.get_dev_examples fs) RteProcessor.get_labels);
     ("wnli", mkDataProcessor (WnliProcessor.get_train_examples fs)
                (WnliProcessor.get_dev_examples fs) WnliProcessor.get_labels)]%string.

Definition output_modes : dict string string :=
  dict_of
    [("cola", "classification");
     ("mnli", "classification");
     ("mrpc", "classification");
     ("sst-2", "classification");
     ("sts-b", "regression");
     ("qqp", "classification");
     ("qnli", "classification");
     ("rte", "classification");
     ("wnli", "classification")]%string.

Section Constructor.

(** What the embedding leaves opaque: the devices, the tokenizer, the
    tensors and data loaders and the loading of the model, each a call into
    a library that returns or raises; [str.lower]; the reading of a float;
    and the float arithmetic of the number of optimization steps. *)
Context {Device Tokenizer Loader Model : Type}.

Variable lower : string -> string.
Variable fs : Files.
Variable float_of_string : string -> option Q.

(** The choice of the device and of [n_gpu], with the start of the
    distributed backend when [local_rank] is not -1. *)
Variable setup_device : Args -> Outcome (Device * Z).

(** The seeding of the three random number generators. *)
Variable set_seeds : Z -> Z -> Outcome unit.

(** [BertTokenizer.from_pretrained], which may return [None], and the two
    methods of a tokenizer. *)
Variable from_pretrained : string -> bool -> Outcome (option Tokenizer).
Variable tokenize : Tokenizer -> string -> list string.
Variable convert_tokens_to_ids : Tokenizer -> list string -> Outcome (list Z).

(** [int(n / train_batch_size / gradient_accumulation_steps) *
    num_train_epochs] for a batch size other than 0. *)
Variable train_steps : nat -> Z -> Z -> Q -> Outcome Q.

Variable get_world_size : Outcome Z.

(** The tensors, the sampler and the loader of the training set, from the
    features, the output mode, [local_rank] and the batch size; and those of
    the evaluation set. *)
Variable train_loader : list InputFeatures -> string -> Z -> Z -> Outcome Loader.
Variable eval_loader : list InputFeatures -> Z -> Outcome Loader.

(** The model read from the files of the weights and moved to the device. *)
Variable load_model : Args -> nat -> Device -> Z -> Outcome Model.

(** [convert_examples_to_features] with the tokenizer object; without a
    tokenizer, the first example raises [AttributeError]. *)
Definition convert_with (tokenizer : option Tokenizer)
  (examples : option (list InputExample)) (label_list : list (option string))
  (max_seq_length : Z) (output_mode : string) : Outcome (list InputFeatures) :=
  match tokenizer with
  | Some t =>
      convert_examples_to_features (tokenize t) (convert_tokens_to_ids t)
        float_of_string examples label_list max_seq_length output_mode
  | None =>
      match examples with
      | None => Throw TypeError
      | Some [] => Return []
      | Some (_ :: _) => Throw AttributeError
      end
  end.

(** The attributes that the constructor sets. *)
Record Self : Type := mkSelf {
  self_args : Args;
  device : Device;
  num_train_optimization_steps : Q;
  train_dataloader : Loader;
  eval_dataloader : Loader;
  model : Model;
  output_mode : string;
  num_labels : nat;
  n_gpu : Z
}.

Definition __init__ (args : Args) : Outcome Self :=
  '(device, n_gpu) <- setup_device args ;;
  _ <- (if (gradient_accumulation_steps args <? 1)%Z
        then Throw ValueError else Return tt) ;;
  let args :=
    set_train_batch_size args
      (train_batch_size args / gradient_accumulation_steps args)%Z in
  _ <- set_seeds (seed args) n_gpu ;;
  _ <- (if negb (do_train args) && negb (do_eval args)
        then Throw ValueError else Return tt) ;;
  let task_name := lower (task_name args) in
  processor <-
    match dict_get String.eqb (processors fs) task_name with
    | None => Throw ValueError          (* task_name not in processors *)
    | Some p => Return p
    end ;;
  output_mode <-
    match dict_get String.eqb output_modes task_name with
    | None => Throw KeyError
    | Some m => Return m
    end ;;
  let label_list := labels_of processor in
  let num_labels := length label_list in
  tokenizer <- from_pretrained (bert_model args) (do_lower_case args) ;;
  '(train_examples, steps) <-
    (if do_train args then
       train_examples <- train_examples_of processor (data_dir args) ;;
       steps <-
         (if (train_batch_size args =? 0)%Z
          then Throw (Builtin ZeroDivisionError)
          else train_steps (length train_examples) (train_batch_size args)
                 (gradient_accumulation_steps args) (num_train_epochs args)) ;;
       steps <-
         (if (local_rank args =? -1)%Z then Return steps
          else _ <- get_world_size ;;
               Throw TypeError) ;;      (* None // world_size *)
       Return (Some train_examples, Some steps)
     else Return (None, None)) ;;
  train_features <-
    convert_with tokenizer train_examples label_list (max_seq_length args)
      output_mode ;;
  steps <-
    match steps with                    (* self.num_train_optimization_steps *)
    | Some steps => Return steps
    | None => Throw AttributeError
    end ;;
  train_dataloader <-
    train_loader train_features output_mode (local_rank args)
      (train_batch_size args) ;;
  eval_examples <- dev_examples_of processor (data_dir args) ;;
  eval_features <-
    convert_with tokenizer (Some eval_examples) label_list (max_seq_length args)
      output_mode ;;
  eval_dataloader <- eval_loader eval_features (eval_batch_size args) ;;
  model <- load_model args num_labels device n_gpu ;;
  Return (mkSelf args device steps train_dataloader eval_dataloader model
            output_mode num_labels n_gpu).

End Constructor.

End Construction.

(** A small instance of what the constructor leaves opaque: a file system
    in which every file holds the same two lines, a tokenizer that makes one
    token of a text and gives every token the id 7, and loaders that are the
    lists of features. *)
Definition tiny_files : Files :=
  mkFiles (fun dir file => dir ++ "/" ++ file)%string
    (fun _ => Return [["gj04"; "1"; ""; "Our friends will not buy this analysis."];
                      ["gj04"; "0"; "*"; "They drank the pub."]]%string).

Definition tiny_args (task_name : string) (do_train : bool) : Construction.Args :=
  Construction.mkArgs (-1) true false 2 32 8 42 do_train true task_name
    "glue_data" "bert-base-uncased" true 8 3.

Definition tiny_init (args : Construction.Args)
  : Outcome (@Construction.Self unit (list InputFeatures) unit) :=
  Construction.__init__ (Tokenizer := unit) ascii_lower tiny_files
    (fun _ => None)
    (fun _ => Return (tt, 0%Z))
    (fun _ _ => Return tt)
    (fun _ _ => Return (Some tt))
    (fun _ s => [s])
    (fun _ tokens => Return (map (fun _ => 7%Z) tokens))
    (fun n batch steps epochs =>
       Return (inject_Z (Z.of_nat n / batch / steps) * epochs)%Q)
    (Return 1%Z)
    (fun features _ _ _ => Return features)
    (fun features _ => Return features)
    (fun _ _ _ _ => Return tt)
    args.

(** ** The first version of the pruning engine *)

(** [l.sort(descending=False)], the indices: the positions by ascending
    value. *)
Definition argsort (l : list Q) : list nat :=
  sort_by (key_of l) (seq 0 (length l)).

(** [m[r, c] = v] *)
Definition tensor_setitem (m : Tensor Q) (r c : nat) (v : Q) : Result (Tensor Q) :=
  if (r <? size0 m) && (c <? size1 m)
  then Ok (mkTensor (size0 m) (size1 m)
             (replace_nth (storage m) (r * size1 m + c) v))
  else Raise IndexError.

(** [range(n)] *)
Definition py_range (n : Z) : list nat := seq 0 (Z.to_nat n).

(** [sparse(w, m, ratio)]: writes zeros into the mask [m], which is the
    value returned here.  In [int(d1*d2*ratio)] the integer [d1*d2] is
    turned into a double and the product is rounded to a double. *)
Definition sparse (w m : Tensor Q) (ratio : Q) : Result (Tensor Q) :=
  let d1 := size0 w in
  let d2 := size1 w in
  let w1 := storage w in                (* w.detach().view(-1) *)
  let id := argsort w1 in
  f <- py_float (d1 * d2) ;;
  n <- py_int_mul f ratio ;;
  for_each (py_range n) (fun i m =>
      idi <- py_getitem id i ;;
      tensor_setitem m (idi / d2) (idi mod d2) 0%Q)
    m.

(** The number of cells that [sparse] asks for, [int(d1*d2*ratio)]. *)
Definition sparse_count (w : Tensor Q) (ratio : Q) : Result Z :=
  f <- py_float (numel w) ;; py_int_mul f ratio.

(** ** The plan of a trial *)

(** The parameters of a trial, as [nni.get_next_parameter()] returns them:
    one dict, seen here as the rates under the keys ["pr<i>"] and the type
    strings under the keys ["pt<i>"]. *)
Record Params : Type := mkParams {
  rate_params : dict string Q;
  type_params : dict string string
}.

(** The reading of the plan in [main]: ["vanilla"] and 0.5 for the slots
    that the parameters do not name. *)
Definition read_plan (params : Params) : Result (list string * list Q) :=
  let prune_type := repeat "vanilla"%string 48 in
  let prune_rate := repeat (1 # 2)%Q 48 in
  for_each (py_range 48) (fun i '(prune_type, prune_rate) =>
      prune_rate <-
        match dict_get String.eqb (rate_params params) ("pr" ++ py_str i)%string with
        | Some v => py_setitem prune_rate i v
        | None => Ok prune_rate
        end ;;
      prune_type <-
        match dict_get String.eqb (type_params params) ("pt" ++ py_str i)%string with
        | Some v => py_setitem prune_type i v
        | None => Ok prune_type
        end ;;
      Ok (prune_type, prune_rate))
    (prune_type, prune_rate).

(** [main] from the parameters to the plan that [eval_after_train]
    receives. *)
Definition balanced_plan (params : Params) : Result (list string * list Q) :=
  '(prune_type, prune_rate) <- read_plan params ;;
  prune_rate <- balance prune_rate (3 # 10) ;;
  Ok (prune_type, prune_rate).

(** The entry of slot [i] after the reading. *)
Definition rate_read (params : Params) (i : nat) : Q :=
  match dict_get String.eqb (rate_params params) ("pr" ++ py_str i)%string with
  | Some v => v
  | None => 1 # 2
  end.

Definition type_read (params : Params) (i : nat) : string :=
  match dict_get String.eqb (type_params params) ("pt" ++ py_str i)%string with
  | Some v => v
  | None => "vanilla"%string
  end.

(** Whether [x] is a double. *)
Definition is_f64 (x : Q) : bool :=
  match f64 x with
  | Some y => Qeq_bool y x
  | None => false
  end.

(** The numbers that [balance] computes before it multiplies by the target:
    the 48 products [prune_rate[i] * whole_param[i % 4]], the 48 values of
    [rate_all] in the first loop, the mean [rate_all / rate_one] and the 48
    quotients [prune_rate[i] / rate_all]. *)
Definition balance_steps (prune_rate : list Q) : list Q :=
  let prods :=
    map (fun i => nth i prune_rate 0 * inject_Z (slot_weight i))%Q (seq 0 48) in
  let sums := map (fun n => fold_left Qplus (firstn (S n) prods) 0%Q) (seq 0 48) in
  let mean := weighted_mean prune_rate in
  let quots := map (fun i => nth i prune_rate 0 / mean)%Q (seq 0 48) in
  prods ++ sums ++ [mean] ++ quots.

(** * Properties *)

(** ** Ranking: what [topk_col] guarantees *)

Section Ranking.

Variable key : nat -> Q.

Let le_key (a b : nat) : Prop := (key a <= key b)%Q.

Lemma insert_by_perm (i : nat) (l : list nat) :
  Permutation (insert_by key i l) (i :: l).
Proof.
  induction l as [|j l IH]; simpl.
  - apply Permutation_refl.
  - destruct (Qle_bool (key i) (key j)).
    + apply Permutation_refl.
    + eapply perm_trans; [apply perm_skip, IH | apply perm_swap].
Qed.

Lemma sort_by_perm (l : list nat) : Permutation (sort_by key l) l.
Proof.
  induction l as [|i l IH]; simpl.
  - constructor.
  - eapply perm_trans; [apply insert_by_perm | now apply perm_skip].
Qed.

Lemma insert_by_sorted (i : nat) (l : list nat) :
  StronglySorted le_key l -> StronglySorted le_key (insert_by key i l).
Proof.
  induction 1 as [|j l Hs IH Hall]; simpl.
  - repeat constructor.
  - destruct (Qle_bool (key i) (key j)) eqn:E.
    + apply Qle_bool_iff in E.
      constructor; [now constructor|].
      constructor; [exact E|].
      rewrite Forall_forall in Hall |- *. intros b Hb.
      unfold le_key. eapply Qle_trans; [exact E | now apply Hall].
    + assert (Hji : (key j <= key i)%Q).
      { destruct (Qlt_le_dec (key j) (key i)) as [Hlt|Hle].
        - now apply Qlt_le_weak.
        - apply Qle_bool_iff in Hle. congruence. }
      constructor; [exact IH|].
      rewrite Forall_forall in Hall |- *. intros b Hb.
      apply (Permutation_in _ (insert_by_perm i l)) in Hb.
      destruct Hb as [<-|Hb]; [exact Hji | now apply Hall].
Qed.

Lemma sort_by_sorted (l : list nat) : StronglySorted le_key (sort_by key l).
Proof.
  induction l as [|i l IH]; simpl.
  - constructor.
  - now apply insert_by_sorted.
Qed.

Lemma sorted_app_le (l1 l2 : list nat) :
  StronglySorted le_key (l1 ++ l2) ->
  forall a b, In a l1 -> In b l2 -> (key a <= key b)%Q.
Proof.
  induction l1 as [|x l1 IH]; simpl; intros Hs a b Ha Hb.
  - contradiction.
  - inversion Hs as [|? ? Hs' Hall]; subst.
    destruct Ha as [<-|Ha].
    + rewrite Forall_forall in Hall. apply Hall, in_or_app. now right.
    + now apply IH.
Qed.

End Ranking.

Lemma topk_col_length (k : nat) (col : list Q) :
  k <= length col -> length (topk_col k col) = k.
Proof.
  intros Hk. unfold topk_col. rewrite length_firstn.
  rewrite (Permutation_length (sort_by_perm _ _)), length_seq. lia.
Qed.

Lemma topk_col_NoDup (k : nat) (col : list Q) : NoDup (topk_col k col).
Proof.
  unfold topk_col.
  set (s := sort_by (key_of col) (seq 0 (length col))).
  assert (Hnd : NoDup s).
  { eapply Permutation_NoDup; [apply Permutation_sym, sort_by_perm|].
    apply seq_NoDup. }
  rewrite <- (firstn_skipn k s) in Hnd.
  now apply NoDup_app_remove_r in Hnd.
Qed.

Lemma topk_col_bound (k : nat) (col : list Q) (i : nat) :
  In i (topk_col k col) -> i < length col.
Proof.
  unfold topk_col. intros Hi.
  assert (Hs : In i (sort_by (key_of col) (seq 0 (length col)))).
  { rewrite <- (firstn_skipn k). apply in_or_app. now left. }
  apply (Permutation_in _ (sort_by_perm _ _)) in Hs.
  apply in_seq in Hs. lia.
Qed.

(** No index left out ranks strictly below a selected one. *)
Lemma topk_col_smallest (k : nat) (col : list Q) (i j : nat) :
  In i (topk_col k col) -> j < length col -> ~ In j (topk_col k col) ->
  (nth i col 0 <= nth j col 0)%Q.
Proof.
  unfold topk_col.
  set (s := sort_by (key_of col) (seq 0 (length col))).
  intros Hi Hj Hnj.
  assert (Hs : In j s).
  { apply (Permutation_in _ (Permutation_sym (sort_by_perm _ _))).
    apply in_seq. lia. }
  rewrite <- (firstn_skipn k s) in Hs.
  apply in_app_or in Hs. destruct Hs as [Hs|Hs]; [contradiction|].
  apply (sorted_app_le (key_of col) (firstn k s) (skipn k s)); trivial.
  rewrite firstn_skipn. apply sort_by_sorted.
Qed.

(** ** Indexing *)

Lemma nth_map_seq {A} (f : nat -> A) (n p : nat) (d : A) :
  p < n -> nth p (map f (seq 0 n)) d = f p.
Proof.
  intros Hp.
  rewrite (nth_indep _ d (f 0)) by now rewrite length_map, length_seq.
  rewrite (map_nth f (seq 0 n) 0 p), seq_nth by exact Hp. reflexivity.
Qed.

Lemma map_nth_seq {A} (l : list A) (d : A) :
  map (fun i => nth i l d) (seq 0 (length l)) = l.
Proof.
  apply nth_ext with (d := d) (d' := d).
  - now rewrite length_map, length_seq.
  - intros n Hn. rewrite length_map, length_seq in Hn.
    now rewrite nth_map_seq.
Qed.

Lemma cell_div (i j d2 : nat) : j < d2 -> (i * d2 + j) / d2 = i.
Proof.
  intros Hj. rewrite Nat.div_add_l by lia. rewrite Nat.div_small by exact Hj. lia.
Qed.

Lemma cell_mod (i j d2 : nat) : j < d2 -> (i * d2 + j) mod d2 = j.
Proof.
  intros Hj. rewrite Nat.add_comm, Nat.Div0.mod_add. now apply Nat.mod_small.
Qed.

Lemma cell_lt (i j d1 d2 : nat) : i < d1 -> j < d2 -> i * d2 + j < d1 * d2.
Proof. nia. Qed.

Lemma get_tabulate {A} (d : A) (d1 d2 : nat) (f : nat -> nat -> A) (i j : nat) :
  i < d1 -> j < d2 -> get d (tabulate d1 d2 f) i j = f i j.
Proof.
  intros Hi Hj. unfold get, tabulate. simpl.
  rewrite nth_map_seq by now apply cell_lt.
  now rewrite cell_div, cell_mod.
Qed.

Lemma tabulate_wf {A} (d1 d2 : nat) (f : nat -> nat -> A) : wf (tabulate d1 d2 f).
Proof. unfold wf, numel, tabulate. simpl. now rewrite length_map, length_seq. Qed.

Lemma tabulate_ext {A} (d1 d2 : nat) (f g : nat -> nat -> A) :
  (forall i j, i < d1 -> j < d2 -> f i j = g i j) ->
  tabulate d1 d2 f = tabulate d1 d2 g.
Proof.
  intros H. unfold tabulate. f_equal. apply map_ext_in.
  intros p Hp. apply in_seq in Hp.
  assert (0 < d2) by (destruct d2; lia).
  apply H.
  - apply Nat.Div0.div_lt_upper_bound. lia.
  - apply Nat.mod_upper_bound. lia.
Qed.

(** ** [scatter_] of zeros at the indices of [topk] *)

Lemma mem_In (r : nat) (S : list nat) : mem r S = true <-> In r S.
Proof.
  unfold mem. rewrite existsb_exists. split.
  - intros [x [Hx E]]. apply Nat.eqb_eq in E. now subst.
  - intros H. exists r. split; [exact H | apply Nat.eqb_refl].
Qed.

Lemma mem_false (r : nat) (S : list nat) : mem r S = false <-> ~ In r S.
Proof.
  rewrite <- mem_In. destruct (mem r S); split; congruence.
Qed.

Lemma column_length (t : Tensor Q) (j : nat) : length (column t j) = size0 t.
Proof. unfold column. now rewrite length_map, length_seq. Qed.

Lemma find_cell (S : list nat) (g : nat -> nat) (h : nat -> Q) (r : nat) (x : Q) :
  (forall i, i < length S -> g i = nth i S 0) ->
  (forall i, h i = 0%Q) ->
  match find (fun i => g i =? r) (rev (seq 0 (length S))) with
  | Some i => h i
  | None => x
  end = if mem r S then 0%Q else x.
Proof.
  intros Hg Hh.
  destruct (find _ _) as [i|] eqn:E.
  - apply find_some in E. destruct E as [Hi E].
    apply in_rev, in_seq in Hi. apply Nat.eqb_eq in E.
    assert (Hm : mem r S = true).
    { apply mem_In. rewrite <- E, Hg by lia. apply nth_In. lia. }
    now rewrite Hm, Hh.
  - assert (Hm : mem r S = false).
    { apply mem_false. intros Hin.
      destruct (In_nth _ _ 0 Hin) as [i [Hi Hn]].
      assert (Hf := find_none _ _ E i).
      rewrite <- in_rev, in_seq in Hf.
      specialize (Hf ltac:(lia)). simpl in Hf.
      apply Nat.eqb_neq in Hf. rewrite Hg in Hf by exact Hi. congruence. }
    now rewrite Hm.
Qed.

Lemma getQ_zeros (n d2 i c : nat) :
  getQ (mkTensor n d2 (repeat 0%Q (n * d2))) i c = 0%Q.
Proof. unfold getQ, get. simpl. apply nth_repeat. Qed.

(** The three calls [topk], [FloatTensor(k, d2).fill_(0)], [scatter_] that
    end each pruning function, for a ranking tensor [t], an admissible [k]
    and any [self] shaped like [t]: the indices are computed once and can
    be applied to several tensors. *)
Lemma scatter_topk (t : Tensor Q) (k : Z) :
  (0 <= k <= Z.of_nat (size0 t))%Z ->
  exists bottom_k indices,
    topk t k = Ok (bottom_k, indices) /\
    forall self : Tensor Q,
      size0 self = size0 t -> size1 self = size1 t ->
      exists src,
        zeros k (size1 self) = Ok src /\
        scatter_ self indices src
        = Ok (zero_sel (fun c => topk_col (Z.to_nat k) (column t c)) self).
Proof.
  intros Hk. unfold topk.
  replace ((k <? 0)%Z || (Z.of_nat (size0 t) <? k)%Z) with false
    by (symmetry; apply orb_false_iff; split; [apply Z.ltb_ge | apply Z.ltb_ge]; lia).
  do 2 eexists. split; [reflexivity|].
  intros self H0 H1. unfold zeros.
  replace (k <? 0)%Z with false by (symmetry; apply Z.ltb_ge; lia).
  eexists. split; [reflexivity|].
  unfold scatter_.
  set (kn := Z.to_nat k). rewrite <- H1. set (d2 := size1 self).
  assert (Hkn : kn <= size0 self) by (unfold kn; lia).
  set (cols := map (fun j => topk_col kn (column t j)) (seq 0 d2)).
  assert (Hcol : forall c, c < d2 -> nth c cols [] = topk_col kn (column t c)).
  { intros c Hc. unfold cols. now rewrite nth_map_seq. }
  assert (Hlen : forall c, length (topk_col kn (column t c)) = kn).
  { intros c. apply topk_col_length. rewrite column_length. lia. }
  cbn [size0 size1 tabulate storage].
  rewrite !Nat.leb_refl. cbn [andb negb].
  match goal with |- context [forallb ?f ?l] =>
    assert (Hall : forallb f l = true) end.
  { apply forallb_forall. intros x Hx. apply in_map_iff in Hx.
    destruct Hx as [p [<- Hp]]. apply in_seq in Hp.
    assert (0 < d2) by (destruct d2; lia).
    assert (Hc : p mod d2 < d2) by (apply Nat.mod_upper_bound; lia).
    assert (Hi : p / d2 < kn) by (apply Nat.Div0.div_lt_upper_bound; lia).
    rewrite Hcol by exact Hc. apply Nat.ltb_lt.
    rewrite H0, <- (column_length t (p mod d2)).
    apply (topk_col_bound kn). apply nth_In. now rewrite Hlen. }
  rewrite Hall. cbn [negb]. f_equal. unfold zero_sel. fold d2.
  apply tabulate_ext. intros r c Hr Hc.
  replace (c <? d2) with true by (symmetry; now apply Nat.ltb_lt).
  rewrite <- (Hlen c) at 1.
  apply find_cell.
  - intros i Hi. rewrite Hlen in Hi. unfold getI.
    rewrite (get_tabulate 0 kn d2) by assumption. now rewrite Hcol.
  - intros i. apply getQ_zeros.
Qed.

(** Closed comparisons of rationals. *)
Ltac qcmp := unfold Qlt, Qle; simpl; lia.

(** ** Rounding to a double *)

Lemma pow2_pos (e : Z) : (0 < 2 ^ e)%Q.
Proof. apply Qpower_0_lt. reflexivity. Qed.

Lemma round_half_even_floor (x : Q) :
  (Qfloor x <= round_half_even x <= Qfloor x + 1)%Z.
Proof.
  unfold round_half_even.
  destruct (x - inject_Z (Qfloor x) ?= 1 # 2)%Q; [destruct (Z.even _)| |]; lia.
Qed.

Lemma round_half_even_int (n : Z) : round_half_even (inject_Z n) = n.
Proof.
  unfold round_half_even. rewrite Qfloor_Z.
  assert (E : (inject_Z n - inject_Z n ?= 1 # 2)%Q = Lt).
  { apply Qlt_alt. setoid_replace (inject_Z n - inject_Z n)%Q with 0%Q by ring.
    reflexivity. }
  now rewrite E.
Qed.

(** Rounding does not cross an integer. *)
Lemma round_half_even_le (x : Q) (n : Z) :
  (x <= inject_Z n)%Q -> (round_half_even x <= n)%Z.
Proof.
  intros H.
  assert (Hf : (Qfloor x <= n)%Z).
  { rewrite <- (Qfloor_Z n). now apply Qfloor_resp_le. }
  destruct (Z.eq_dec (Qfloor x) n) as [E|E].
  - assert (Hx : (x == inject_Z n)%Q).
    { apply Qle_antisym; [exact H|]. rewrite <- E. apply Qfloor_le. }
    unfold round_half_even. rewrite E.
    assert (C : (x - inject_Z n ?= 1 # 2)%Q = Lt).
    { apply Qlt_alt. rewrite Hx.
      setoid_replace (inject_Z n - inject_Z n)%Q with 0%Q by ring. reflexivity. }
    rewrite C. lia.
  - pose proof (round_half_even_floor x). lia.
Qed.

Lemma round_half_even_ge (x : Q) (n : Z) :
  (inject_Z n <= x)%Q -> (n <= round_half_even x)%Z.
Proof.
  intros H.
  assert (Hf : (n <= Qfloor x)%Z).
  { rewrite <- (Qfloor_Z n). now apply Qfloor_resp_le. }
  pose proof (round_half_even_floor x). lia.
Qed.

Lemma ilog2_lower (x : Q) : (0 < x)%Q -> (2 ^ ilog2 x <= x)%Q.
Proof.
  intros Hx. unfold ilog2.
  set (a := Z.log2 (Qnum x)). set (b := Z.log2 (Z.pos (Qden x))).
  destruct (Qle_bool (2 ^ (a - b)) x) eqn:E.
  - now apply Qle_bool_iff.
  - destruct x as [n d]. unfold Qlt in Hx. cbn [Qnum Qden] in *.
    assert (Hn : (0 < n)%Z) by lia.
    assert (Ha : (2 ^ a <= n)%Z) by (apply Z.log2_spec; exact Hn).
    assert (Hb : (Z.pos d < 2 ^ (b + 1))%Z).
    { replace (b + 1)%Z with (Z.succ b) by lia. apply Z.log2_spec. lia. }
    assert (Ha0 : (0 <= a)%Z) by apply Z.log2_nonneg.
    assert (Hb0 : (0 <= b)%Z) by apply Z.log2_nonneg.
    replace (a - b - 1)%Z with (a - (b + 1))%Z by lia.
    rewrite Qpower_minus by discriminate.
    rewrite <- !(Zpower_Qpower 2) by lia.
    apply Qle_shift_div_r.
    + change 0%Q with (inject_Z 0). rewrite <- Zlt_Qlt. lia.
    + unfold Qle, Qmult, inject_Z. cbn [Qnum Qden].
      rewrite !Z.mul_1_r. nia.
Qed.

Lemma Qabs_nonneg_eq (x : Q) : (0 <= x)%Q -> Qabs x = x.
Proof.
  destruct x as [n d]. unfold Qle, Qabs. cbn [Qnum Qden]. intros H.
  f_equal. apply Z.abs_eq. lia.
Qed.

Lemma ulp_exp_small (x : Q) :
  (0 < x)%Q -> (x < 2 ^ 53)%Q -> (ulp_exp x <= 0)%Z.
Proof.
  intros H0 H1. unfold ulp_exp.
  rewrite (Qabs_nonneg_eq x) by (apply Qlt_le_weak; exact H0).
  assert (Hl : (ilog2 x < 53)%Z).
  { apply (Qpower_lt_compat_l_inv 2); [|reflexivity].
    eapply Qle_lt_trans; [apply ilog2_lower; exact H0 | exact H1]. }
  lia.
Qed.

(** A positive number at most the integer [n], itself below 2^53, is
    rounded to a number between 0 and [n]. *)
Lemma f64_round_bounds (x : Q) (n : Z) :
  (0 <= x)%Q -> (x <= inject_Z n)%Q -> (n < 2 ^ 53)%Z ->
  (0 <= f64_round x <= inject_Z n)%Q.
Proof.
  intros H0 Hn Hb. unfold f64_round.
  destruct (Qeq_bool x 0) eqn:E.
  - split; [apply Qle_refl | now apply Qle_trans with x].
  - assert (Hx : (0 < x)%Q).
    { apply Qle_lteq in H0. destruct H0 as [H0|H0]; [exact H0|].
      apply Qeq_bool_neq in E. exfalso. apply E. now symmetry. }
    assert (Hlt : (x < 2 ^ 53)%Q).
    { eapply Qle_lt_trans; [exact Hn|].
      rewrite <- (Zpower_Qpower 2) by lia. rewrite <- Zlt_Qlt. exact Hb. }
    pose proof (ulp_exp_small x Hx Hlt) as He.
    set (e := ulp_exp x) in *. cbv zeta.
    pose proof (pow2_pos e) as Hp.
    assert (Hm : (2 ^ e * 2 ^ (- e) == 1)%Q).
    { rewrite <- Qpower_plus by discriminate.
      replace (e + - e)%Z with 0%Z by lia. reflexivity. }
    assert (Hi : (2 ^ (- e) == inject_Z (2 ^ (- e)))%Q)
      by (rewrite (Zpower_Qpower 2) by lia; reflexivity).
    assert (Hy : (x / 2 ^ e == x * inject_Z (2 ^ (- e)))%Q).
    { rewrite <- Hi. rewrite Qpower_opp. reflexivity. }
    assert (Hz : (0 < 2 ^ (- e))%Z) by (apply Z.pow_pos_nonneg; lia).
    split.
    + apply Qmult_le_0_compat; [|apply Qlt_le_weak; exact Hp].
      change 0%Q with (inject_Z 0). rewrite <- Zle_Qle.
      apply round_half_even_ge. rewrite Hy.
      apply Qmult_le_0_compat; [exact H0|].
      change 0%Q with (inject_Z 0). rewrite <- Zle_Qle. lia.
    + assert (Hr : (round_half_even (x / 2 ^ e) <= n * 2 ^ (- e))%Z).
      { apply round_half_even_le. rewrite Hy, inject_Z_mult.
        apply Qmult_le_compat_r; [exact Hn|].
        change 0%Q with (inject_Z 0). rewrite <- Zle_Qle. lia. }
      apply Qle_trans with (inject_Z (n * 2 ^ (- e)) * 2 ^ e)%Q.
      * apply Qmult_le_compat_r; [|apply Qlt_le_weak; exact Hp].
        rewrite <- Zle_Qle. exact Hr.
      * rewrite inject_Z_mult, <- Hi, <- Qmult_assoc, (Qmult_comm (2 ^ (- e))), Hm.
        rewrite Qmult_1_r. apply Qle_refl.
Qed.

(** The integers below 2^53 are doubles. *)
Lemma f64_round_int (n : Z) :
  (0 <= n < 2 ^ 53)%Z -> (f64_round (inject_Z n) == inject_Z n)%Q.
Proof.
  intros [H0 Hb]. unfold f64_round.
  destruct (Qeq_bool (inject_Z n) 0) eqn:E.
  - apply Qeq_bool_eq in E. now symmetry.
  - assert (Hx : (0 < inject_Z n)%Q).
    { apply Qeq_bool_neq in E. change 0%Q with (inject_Z 0).
      rewrite <- Zlt_Qlt. destruct (Z.eq_dec n 0) as [->|]; [|lia].
      exfalso. apply E. reflexivity. }
    assert (Hlt : (inject_Z n < 2 ^ 53)%Q).
    { rewrite <- (Zpower_Qpower 2) by lia. rewrite <- Zlt_Qlt. exact Hb. }
    pose proof (ulp_exp_small _ Hx Hlt) as He.
    set (e := ulp_exp (inject_Z n)) in *. cbv zeta.
    assert (Hm : (2 ^ (- e) * 2 ^ e == 1)%Q).
    { rewrite <- Qpower_plus by discriminate.
      replace (- e + e)%Z with 0%Z by lia. reflexivity. }
    assert (Hi : (2 ^ (- e) == inject_Z (2 ^ (- e)))%Q)
      by (rewrite (Zpower_Qpower 2) by lia; reflexivity).
    assert (Hy : (inject_Z n / 2 ^ e == inject_Z (n * 2 ^ (- e)))%Q).
    { rewrite inject_Z_mult, <- Hi, Qpower_opp. reflexivity. }
    assert (Hr : round_half_even (inject_Z n / 2 ^ e) = (n * 2 ^ (- e))%Z).
    { unfold round_half_even.
      assert (Hf : Qfloor (inject_Z n / 2 ^ e) = (n * 2 ^ (- e))%Z)
        by (rewrite Hy; apply Qfloor_Z).
      rewrite Hf.
      assert (C : (inject_Z n / 2 ^ e - inject_Z (n * 2 ^ (- e)) ?= 1 # 2)%Q = Lt).
      { apply Qlt_alt. rewrite Hy.
        setoid_replace (inject_Z (n * 2 ^ (- e)) - inject_Z (n * 2 ^ (- e)))%Q
          with 0%Q by ring.
        reflexivity. }
      now rewrite C. }
    rewrite Hr, inject_Z_mult, <- Hi, <- Qmult_assoc, Hm. apply Qmult_1_r.
Qed.

Lemma f64_in_range (x : Q) (n : Z) :
  (0 <= x)%Q -> (x <= inject_Z n)%Q -> (n < 2 ^ 53)%Z ->
  f64 x = Some (f64_round x).
Proof.
  intros H0 Hn Hb. unfold f64. cbv zeta.
  destruct (f64_round_bounds x n H0 Hn Hb) as [Hlo Hhi].
  destruct (Qle_bool (2 ^ 1024) (Qabs (f64_round x))) eqn:E; [|reflexivity].
  apply Qle_bool_iff in E. rewrite Qabs_pos in E by exact Hlo.
  exfalso. apply (Qle_not_lt _ _ E).
  eapply Qle_lt_trans; [exact Hhi|].
  apply Qlt_trans with (2 ^ 53)%Q.
  - rewrite <- (Zpower_Qpower 2) by lia. rewrite <- Zlt_Qlt. exact Hb.
  - apply Qpower_lt_compat_l; [lia | reflexivity].
Qed.

Lemma ilog2_upper (x : Q) : (0 < x)%Q -> (x < 2 ^ (ilog2 x + 1))%Q.
Proof.
  intros Hx. unfold ilog2.
  set (a := Z.log2 (Qnum x)). set (b := Z.log2 (Z.pos (Qden x))).
  destruct (Qle_bool (2 ^ (a - b)) x) eqn:E.
  - destruct x as [n d]. unfold Qlt in Hx. cbn [Qnum Qden] in *.
    assert (Hn : (0 < n)%Z) by lia.
    assert (Ha : (n < 2 ^ (a + 1))%Z).
    { replace (a + 1)%Z with (Z.succ a) by lia. apply Z.log2_spec. exact Hn. }
    assert (Hb : (2 ^ b <= Z.pos d)%Z) by (apply Z.log2_spec; lia).
    assert (Ha0 : (0 <= a)%Z) by apply Z.log2_nonneg.
    assert (Hb0 : (0 <= b)%Z) by apply Z.log2_nonneg.
    replace (a - b + 1)%Z with (a + 1 - b)%Z by lia.
    rewrite Qpower_minus by discriminate.
    rewrite <- !(Zpower_Qpower 2) by lia.
    apply Qlt_shift_div_l.
    + change 0%Q with (inject_Z 0). rewrite <- Zlt_Qlt.
      apply Z.pow_pos_nonneg; lia.
    + unfold Qlt, Qmult, inject_Z. cbn [Qnum Qden].
      rewrite !Z.mul_1_r.
      assert (Hp : (0 < 2 ^ b)%Z) by (apply Z.pow_pos_nonneg; lia).
      nia.
  - replace (a - b - 1 + 1)%Z with (a - b)%Z by lia.
    apply Qnot_le_lt. intros H. apply Qle_bool_iff in H. congruence.
Qed.

Lemma ilog2_comp (x y : Q) : (0 < x)%Q -> (x == y)%Q -> ilog2 x = ilog2 y.
Proof.
  intros Hx E.
  assert (Hy : (0 < y)%Q) by now rewrite <- E.
  pose proof (ilog2_lower x Hx) as Lx. pose proof (ilog2_upper x Hx) as Ux.
  pose proof (ilog2_lower y Hy) as Ly. pose proof (ilog2_upper y Hy) as Uy.
  assert (Exy : (x <= y)%Q) by (rewrite E; apply Qle_refl).
  assert (Eyx : (y <= x)%Q) by (rewrite E; apply Qle_refl).
  assert (H1 : (ilog2 x < ilog2 y + 1)%Z).
  { apply (Qpower_lt_compat_l_inv 2); [|reflexivity].
    eapply Qle_lt_trans; [exact Lx|].
    eapply Qle_lt_trans; [exact Exy | exact Uy]. }
  assert (H2 : (ilog2 y < ilog2 x + 1)%Z).
  { apply (Qpower_lt_compat_l_inv 2); [|reflexivity].
    eapply Qle_lt_trans; [exact Ly|].
    eapply Qle_lt_trans; [exact Eyx | exact Ux]. }
  lia.
Qed.

Lemma round_half_even_comp (x y : Q) :
  (x == y)%Q -> round_half_even x = round_half_even y.
Proof.
  intros E. unfold round_half_even.
  rewrite (Qfloor_comp x y E).
  assert (C : (x - inject_Z (Qfloor y) ?= 1 # 2)%Q
              = (y - inject_Z (Qfloor y) ?= 1 # 2)%Q)
    by (now rewrite E).
  now rewrite C.
Qed.

(** Rounding depends on the number, not on the fraction that writes it. *)
Lemma f64_round_comp (x y : Q) : (x == y)%Q -> (f64_round x == f64_round y)%Q.
Proof.
  intros E. unfold f64_round.
  destruct (Qeq_bool x 0) eqn:Ex.
  - apply Qeq_bool_eq in Ex.
    assert (Ey : Qeq_bool y 0 = true)
      by (apply Qeq_bool_iff; now rewrite <- E).
    now rewrite Ey.
  - assert (Ey : Qeq_bool y 0 = false).
    { destruct (Qeq_bool y 0) eqn:F; [|reflexivity].
      apply Qeq_bool_eq in F. apply Qeq_bool_neq in Ex.
      exfalso. apply Ex. now rewrite E. }
    rewrite Ey. cbv zeta.
    assert (He : ulp_exp x = ulp_exp y).
    { unfold ulp_exp. f_equal. f_equal. apply ilog2_comp.
      - apply Qeq_bool_neq in Ex. clear - Ex.
        destruct x as [n d]. unfold Qeq in Ex. unfold Qlt, Qabs.
        cbn [Qnum Qden] in *. lia.
      - now rewrite E. }
    rewrite He.
    rewrite (round_half_even_comp (x / 2 ^ ulp_exp y) (y / 2 ^ ulp_exp y))
      by now rewrite E.
    reflexivity.
Qed.

(** Rounding keeps the sign. *)
Lemma f64_round_nonneg (x : Q) : (0 <= x)%Q -> (0 <= f64_round x)%Q.
Proof.
  intros H. unfold f64_round.
  destruct (Qeq_bool x 0); [apply Qle_refl|]. cbv zeta.
  pose proof (pow2_pos (ulp_exp x)) as Hp.
  apply Qmult_le_0_compat; [|apply Qlt_le_weak; exact Hp].
  change 0%Q with (inject_Z 0). rewrite <- Zle_Qle.
  apply round_half_even_ge. change (inject_Z 0) with 0%Q.
  apply Qle_shift_div_l; [exact Hp|]. now rewrite Qmult_0_l.
Qed.

Lemma f64_round_nonpos (x : Q) : (x <= 0)%Q -> (f64_round x <= 0)%Q.
Proof.
  intros H. unfold f64_round.
  destruct (Qeq_bool x 0); [apply Qle_refl|]. cbv zeta.
  pose proof (pow2_pos (ulp_exp x)) as Hp.
  assert (Hr : (round_half_even (x / 2 ^ ulp_exp x) <= 0)%Z).
  { apply round_half_even_le. change (inject_Z 0) with 0%Q.
    apply Qle_shift_div_r; [exact Hp|]. now rewrite Qmult_0_l. }
  rewrite <- (Qmult_0_l (2 ^ ulp_exp x)).
  apply Qmult_le_compat_r; [|apply Qlt_le_weak; exact Hp].
  change 0%Q with (inject_Z 0). rewrite <- Zle_Qle. exact Hr.
Qed.

(** ** The number of pruned rows *)

Lemma py_int_floor (x : Q) : (0 <= x)%Q -> py_int x = Qfloor x.
Proof.
  destruct x as [n d]. unfold Qle, py_int, Qfloor. simpl. intros H.
  apply Z.quot_div_nonneg; lia.
Qed.

(** [1 - r] stays between 0 and 1. *)
Lemma py_sub_unit (r : Q) :
  (0 <= r)%Q -> (r <= 1)%Q -> (0 <= py_sub 1 r <= 1)%Q.
Proof.
  intros H0 H1. unfold py_sub. apply (f64_round_bounds (1 - r) 1).
  - Lqa.lra.
  - change (inject_Z 1) with 1%Q. Lqa.lra.
  - reflexivity.
Qed.

(** The size of a tensor below 2^53 is a double. *)
Lemma py_float_exact (d : nat) :
  (Z.of_nat d < 2 ^ 53)%Z ->
  exists f, py_float d = Ok f /\ (f == inject_Z (Z.of_nat d))%Q.
Proof.
  intros Hd. unfold py_float.
  rewrite (f64_in_range _ (Z.of_nat d)).
  - eexists. split; [reflexivity|]. apply f64_round_int. lia.
  - change 0%Q with (inject_Z 0). rewrite <- Zle_Qle. lia.
  - apply Qle_refl.
  - exact Hd.
Qed.

(** A product between 0 and an integer below 2^53 is rounded, and then
    truncated, to an integer in that range. *)
Lemma py_int_mul_in_range (x y : Q) (n : Z) :
  (0 <= x * y)%Q -> (x * y <= inject_Z n)%Q -> (n < 2 ^ 53)%Z ->
  exists k : nat, py_int_mul x y = Ok (Z.of_nat k) /\ (Z.of_nat k <= n)%Z.
Proof.
  intros Hlo Hhi Hd.
  unfold py_int_mul. rewrite (f64_in_range _ _ Hlo Hhi Hd).
  destruct (f64_round_bounds _ _ Hlo Hhi Hd) as [Rlo Rhi].
  rewrite py_int_floor by exact Rlo.
  assert (Flo : (0 <= Qfloor (f64_round (x * y)))%Z)
    by (change 0%Z with (Qfloor 0); now apply Qfloor_resp_le).
  assert (Fhi : (Qfloor (f64_round (x * y)) <= n)%Z)
    by (rewrite <- (Qfloor_Z n); now apply Qfloor_resp_le).
  exists (Z.to_nat (Qfloor (f64_round (x * y)))).
  split; [f_equal|]; lia.
Qed.

(** A product that is not positive gives an integer that is not
    positive. *)
Lemma py_int_mul_nonpos (x y : Q) (k : Z) :
  (x * y <= 0)%Q -> py_int_mul x y = Ok k -> (k <= 0)%Z.
Proof.
  intros H. unfold py_int_mul.
  destruct (f64 (x * y)) as [p|] eqn:E; [|discriminate].
  intros Hk. injection Hk as <-.
  assert (Hp : (p <= 0)%Q).
  { unfold f64 in E. destruct (Qle_bool _ _); [discriminate E|].
    injection E as <-. now apply f64_round_nonpos. }
  destruct p as [a b]. unfold Qle in Hp. unfold py_int. cbn [Qnum Qden] in *.
  assert (Hq : (0 <= Z.quot (- a) (Z.pos b))%Z) by (apply Z.quot_pos; lia).
  rewrite Z.quot_opp_l in Hq by lia. lia.
Qed.

Lemma py_float_nonneg (n : nat) (f : Q) : py_float n = Ok f -> (0 <= f)%Q.
Proof.
  unfold py_float, f64.
  destruct (Qle_bool _ _); [discriminate|].
  intros H. injection H as <-. apply f64_round_nonneg.
  change 0%Q with (inject_Z 0). rewrite <- Zle_Qle. lia.
Qed.

(** For a ratio between 0 and 1 the number of rows handed to [topk] is
    between 0 and the number of rows. *)
Lemma topk_k_in_range (ratio : Q) (d : nat) :
  (0 <= ratio)%Q -> (ratio <= 1)%Q -> (Z.of_nat d < 2 ^ 53)%Z ->
  exists k, topk_k ratio d = Ok (Z.of_nat k) /\ k <= d.
Proof.
  intros H0 H1 Hd. unfold topk_k.
  destruct (py_float_exact d Hd) as (f & -> & Hf). cbn [bind].
  assert (Hd0 : (0 <= inject_Z (Z.of_nat d))%Q)
    by (change 0%Q with (inject_Z 0); rewrite <- Zle_Qle; lia).
  destruct (py_int_mul_in_range ratio f (Z.of_nat d)) as (k & Hk & Hle).
  - rewrite Hf. now apply Qmult_le_0_compat.
  - rewrite Hf. rewrite <- (Qmult_1_l (inject_Z (Z.of_nat d))) at 2.
    now apply Qmult_le_compat_r.
  - exact Hd.
  - exists k. split; [exact Hk | lia].
Qed.

Lemma k_in_range (r : Q) (d : nat) :
  (0 < r)%Q -> (r <= 1)%Q -> (Z.of_nat d < 2 ^ 53)%Z ->
  k_arg_of r d = Ok (Z.of_nat (k_f64 r d)) /\ k_f64 r d <= d.
Proof.
  intros H0 H1 Hd. unfold k_f64, k_arg_of.
  destruct (py_sub_unit r (Qlt_le_weak _ _ H0) H1) as [Hlo Hhi].
  destruct (topk_k_in_range (py_sub 1 r) d Hlo Hhi Hd) as (k & -> & Hk).
  rewrite Nat2Z.id. now split.
Qed.

(** The only exception of the computation of [k] is that of an infinite
    product. *)
Lemma topk_k_raises (ratio : Q) (d : nat) (e : Exn) :
  topk_k ratio d = Raise e -> e = OverflowError.
Proof.
  unfold topk_k, py_float, py_int_mul.
  destruct (f64 (inject_Z (Z.of_nat d))) as [f|]; cbn [bind].
  - destruct (f64 (ratio * f)); intros H; [discriminate H | now injection H].
  - intros H. now injection H.
Qed.

(** When the subtraction and the product are exact, [k] is the number
    that the specification writes. *)
Lemma k_f64_exact (r : Q) (d : nat) :
  (0 < r)%Q -> (r <= 1)%Q -> (Z.of_nat d < 2 ^ 53)%Z ->
  (f64_round (1 - r) == 1 - r)%Q ->
  (f64_round ((1 - r) * inject_Z (Z.of_nat d)) == (1 - r) * inject_Z (Z.of_nat d))%Q ->
  k_f64 r d = k_of r d.
Proof.
  intros H0 H1 Hd E1 E2. unfold k_f64, k_arg_of, topk_k, k_of.
  destruct (py_float_exact d Hd) as (f & -> & Hf). cbn [bind].
  assert (Hd0 : (0 <= inject_Z (Z.of_nat d))%Q)
    by (change 0%Q with (inject_Z 0); rewrite <- Zle_Qle; lia).
  assert (Hx : (py_sub 1 r * f == (1 - r) * inject_Z (Z.of_nat d))%Q)
    by (unfold py_sub; now rewrite E1, Hf).
  assert (Hlo : (0 <= (1 - r) * inject_Z (Z.of_nat d))%Q)
    by (apply Qmult_le_0_compat; [Lqa.lra | exact Hd0]).
  assert (Hhi : ((1 - r) * inject_Z (Z.of_nat d) <= inject_Z (Z.of_nat d))%Q).
  { rewrite <- (Qmult_1_l (inject_Z (Z.of_nat d))) at 2.
    apply Qmult_le_compat_r; [Lqa.lra | exact Hd0]. }
  unfold py_int_mul.
  rewrite (f64_in_range _ (Z.of_nat d)); [| now rewrite Hx | now rewrite Hx | exact Hd].
  assert (Hr : (f64_round (py_sub 1 r * f) == (1 - r) * inject_Z (Z.of_nat d))%Q)
    by (rewrite (f64_round_comp _ _ Hx); exact E2).
  rewrite py_int_floor by (now rewrite Hr).
  now rewrite (Qfloor_comp _ _ Hr).
Qed.

(** ** Vanilla pruning, [do_sparse] *)

Lemma do_sparse_eq (w : Tensor Q) (ratio : Q) (k : nat) :
  wf w ->
  topk_k ratio (numel w) = Ok (Z.of_nat k) -> k <= numel w ->
  do_sparse w ratio
  = Ok (mkTensor (size0 w) (size1 w)
          (zero_at (topk_col k (map Qabs (storage w))) (storage w))).
Proof.
  intros Hwf Hk Hle. unfold do_sparse, reshape_m1_1. cbv zeta.
  cbn [size0 size1]. rewrite Hk. cbn [bind].
  destruct (scatter_topk (tabs (mkTensor (numel w) 1 (storage w))) (Z.of_nat k))
    as (bk & idx & Ht & Hsc).
  { cbn [tabs size0]. lia. }
  destruct (Hsc (mkTensor (numel w) 1 (storage w)) eq_refl eq_refl)
    as (src & Hz & Hs).
  cbn [size1] in Hz. rewrite Ht. cbn [bind]. rewrite Hz. cbn [bind].
  rewrite Hs. cbn [bind]. unfold reshape, zero_sel, numel.
  cbn [tabulate size0 size1 storage].
  fold (numel w). rewrite Nat.mul_1_r, Nat.eqb_refl. f_equal. f_equal.
  unfold zero_at. rewrite Hwf. apply map_ext_in. intros p Hp.
  apply in_seq in Hp. rewrite Nat.div_1_r, Nat.mod_1_r, Nat2Z.id.
  assert (Hc : column (tabs (mkTensor (numel w) 1 (storage w))) 0
               = map Qabs (storage w)).
  { unfold column, tabs, getQ, get. cbn [size0 size1 storage].
    etransitivity; [|apply (map_nth_seq (map Qabs (storage w)) 0%Q)].
    rewrite length_map, Hwf. apply map_ext. intros i.
    now rewrite Nat.mul_1_r, Nat.add_0_r. }
  rewrite Hc. unfold getQ, get. cbn [size1 storage].
  now rewrite Nat.mul_1_r, Nat.add_0_r.
Qed.

Lemma zero_at_length (S : list nat) (l : list Q) : length (zero_at S l) = length l.
Proof. unfold zero_at. now rewrite length_map, length_seq. Qed.

Lemma zero_at_nth (S : list nat) (l : list Q) (p : nat) :
  p < length l ->
  nth p (zero_at S l) 0%Q = if mem p S then 0%Q else nth p l 0%Q.
Proof. intros Hp. unfold zero_at. now rewrite nth_map_seq. Qed.

Lemma mem_count (S : list nat) (n : nat) :
  NoDup S -> (forall p, In p S -> p < n) ->
  length (filter (fun p => mem p S) (seq 0 n)) = length S.
Proof.
  intros Hnd Hb. apply Permutation_length, NoDup_Permutation.
  - apply NoDup_filter, seq_NoDup.
  - exact Hnd.
  - intros p. rewrite filter_In, in_seq, mem_In. split.
    + tauto.
    + intros Hp. specialize (Hb p Hp). split; [lia | exact Hp].
Qed.

(** Counting the zeros and the survivors of a matrix without zeros. *)
Lemma zero_at_count (S : list nat) (l : list Q) (f : Q -> bool) (b : bool) :
  f 0%Q = b -> (forall x, In x l -> f x = negb b) ->
  length (filter f (zero_at S l))
  = length (filter (fun p => if b then mem p S else negb (mem p S))
              (seq 0 (length l))).
Proof.
  intros H0 Hl. unfold zero_at. rewrite filter_map_swap, length_map.
  f_equal. apply filter_ext_in. intros p Hp. apply in_seq in Hp.
  destruct (mem p S).
  - rewrite H0. now destruct b.
  - rewrite Hl by (apply nth_In; lia). now destruct b.
Qed.

Lemma topk_ok_range (t : Tensor Q) (k : Z) (x : Tensor Q * Tensor nat) :
  topk t k = Ok x -> (0 <= k <= Z.of_nat (size0 t))%Z.
Proof.
  unfold topk.
  destruct (Z.ltb_spec k 0); [discriminate|].
  destruct (Z.ltb_spec (Z.of_nat (size0 t)) k); [discriminate|]. lia.
Qed.

(** A call that returns has computed a [k] that [topk] accepts. *)
Lemma do_sparse_inv (w : Tensor Q) (ratio : Q) (out : Tensor Q) :
  do_sparse w ratio = Ok out ->
  exists k, topk_k ratio (numel w) = Ok (Z.of_nat k) /\ k <= numel w.
Proof.
  unfold do_sparse, reshape_m1_1. cbv zeta. cbn [size0 size1]. intros H.
  destruct (topk_k ratio (numel w)) as [kz|e]; [|discriminate H].
  cbn [bind] in H.
  destruct (topk (tabs (mkTensor (numel w) 1 (storage w))) kz) as [x|e] eqn:Et;
    [|discriminate H].
  apply topk_ok_range in Et. cbn [tabs size0] in Et.
  exists (Z.to_nat kz). split; [f_equal|]; lia.
Qed.

Lemma vanilla_at (w : Tensor Q) (ratio : Q) (k : nat) :
  wf w -> topk_k ratio (numel w) = Ok (Z.of_nat k) -> k <= numel w ->
  let S := topk_col k (map Qabs (storage w)) in
  do_sparse w ratio
  = Ok (mkTensor (size0 w) (size1 w) (zero_at S (storage w)))
  /\ NoDup S /\ length S = k
  /\ (forall p, In p S -> p < numel w)
  /\ (forall p q, In p S -> q < numel w -> ~ In q S ->
        (Qabs (nth p (storage w) 0) <= Qabs (nth q (storage w) 0))%Q).
Proof.
  intros Hwf Hk Hle S.
  assert (Hlen : length (map Qabs (storage w)) = numel w)
    by now rewrite length_map.
  split; [now apply do_sparse_eq|].
  split; [apply topk_col_NoDup|].
  split; [apply topk_col_length; lia|].
  split.
  - intros p Hp. rewrite <- Hlen. now apply (topk_col_bound _ _ _ Hp).
  - intros p q Hp Hq Hnq.
    assert (Hpb : p < numel w)
      by (rewrite <- Hlen; now apply (topk_col_bound _ _ _ Hp)).
    rewrite <- Hwf in Hpb, Hq.
    rewrite <- !(map_nth Qabs). change (Qabs 0) with 0%Q.
    apply (topk_col_smallest k); trivial.
    now rewrite length_map.
Qed.

Lemma vanilla_general (w : Tensor Q) (r : Q) :
  wf w -> (0 < r)%Q -> (r <= 1)%Q -> (Z.of_nat (numel w) < 2 ^ 53)%Z ->
  let S := topk_col (k_f64 r (numel w)) (map Qabs (storage w)) in
  prune Vanilla w r
  = Ok (mkTensor (size0 w) (size1 w) (zero_at S (storage w)))
  /\ NoDup S /\ length S = k_f64 r (numel w)
  /\ (forall p, In p S -> p < numel w)
  /\ (forall p q, In p S -> q < numel w -> ~ In q S ->
        (Qabs (nth p (storage w) 0) <= Qabs (nth q (storage w) 0))%Q).
Proof.
  intros Hwf H0 H1 Hd.
  destruct (k_in_range r (numel w) H0 H1 Hd) as [Hk Hle].
  exact (vanilla_at w (py_sub 1 r) (k_f64 r (numel w)) Hwf Hk Hle).
Qed.

(** The all-ones matrix: as many zeros as selected positions, ones
    elsewhere. *)
Lemma vanilla_ones (d1 d2 : nat) (r : Q) :
  (0 < r)%Q -> (r <= 1)%Q -> (Z.of_nat (d1 * d2) < 2 ^ 53)%Z ->
  exists out : Tensor Q,
    prune Vanilla (ones d1 d2) r = Ok out /\
    count (fun x => Qeq_bool x 0) (storage out) = Z.of_nat (k_f64 r (d1 * d2)) /\
    count (fun x => Qeq_bool x 1) (storage out)
    = (Z.of_nat (d1 * d2) - Z.of_nat (k_f64 r (d1 * d2)))%Z.
Proof.
  intros H0 H1 Hd.
  assert (Hwf : wf (ones d1 d2)).
  { unfold wf, ones, numel. cbn [storage size0 size1]. apply repeat_length. }
  destruct (vanilla_general (ones d1 d2) r Hwf H0 H1 Hd)
    as (Hp & Hnd & Hlen & Hb & _).
  set (S := topk_col (k_f64 r (numel (ones d1 d2)))
              (map Qabs (storage (ones d1 d2)))) in *.
  change (numel (ones d1 d2)) with (d1 * d2) in *.
  assert (Hn : length (storage (ones d1 d2)) = d1 * d2) by exact Hwf.
  assert (Hall : forall x, In x (storage (ones d1 d2)) -> x = 1%Q).
  { intros x Hx. unfold ones in Hx. cbn [storage] in Hx.
    apply repeat_spec in Hx. exact Hx. }
  assert (Hz : length (filter (fun p => mem p S) (seq 0 (d1 * d2))) = length S).
  { apply mem_count; [exact Hnd | exact Hb]. }
  eexists. split; [exact Hp|]. cbn [storage]. unfold count. split.
  - rewrite (zero_at_count S _ _ true); [| reflexivity |].
    + rewrite Hn, Hz, Hlen. reflexivity.
    + intros x Hx. rewrite (Hall x Hx). reflexivity.
  - rewrite (zero_at_count S _ _ false); [| reflexivity |].
    + pose proof (filter_length (fun p => mem p S) (seq 0 (d1 * d2))) as Hf.
      rewrite Hz, length_seq, Hlen in Hf. rewrite Hn. lia.
    + intros x Hx. rewrite (Hall x Hx). reflexivity.
Qed.

(** C3, against the claim.  The number of zeroed entries is not always
    [floor((1-r)*d1*d2)].  At the keep ratio 0.1, that is at the double
    nearest to 1/10, ten entries lose nine of theirs, where the floor for
    that double is 8; at the keep ratio 0.9 they lose none, where the floor
    for 9/10 is 1. *)
Lemma vanilla_count_is_not_the_floor :
  (0 < f64_round (1 # 10) <= 1)%Q /\
  (exists out,
     prune Vanilla (ones 1 10) (f64_round (1 # 10)) = Ok out /\
     count (fun x => Qeq_bool x 0) (storage out) = 9%Z) /\
  k_of (f64_round (1 # 10)) (1 * 10) = 8 /\
  (0 < f64_round (9 # 10) <= 1)%Q /\
  (exists out,
     prune Vanilla (ones 1 10) (f64_round (9 # 10)) = Ok out /\
     count (fun x => Qeq_bool x 0) (storage out) = 0%Z) /\
  k_of (9 # 10) (1 * 10) = 1.
Proof.
  split; [split; vm_compute; [reflexivity | discriminate]|].
  split; [eexists; split; vm_compute; reflexivity|].
  split; [vm_compute; reflexivity|].
  split; [split; vm_compute; [reflexivity | discriminate]|].
  split; [eexists; split; vm_compute; reflexivity|].
  vm_compute; reflexivity.
Qed.

(** C3, amended.  Vanilla pruning at keep ratio [r] in (0,1] of a matrix of
    fewer than 2^53 entries succeeds, keeps the shape, and sets to zero
    exactly [k] distinct flattened positions of a selection [S], leaving
    every other entry as it was; no selected entry is larger in absolute
    value than an entry left out.  The number [k] is
    [int((1 - r) * float(d1*d2))] as the doubles give it; it is
    [floor((1-r)*d1*d2)] when the subtraction and the product are exact.  On
    the 768x768 all-ones matrix at keep ratio 1/2 the result has exactly
    294912 zeros and 294912 ones. *)
Theorem vanilla_zeros_bottom_k :
  (forall (w : Tensor Q) (r : Q),
     wf w -> (0 < r)%Q -> (r <= 1)%Q ->
     (Z.of_nat (size0 w * size1 w) < 2 ^ 53)%Z ->
     exists (S : list nat) (out : Tensor Q),
       prune Vanilla w r = Ok out /\
       size0 out = size0 w /\ size1 out = size1 w /\ wf out /\
       NoDup S /\ length S = k_f64 r (size0 w * size1 w) /\
       ((f64_round (1 - r) == 1 - r)%Q ->
        (f64_round ((1 - r) * inject_Z (Z.of_nat (size0 w * size1 w)))
         == (1 - r) * inject_Z (Z.of_nat (size0 w * size1 w)))%Q ->
        length S = k_of r (size0 w * size1 w)) /\
       (forall p, In p S -> p < size0 w * size1 w) /\
       (forall p, p < size0 w * size1 w ->
          nth p (storage out) 0%Q
          = if mem p S then 0%Q else nth p (storage w) 0%Q) /\
       (forall p q, In p S -> q < size0 w * size1 w -> ~ In q S ->
          (Qabs (nth p (storage w) 0) <= Qabs (nth q (storage w) 0))%Q))
  /\
  (exists out : Tensor Q,
     prune Vanilla (ones 768 768) (1 # 2) = Ok out /\
     count (fun x => Qeq_bool x 0) (storage out) = 294912%Z /\
     count (fun x => Qeq_bool x 1) (storage out) = 294912%Z).
Proof.
  split.
  - intros w r Hwf H0 H1 Hd.
    destruct (vanilla_general w r Hwf H0 H1 Hd) as (Hp & Hnd & Hlen & Hb & Hsm).
    eexists. eexists. split; [exact Hp|]. cbn [size0 size1 storage].
    split; [reflexivity|]. split; [reflexivity|].
    split.
    { unfold wf, numel. cbn [size0 size1 storage].
      rewrite zero_at_length. exact Hwf. }
    split; [exact Hnd|]. split; [exact Hlen|].
    split.
    { intros E1 E2. rewrite Hlen. now apply k_f64_exact. }
    split; [exact Hb|].
    split; [|exact Hsm].
    intros p Hp'. apply zero_at_nth. now rewrite Hwf.
  - assert (Hd : (Z.of_nat (768 * 768) < 2 ^ 53)%Z)
      by (rewrite Nat2Z.inj_mul; vm_compute; reflexivity).
    destruct (vanilla_ones 768 768 (1 # 2)) as (out & Hp & Hz & Ho);
      [qcmp | qcmp | exact Hd |].
    exists out. split; [exact Hp|].
    rewrite Hz, Ho.
    assert (Hk : Z.of_nat (k_f64 (1 # 2) (768 * 768)) = 294912%Z).
    { vm_compute. reflexivity. }
    rewrite Hk, Nat2Z.inj_mul. split; vm_compute; reflexivity.
Qed.

Lemma vanilla_zeros_bottom_k_witness :
  exists (S : list nat) (out : Tensor Q),
    prune Vanilla (mkTensor 2 3 [3; -1; 2; 1 # 2; 0; -5]%Q) (1 # 2) = Ok out /\
    storage out = [3; 0; 2; 0; 0; -5]%Q /\ length S = 3.
Proof.
  destruct (proj1 vanilla_zeros_bottom_k
              (mkTensor 2 3 [3; -1; 2; 1 # 2; 0; -5]%Q) (1 # 2))
    as (S & out & Hp & _ & _ & _ & _ & Hlen & _);
    [reflexivity | qcmp | qcmp | reflexivity |].
  exists S, out. split; [exact Hp|]. split; [|exact Hlen].
  vm_compute in Hp. now inversion Hp.
Defined.

(** ** Channel pruning, [do_sparse_chn] *)

Lemma row_tabs (w : Tensor Q) (i : nat) : row (tabs w) i = map Qabs (row w i).
Proof.
  unfold row, tabs. cbn [size1 storage]. now rewrite skipn_map, firstn_map.
Qed.

Lemma nth_flat_map_block {A B} (g : A -> list B) (d2 : nat) (l : list A)
  (i c : nat) (a0 : A) (d : B) :
  (forall x, In x l -> length (g x) = d2) -> i < length l -> c < d2 ->
  nth (i * d2 + c) (flat_map g l) d = nth c (g (nth i l a0)) d.
Proof.
  revert i. induction l as [|x l IH]; intros i Hg Hi Hc; simpl in *.
  - lia.
  - destruct i as [|i].
    + simpl. apply app_nth1. rewrite Hg by now left. exact Hc.
    + rewrite app_nth2 by (rewrite Hg by (now left); simpl; lia).
      rewrite Hg by now left.
      replace (S i * d2 + c - d2) with (i * d2 + c) by (simpl; lia).
      apply IH; [intros y Hy; apply Hg; now right | lia | exact Hc].
Qed.

Lemma flat_map_repeat {A B} (f : A -> list B) (s : A) (x : B) (n : nat) :
  f s = [x] -> flat_map f (repeat s n) = repeat x n.
Proof.
  intros H. induction n as [|n IH]; simpl; [reflexivity|].
  now rewrite H, IH.
Qed.

Lemma list_sum_repeat (s : Tensor Q) (n : nat) :
  list_sum (map size1 (repeat s n)) = n * size1 s.
Proof. induction n as [|n IH]; simpl; [reflexivity | rewrite IH; lia]. Qed.

Lemma row_sum_dim1 (t : Tensor Q) (i : nat) :
  i < size0 t -> row (sum_dim1 t) i = [Qsum (row t i)].
Proof.
  intros Hi. unfold row at 1, sum_dim1. cbn [size1 storage].
  rewrite Nat.mul_1_r.
  assert (Hlen : i < length (map (fun i => Qsum (row t i)) (seq 0 (size0 t))))
    by now rewrite length_map, length_seq.
  rewrite <- (firstn_skipn i (map _ _)) at 1.
  rewrite skipn_app, skipn_all2 by (rewrite length_firstn; lia).
  rewrite length_firstn. replace (i - Nat.min i _) with 0 by lia.
  simpl.
  destruct (skipn i (map _ _)) as [|y l] eqn:E.
  - apply (f_equal (@length Q)) in E. rewrite length_skipn in E. simpl in E. lia.
  - simpl. f_equal.
    rewrite <- (nth_map_seq (fun i => Qsum (row t i)) (size0 t) i 0%Q Hi).
    rewrite <- (firstn_skipn i (map _ _)) at 1.
    rewrite app_nth2 by (rewrite length_firstn; lia).
    rewrite length_firstn, E.
    replace (i - Nat.min i _) with 0 by lia. reflexivity.
Qed.

(** The ranking tensor of [do_sparse_chn]: every column is the list of the
    row sums. *)
Lemma cat1_row_sums (w : Tensor Q) :
  0 < size1 w ->
  exists new_w,
    cat1 (repeat (sum_dim1 (tabs w)) (size1 w)) = Ok new_w /\
    size0 new_w = size0 w /\ size1 new_w = size1 w /\
    forall c, c < size1 w -> column new_w c = row_sums w.
Proof.
  intros Hd2. unfold cat1.
  set (s := sum_dim1 (tabs w)).
  destruct (repeat s (size1 w)) as [|t0 ts] eqn:E.
  { apply (f_equal (@length _)) in E. rewrite repeat_length in E.
    simpl in E. lia. }
  assert (Ht0 : t0 = s).
  { apply (repeat_spec (size1 w)). rewrite E. now left. }
  subst t0. rewrite <- E.
  assert (Hall : forallb (fun t => size0 t =? size0 s) (repeat s (size1 w)) = true).
  { apply forallb_forall. intros t Ht. apply repeat_spec in Ht. subst t.
    apply Nat.eqb_refl. }
  rewrite Hall. eexists. split; [reflexivity|].
  cbn [size0 size1]. rewrite list_sum_repeat.
  assert (Hs1 : size1 s = 1) by reflexivity.
  assert (Hs0 : size0 s = size0 w) by reflexivity.
  rewrite Hs1, Nat.mul_1_r, Hs0.
  split; [reflexivity|]. split; [reflexivity|].
  intros c Hc. unfold column, row_sums. cbn [size0].
  apply map_ext_in. intros i Hi. apply in_seq in Hi.
  unfold getQ, get. cbn [size1 storage].
  rewrite (nth_flat_map_block _ (size1 w) _ i c 0);
    [ | | rewrite length_seq; lia | exact Hc].
  - rewrite seq_nth by lia. cbn [Nat.add].
    rewrite (flat_map_repeat _ s (Qsum (row (tabs w) i))).
    + rewrite nth_repeat_lt by exact Hc. unfold row_abs_sum.
      now rewrite row_tabs.
    + apply row_sum_dim1. cbn [tabs size0]. lia.
  - intros x Hx. apply in_seq in Hx.
    rewrite (flat_map_repeat _ s (Qsum (row (tabs w) x))).
    + apply repeat_length.
    + apply row_sum_dim1. cbn [tabs size0]. lia.
Qed.

Lemma do_sparse_chn_eq (w : Tensor Q) (ratio : Q) (k : nat) :
  0 < size1 w ->
  topk_k ratio (size0 w) = Ok (Z.of_nat k) -> k <= size0 w ->
  do_sparse_chn w ratio = Ok (zero_sel (fun _ => topk_col k (row_sums w)) w).
Proof.
  intros Hd2 Hk Hle. unfold do_sparse_chn. cbv zeta. rewrite Hk. cbn [bind].
  destruct (cat1_row_sums w Hd2) as (new_w & Hcat & H0 & H1 & Hcol).
  rewrite Hcat. cbn [bind].
  destruct (scatter_topk new_w (Z.of_nat k)) as (bk & idx & Ht & Hsc); [lia|].
  destruct (Hsc w (eq_sym H0) (eq_sym H1)) as (src & Hz & Hs).
  rewrite Ht. cbn [bind]. rewrite Hz. cbn [bind]. rewrite Hs.
  f_equal. unfold zero_sel. apply tabulate_ext. intros r c Hr Hc.
  now rewrite Nat2Z.id, Hcol.
Qed.

Lemma row_sums_length (w : Tensor Q) : length (row_sums w) = size0 w.
Proof. unfold row_sums. now rewrite length_map, length_seq. Qed.

Lemma row_sums_nth (w : Tensor Q) (i : nat) :
  i < size0 w -> nth i (row_sums w) 0%Q = row_abs_sum w i.
Proof. intros Hi. unfold row_sums. now rewrite nth_map_seq. Qed.

Lemma do_sparse_chn_inv (w : Tensor Q) (ratio : Q) (out : Tensor Q) :
  do_sparse_chn w ratio = Ok out ->
  0 < size1 w /\
  exists k, topk_k ratio (size0 w) = Ok (Z.of_nat k) /\ k <= size0 w.
Proof.
  unfold do_sparse_chn. cbv zeta. intros H.
  destruct (topk_k ratio (size0 w)) as [kz|e]; [|discriminate H].
  cbn [bind] in H.
  assert (Hd2 : 0 < size1 w).
  { destruct (size1 w) as [|n]; [discriminate H | lia]. }
  split; [exact Hd2|].
  destruct (cat1_row_sums w Hd2) as (new_w & Hcat & H0 & _).
  rewrite Hcat in H. cbn [bind] in H.
  destruct (topk new_w kz) as [x|e] eqn:Et; [|discriminate H].
  apply topk_ok_range in Et. rewrite H0 in Et.
  exists (Z.to_nat kz). split; [f_equal|]; lia.
Qed.

(** Without columns there is nothing to concatenate. *)
Lemma do_sparse_chn_no_column (w : Tensor Q) (ratio : Q) (k : Z) :
  size1 w = 0 -> topk_k ratio (size0 w) = Ok k ->
  do_sparse_chn w ratio = Raise RuntimeError.
Proof.
  intros Hd Hk. unfold do_sparse_chn. cbv zeta. rewrite Hk, Hd. reflexivity.
Qed.

Lemma channel_at (w : Tensor Q) (ratio : Q) (k : nat) :
  0 < size1 w -> topk_k ratio (size0 w) = Ok (Z.of_nat k) -> k <= size0 w ->
  let S := topk_col k (row_sums w) in
  do_sparse_chn w ratio = Ok (zero_sel (fun _ => S) w)
  /\ NoDup S /\ length S = k
  /\ (forall i, In i S -> i < size0 w)
  /\ (forall i i', In i S -> i' < size0 w -> ~ In i' S ->
        (row_abs_sum w i <= row_abs_sum w i')%Q).
Proof.
  intros Hd2 Hk Hle S.
  split; [now apply do_sparse_chn_eq|].
  split; [apply topk_col_NoDup|].
  split; [apply topk_col_length; rewrite row_sums_length; lia|].
  assert (Hb : forall i, In i S -> i < size0 w).
  { intros i Hi. rewrite <- (row_sums_length w).
    exact (topk_col_bound _ _ _ Hi). }
  split; [exact Hb|].
  intros i i' Hi Hi' Hn.
  rewrite <- (row_sums_nth w i) by now apply Hb.
  rewrite <- (row_sums_nth w i') by exact Hi'.
  apply (topk_col_smallest k); trivial.
  now rewrite row_sums_length.
Qed.





(** ** Multi-head mode, [do_sparse_mh] *)

Lemma heads_numel : 12 * (64 * 768) = 768 * 768.
Proof. lia. Qed.

Section Heads.

Variables h d r c : nat.
Hypothesis Hshape : h * d = r * c.

Lemma sparse_heads_eq (v : Tensor Q) (ratio : Q) (k : nat) :
  numel v = h * d ->
  topk_k ratio h = Ok (Z.of_nat k) -> k <= h ->
  exists idx : Tensor nat,
    sparse_heads h d r c v ratio None
    = Ok (mkTensor r c (storage (zero_sel (mh_sel h d k v) (heads_view h d v))),
          idx)
    /\ forall w : Tensor Q,
        numel w = h * d ->
        sparse_heads h d r c w ratio (Some idx)
        = Ok (mkTensor r c
                (storage (zero_sel (mh_sel h d k v) (heads_view h d w))), idx).
Proof.
  intros Hn Hk Hle.
  destruct (scatter_topk (tabs (heads_view h d v)) (Z.of_nat k))
    as (bk & idx & Ht & Hsc).
  { cbn [tabs heads_view size0]. lia. }
  assert (Hgen : forall w : Tensor Q,
            numel w = h * d ->
            (src <- zeros (Z.of_nat k) d ;;
             w' <- scatter_ (heads_view h d w) idx src ;;
             w' <- reshape w' r c ;;
             Ok (w', idx))
            = Ok (mkTensor r c
                    (storage (zero_sel (mh_sel h d k v) (heads_view h d w))),
                  idx)).
  { intros w Hw.
    destruct (Hsc (heads_view h d w) eq_refl eq_refl) as (src & Hz & Hs).
    cbn [heads_view size1] in Hz. rewrite Hz. cbn [bind].
    rewrite Hs. cbn [bind]. rewrite Nat2Z.id.
    unfold reshape, numel, zero_sel.
    cbn [tabulate heads_view size0 size1 storage].
    rewrite Hshape, Nat.eqb_refl. reflexivity. }
  exists idx. split.
  - unfold sparse_heads, reshape. rewrite Hn, Nat.eqb_refl.
    cbn [bind]. cbv zeta. cbn [size0 size1]. rewrite Hk. cbn [bind].
    fold (heads_view h d v). rewrite Ht. cbn [bind]. now apply Hgen.
  - intros w Hw. unfold sparse_heads, reshape. rewrite Hw, Nat.eqb_refl.
    cbn [bind]. cbv zeta. cbn [size0 size1]. rewrite Hk. cbn [bind].
    fold (heads_view h d w). now apply Hgen.
Qed.

(** A parameter of another size cannot be viewed as [h] heads. *)
Lemma sparse_heads_shape (w : Tensor Q) (ratio : Q)
  (indices : option (Tensor nat)) :
  numel w <> h * d ->
  sparse_heads h d r c w ratio indices = Raise RuntimeError.
Proof.
  intros Hn. unfold sparse_heads, reshape.
  rewrite (proj2 (Nat.eqb_neq _ _) Hn). reflexivity.
Qed.

End Heads.

(** ** Pruning twice *)

(** Ranking again after the selected entries have become zero selects
    only zeros: either the same positions, or a position left out of the
    new selection is a zero and bounds the selection from above. *)
Lemma topk_refresh (k : nat) (a a' : list Q) :
  length a' = length a -> k <= length a ->
  (forall p, In p (topk_col k a) -> (nth p a' 0 == 0)%Q) ->
  forall p, In p (topk_col k a') -> (nth p a' 0 <= 0)%Q.
Proof.
  intros Hlen Hk Hz p Hp.
  set (S1 := topk_col k a) in *. set (S2 := topk_col k a') in *.
  destruct (existsb (fun q => negb (mem q S2)) S1) eqn:E.
  - apply existsb_exists in E. destruct E as [q [Hq Hn]].
    apply negb_true_iff, mem_false in Hn.
    apply Qle_trans with (nth q a' 0%Q).
    + apply (topk_col_smallest k); trivial.
      rewrite Hlen. exact (topk_col_bound _ _ _ Hq).
    + apply Qle_lteq. right. now apply Hz.
  - assert (Hincl : incl S1 S2).
    { intros q Hq. apply mem_In.
      destruct (mem q S2) eqn:Em; [reflexivity|].
      assert (Hex : existsb (fun q => negb (mem q S2)) S1 = true).
      { apply existsb_exists. exists q. now rewrite Em. }
      congruence. }
    assert (Hback : incl S2 S1).
    { apply NoDup_length_incl; [apply topk_col_NoDup | | exact Hincl].
      unfold S1, S2. rewrite !topk_col_length by lia. lia. }
    apply Qle_lteq. right. apply Hz, Hback, Hp.
Qed.

Lemma Qabs_le_0 (x : Q) : (Qabs x <= 0)%Q -> (x == 0)%Q.
Proof.
  destruct x as [n d]. unfold Qabs, Qle, Qeq. simpl. lia.
Qed.

Lemma Forall2_map_seq {A B} (R : A -> B -> Prop) (f : nat -> A) (g : nat -> B)
  (n : nat) :
  (forall p, p < n -> R (f p) (g p)) ->
  Forall2 R (map f (seq 0 n)) (map g (seq 0 n)).
Proof.
  induction n as [|n IH]; intros H.
  - constructor.
  - rewrite seq_S, !map_app. apply Forall2_app.
    + apply IH. intros p Hp. apply H. lia.
    + simpl. constructor; [apply H; lia | constructor].
Qed.

Lemma zero_at_noop (S : list nat) (l : list Q) :
  (forall p, p < length l -> In p S -> (nth p l 0 == 0)%Q) ->
  Forall2 Qeq (zero_at S l) l.
Proof.
  intros H. unfold zero_at.
  cut (Forall2 Qeq
         (map (fun p => if mem p S then 0%Q else nth p l 0%Q) (seq 0 (length l)))
         (map (fun p => nth p l 0%Q) (seq 0 (length l)))).
  { now rewrite (map_nth_seq l 0%Q). }
  apply Forall2_map_seq. intros p Hp.
  destruct (mem p S) eqn:E; [|apply Qeq_refl].
  apply Qeq_sym, H; [exact Hp | now apply mem_In].
Qed.

Lemma tabulate_get (t : Tensor Q) :
  wf t -> tabulate (size0 t) (size1 t) (getQ t) = t.
Proof.
  intros Hwf. destruct t as [d1 d2 st]. unfold wf, numel in Hwf.
  unfold tabulate, getQ, get. cbn [size0 size1 storage] in *. f_equal.
  rewrite <- Hwf. etransitivity; [|apply (map_nth_seq st 0%Q)].
  apply map_ext_in. intros p Hp. apply in_seq in Hp.
  f_equal. pose proof (Nat.div_mod_eq p d2). lia.
Qed.

Lemma zero_sel_noop (sel : nat -> list nat) (t : Tensor Q) :
  wf t ->
  (forall r c, r < size0 t -> c < size1 t -> In r (sel c) ->
     (getQ t r c == 0)%Q) ->
  tensor_eq (zero_sel sel t) t.
Proof.
  intros Hwf H. split; [reflexivity|]. split; [reflexivity|].
  pose proof (f_equal storage (tabulate_get t Hwf)) as Hst.
  rewrite <- Hst.
  unfold zero_sel, tabulate. cbn [storage].
  apply Forall2_map_seq. intros p Hp.
  assert (0 < size1 t) by (destruct (size1 t); lia).
  assert (Hr : p / size1 t < size0 t) by (apply Nat.Div0.div_lt_upper_bound; lia).
  assert (Hc : p mod size1 t < size1 t) by (apply Nat.mod_upper_bound; lia).
  destruct (mem _ _) eqn:E; [|apply Qeq_refl].
  apply Qeq_sym, H; trivial. now apply mem_In.
Qed.

Lemma column_nth (t : Tensor Q) (r c : nat) :
  r < size0 t -> nth r (column t c) 0%Q = getQ t r c.
Proof. intros Hr. unfold column. now rewrite nth_map_seq. Qed.

Lemma getQ_tabs (t : Tensor Q) (r c : nat) : getQ (tabs t) r c = Qabs (getQ t r c).
Proof.
  unfold getQ, get, tabs. cbn [size1 storage].
  change 0%Q with (Qabs 0) at 1. apply map_nth.
Qed.

Lemma vanilla_idempotent (w : Tensor Q) (r : Q) (out1 : Tensor Q) :
  wf w -> (0 < r)%Q -> (r <= 1)%Q ->
  prune Vanilla w r = Ok out1 ->
  exists out2, prune Vanilla out1 r = Ok out2 /\ tensor_eq out2 out1.
Proof.
  intros Hwf H0 H1 Hp. unfold prune in *.
  destruct (do_sparse_inv _ _ _ Hp) as (k & Hk & Hle).
  destruct (vanilla_at w (py_sub 1 r) k Hwf Hk Hle) as (Hp1 & _ & _ & Hb1 & _).
  rewrite Hp1 in Hp. injection Hp as <-.
  set (S1 := topk_col k (map Qabs (storage w))) in *.
  set (out1 := mkTensor (size0 w) (size1 w) (zero_at S1 (storage w))).
  assert (Hwf1 : wf out1).
  { unfold wf, numel, out1. cbn [size0 size1 storage].
    now rewrite zero_at_length. }
  destruct (vanilla_at out1 (py_sub 1 r) k Hwf1 Hk Hle) as (Hp2 & _ & _ & Hb2 & _).
  eexists. split; [exact Hp2|].
  split; [reflexivity|]. split; [reflexivity|]. cbn [storage].
  change (numel out1) with (numel w) in *.
  apply zero_at_noop. intros p Hlt Hin.
  apply Qabs_le_0.
  change (Qabs (nth p (storage out1) 0) <= 0)%Q.
  change 0%Q with (Qabs 0) at 1. rewrite <- (map_nth Qabs).
  change (Qabs 0) with 0%Q.
  apply (topk_refresh k (map Qabs (storage w))); trivial.
  - rewrite !length_map. unfold out1. cbn [storage]. apply zero_at_length.
  - rewrite length_map, Hwf. exact Hle.
  - intros q Hq. fold S1 in Hq.
    change 0%Q with (Qabs 0) at 1. rewrite (map_nth Qabs).
    unfold out1. cbn [storage].
    rewrite zero_at_nth by (rewrite Hwf; now apply Hb1).
    apply mem_In in Hq. rewrite Hq. reflexivity.
Qed.

Lemma row_tabulate (d1 d2 : nat) (f : nat -> nat -> Q) (i : nat) :
  i < d1 -> row (tabulate d1 d2 f) i = map (f i) (seq 0 d2).
Proof.
  intros Hi. unfold row, tabulate. cbn [size1 storage].
  apply nth_ext with (d := 0%Q) (d' := 0%Q).
  - rewrite length_firstn, length_skipn, !length_map, !length_seq. nia.
  - intros j Hj.
    rewrite length_firstn, length_skipn, length_map, length_seq in Hj.
    assert (Hjd : j < d2) by lia.
    rewrite nth_firstn.
    replace (j <? d2) with true by (symmetry; now apply Nat.ltb_lt).
    rewrite nth_skipn, !nth_map_seq by (trivial; now apply cell_lt).
    now rewrite cell_div, cell_mod.
Qed.

Lemma Qsum_zero (l : list Q) :
  (forall x, In x l -> (x == 0)%Q) -> (Qsum l == 0)%Q.
Proof.
  induction l as [|x l IH]; intros H; simpl.
  - reflexivity.
  - rewrite (H x) by now left. rewrite IH; [reflexivity|].
    intros y Hy. apply H. now right.
Qed.

Lemma Qsum_nonneg (l : list Q) :
  (forall x, In x l -> (0 <= x)%Q) -> (0 <= Qsum l)%Q.
Proof.
  induction l as [|x l IH]; intros H; simpl.
  - apply Qle_refl.
  - assert (0 <= x)%Q by (apply H; now left).
    assert (0 <= Qsum l)%Q by (apply IH; intros y Hy; apply H; now right).
    Lqa.lra.
Qed.

Lemma Qsum_le_0 (l : list Q) :
  (forall x, In x l -> (0 <= x)%Q) -> (Qsum l <= 0)%Q ->
  forall x, In x l -> (x <= 0)%Q.
Proof.
  induction l as [|y l IH]; intros H Hs x Hx; simpl in *.
  - contradiction.
  - assert (0 <= y)%Q by (apply H; now left).
    assert (0 <= Qsum l)%Q by (apply Qsum_nonneg; intros z Hz; apply H; now right).
    destruct Hx as [<-|Hx]; [Lqa.lra|].
    apply IH; trivial; [intros z Hz; apply H; now right | Lqa.lra].
Qed.

Lemma channel_idempotent (w : Tensor Q) (r : Q) (out1 : Tensor Q) :
  (0 < r)%Q -> (r <= 1)%Q ->
  prune Channel w r = Ok out1 ->
  exists out2, prune Channel out1 r = Ok out2 /\ tensor_eq out2 out1.
Proof.
  intros H0 H1 Hp. unfold prune in *.
  destruct (do_sparse_chn_inv _ _ _ Hp) as (Hd2 & k & Hk & Hle).
  destruct (channel_at w (py_sub 1 r) k Hd2 Hk Hle) as (Hp1 & _ & _ & Hb1 & _).
  rewrite Hp1 in Hp. injection Hp as <-.
  set (S1 := topk_col k (row_sums w)) in *.
  set (out1 := zero_sel (fun _ => S1) w).
  assert (Hs1 : size1 out1 = size1 w) by reflexivity.
  assert (Hs0 : size0 out1 = size0 w) by reflexivity.
  destruct (channel_at out1 (py_sub 1 r) k) as (Hp2 & _ & _ & Hb2 & _);
    [now rewrite Hs1 | now rewrite Hs0 | now rewrite Hs0 |].
  eexists. split; [exact Hp2|].
  apply zero_sel_noop; [apply tabulate_wf|].
  rewrite Hs0, Hs1. intros i j Hi Hj Hin.
  assert (Hrow : row out1 i
                 = map (fun c => if mem i S1 then 0%Q else getQ w i c)
                       (seq 0 (size1 w))).
  { unfold out1, zero_sel. now apply row_tabulate. }
  assert (Hsum : (row_abs_sum out1 i <= 0)%Q).
  { rewrite <- (row_sums_nth out1 i) by exact Hi.
    apply (topk_refresh k (row_sums w)); trivial.
    - now rewrite !row_sums_length.
    - now rewrite row_sums_length.
    - intros q Hq. fold S1 in Hq.
      rewrite row_sums_nth by (rewrite Hs0; now apply Hb1).
      unfold row_abs_sum, out1, zero_sel.
      rewrite row_tabulate by now apply Hb1.
      apply mem_In in Hq. rewrite Hq.
      apply Qsum_zero. intros x Hx.
      apply in_map_iff in Hx. destruct Hx as [y [<- Hy]].
      apply in_map_iff in Hy. destruct Hy as [c [<- _]]. reflexivity. }
  apply Qabs_le_0.
  apply (Qsum_le_0 (map Qabs (row out1 i))); trivial.
  - intros x Hx. apply in_map_iff in Hx. destruct Hx as [y [<- _]].
    apply Qabs_nonneg.
  - apply in_map. rewrite Hrow.
    unfold out1, zero_sel, getQ at 1. rewrite get_tabulate by assumption.
    apply (in_map (fun c => if mem i S1 then 0%Q else getQ w i c)).
    apply in_seq. lia.
Qed.

Lemma Ok_inj {A} (a b : A) : Ok a = Ok b -> a = b.
Proof. intros H. now injection H. Qed.

Lemma sparse_heads_inv (h d r c : nat) (w : Tensor Q) (ratio : Q)
  (x : Tensor Q * Tensor nat) :
  sparse_heads h d r c w ratio None = Ok x ->
  numel w = h * d /\
  exists k, topk_k ratio h = Ok (Z.of_nat k) /\ k <= h.
Proof.
  intros H.
  destruct (Nat.eq_dec (numel w) (h * d)) as [Hn|Hn].
  2:{ unfold sparse_heads, reshape in H.
      rewrite (proj2 (Nat.eqb_neq _ _) Hn) in H. discriminate H. }
  split; [exact Hn|].
  unfold sparse_heads, reshape in H. rewrite Hn, Nat.eqb_refl in H.
  cbn [bind] in H. cbv zeta in H. cbn [size0 size1] in H.
  destruct (topk_k ratio h) as [kz|e]; [|discriminate H].
  cbn [bind] in H.
  destruct (topk (tabs (mkTensor h d (storage w))) kz) as [y|e] eqn:Et;
    [|discriminate H].
  apply topk_ok_range in Et. cbn [tabs size0] in Et.
  exists (Z.to_nat kz). split; [f_equal|]; lia.
Qed.

Lemma heads_idempotent (h d r c : nat) (w : Tensor Q) (ratio : Q)
  (out1 : Tensor Q) :
  h * d = r * c ->
  ('(w', _) <- sparse_heads h d r c w ratio None ;; Ok w') = Ok out1 ->
  exists out2,
    ('(w', _) <- sparse_heads h d r c out1 ratio None ;; Ok w') = Ok out2
    /\ tensor_eq out2 out1.
Proof.
  intros Hshape Hp.
  destruct (sparse_heads h d r c w ratio None) as [x|e] eqn:Ex;
    [|discriminate Hp].
  destruct (sparse_heads_inv _ _ _ _ _ _ _ Ex) as (Hn & k & Hk & Hle).
  destruct (sparse_heads_eq h d r c Hshape w ratio k Hn Hk Hle)
    as (idx & He & _).
  rewrite He in Ex. apply Ok_inj in Ex. subst x.
  cbn [bind] in Hp. apply Ok_inj in Hp. subst out1.
  set (Z1 := zero_sel (mh_sel h d k w) (heads_view h d w)).
  set (out1 := mkTensor r c (storage Z1)).
  assert (Hn1 : numel out1 = h * d).
  { unfold numel, out1. cbn [size0 size1]. now symmetry. }
  destruct (sparse_heads_eq h d r c Hshape out1 ratio k Hn1 Hk Hle)
    as (idx' & He' & _).
  rewrite He'. cbn [bind].
  eexists. split; [reflexivity|].
  split; [reflexivity|]. split; [reflexivity|]. cbn [storage].
  assert (Hv : heads_view h d out1 = Z1) by reflexivity.
  rewrite Hv.
  apply (zero_sel_noop (mh_sel h d k out1) Z1); [apply tabulate_wf|].
  change (size0 Z1) with h. change (size1 Z1) with d.
  intros i j Hi Hj Hin.
  apply Qabs_le_0. rewrite <- getQ_tabs.
  rewrite <- column_nth by exact Hi.
  unfold mh_sel in Hin. rewrite Hv in Hin.
  apply (topk_refresh k (column (tabs (heads_view h d w)) j)); trivial.
  - now rewrite !column_length.
  - now rewrite column_length.
  - intros q Hq.
    assert (Hqh : q < h).
    { apply topk_col_bound in Hq. now rewrite column_length in Hq. }
    rewrite column_nth by exact Hqh. rewrite getQ_tabs.
    unfold Z1, zero_sel, getQ at 1. rewrite get_tabulate by assumption.
    fold (mh_sel h d k w j) in Hq.
    apply mem_In in Hq. rewrite Hq. reflexivity.
Qed.

(** C6.  For each of the three modes and a keep ratio [r] in (0,1], when
    one application of the engine to a matrix returns [out1], a second
    application with the same mode and ratio also returns, and its result is
    entrywise equal to [out1]. *)
Theorem prune_twice_is_prune_once (mode : PruneMode) (w : Tensor Q) (r : Q)
  (out1 : Tensor Q) :
  wf w -> (0 < r)%Q -> (r <= 1)%Q ->
  prune mode w r = Ok out1 ->
  exists out2, prune mode out1 r = Ok out2 /\ tensor_eq out2 out1.
Proof.
  intros Hwf H0 H1 Hp. destruct mode.
  - now apply (vanilla_idempotent w).
  - now apply (channel_idempotent w).
  - exact (heads_idempotent 12 (64 * 768) 768 768 w (py_sub 1 r) out1
             heads_numel Hp).
Qed.

Lemma prune_twice_is_prune_once_witness :
  exists out2,
    prune Channel (mkTensor 2 3 [3; -1; 2; 0; 0; 0]%Q) (1 # 2) = Ok out2 /\
    tensor_eq out2 (mkTensor 2 3 [3; -1; 2; 0; 0; 0]%Q).
Proof.
  apply (prune_twice_is_prune_once Channel
           (mkTensor 2 3 [3; -1; 2; 1 # 2; 0; -5]%Q) (1 # 2)).
  - reflexivity.
  - qcmp.
  - qcmp.
  - vm_compute. reflexivity.
Defined.

(** ** What the multi-head mode does to the head view *)

Lemma sparse_heads_cells (h d r c : nat) (v : Tensor Q) (ratio : Q) (k : nat) :
  h * d = r * c -> numel v = h * d ->
  topk_k ratio h = Ok (Z.of_nat k) -> k <= h ->
  exists (out : Tensor Q) (idx : Tensor nat),
    sparse_heads h d r c v ratio None = Ok (out, idx) /\
    (forall i j, i < h -> j < d ->
       getQ (heads_view h d out) i j
       = if mem i (mh_sel h d k v j) then 0%Q
         else getQ (heads_view h d v) i j) /\
    (forall w : Tensor Q, numel w = h * d ->
       exists outw : Tensor Q,
         sparse_heads h d r c w ratio (Some idx) = Ok (outw, idx) /\
         forall i j, i < h -> j < d ->
           getQ (heads_view h d outw) i j
           = if mem i (mh_sel h d k v j) then 0%Q
             else getQ (heads_view h d w) i j).
Proof.
  intros Hshape Hn Hk Hle.
  destruct (sparse_heads_eq h d r c Hshape v ratio k Hn Hk Hle)
    as (idx & He & Hshared).
  assert (Hcell : forall w i j, i < h -> j < d ->
            getQ (heads_view h d
                    (mkTensor r c
                       (storage (zero_sel (mh_sel h d k v)
                                   (heads_view h d w))))) i j
            = if mem i (mh_sel h d k v j) then 0%Q
              else getQ (heads_view h d w) i j).
  { intros w i j Hi Hj.
    change (heads_view h d (mkTensor r c (storage (zero_sel ?s ?t))))
      with (zero_sel (mh_sel h d k v) (heads_view h d w)).
    unfold zero_sel, getQ at 1. now rewrite get_tabulate. }
  eexists. exists idx. split; [exact He|]. split.
  - intros i j. apply Hcell.
  - intros w Hw. eexists. split; [now apply Hshared|].
    intros i j. apply Hcell.
Qed.

(** In the attention triple the indices ranked on the Value matrix are
    applied to Query and Key as well: the same cells of the three head
    views become zero. *)
Lemma multihead_slot_shares_cells (prune_type : list string)
  (prune_rate : list Q) (layer_now : nat) (L : Layer) (r : Q) :
  nth_error prune_type (layer_now * 4 + 0) = Some "multihead"%string ->
  nth_error prune_rate (layer_now * 4 + 0) = Some r ->
  (0 < r)%Q -> (r <= 1)%Q ->
  numel (self_query L) = 12 * (64 * 768) ->
  numel (self_key L) = 12 * (64 * 768) ->
  numel (self_value L) = 12 * (64 * 768) ->
  exists q k v,
    sparse_slot0 prune_type prune_rate layer_now L
    = Ok (mkLayer q k v (attention_output L) (intermediate L) (output L)) /\
    forall i j, i < 12 -> j < 64 * 768 ->
      let zeroed := mem i (mh_sel 12 (64 * 768) (k_f64 r 12) (self_value L) j) in
      getQ (heads_view 12 (64 * 768) q) i j
      = (if zeroed then 0%Q else getQ (heads_view 12 (64 * 768) (self_query L)) i j) /\
      getQ (heads_view 12 (64 * 768) k) i j
      = (if zeroed then 0%Q else getQ (heads_view 12 (64 * 768) (self_key L)) i j) /\
      getQ (heads_view 12 (64 * 768) v) i j
      = (if zeroed then 0%Q else getQ (heads_view 12 (64 * 768) (self_value L)) i j).
Proof.
  intros Ht Hr H0 H1 Hq Hk Hv.
  destruct (k_in_range r 12 H0 H1) as [Hkk Hle]; [reflexivity|].
  destruct (sparse_heads_cells 12 (64 * 768) 768 768 (self_value L)
              (py_sub 1 r) (k_f64 r 12) heads_numel Hv Hkk Hle)
    as (v & idx & Ev & Hcv & Hshared).
  destruct (Hshared (self_query L) Hq) as (q & Eq & Hcq).
  destruct (Hshared (self_key L) Hk) as (k & Ek & Hck).
  exists q, k, v. split.
  - unfold sparse_slot0, py_getitem. rewrite Ht, Hr.
    cbn [bind String.eqb Ascii.eqb Bool.eqb].
    unfold do_sparse_mh. rewrite Ev. cbn [bind]. rewrite Eq. cbn [bind].
    rewrite Ek. reflexivity.
  - intros i j Hi Hj. cbv zeta.
    rewrite Hcq, Hck, Hcv by assumption. now repeat split.
Qed.

Lemma w_heads_numel : numel w_heads = 12 * (64 * 768).
Proof. unfold numel, w_heads. cbn [size0 size1]. symmetry. apply heads_numel. Qed.

Lemma w_heads_cell (i j : nat) :
  i < 12 -> j < 64 * 768 ->
  getQ (heads_view 12 (64 * 768) w_heads) i j
  = if Nat.even (i * (64 * 768) + j)
    then (inject_Z (Z.of_nat i) + 1)%Q
    else (12 - inject_Z (Z.of_nat i))%Q.
Proof.
  intros Hi Hj. unfold getQ, get, heads_view, w_heads. cbn [size1 storage].
  rewrite nth_map_seq by lia. now rewrite cell_div.
Qed.

Lemma head_width_even : Nat.even (64 * 768) = true.
Proof. vm_compute. reflexivity. Qed.

Lemma w_heads_col0 (i : nat) :
  i < 12 ->
  getQ (heads_view 12 (64 * 768) w_heads) i 0 = (inject_Z (Z.of_nat i) + 1)%Q.
Proof.
  intros Hi. rewrite w_heads_cell by lia.
  now rewrite Nat.add_0_r, Nat.even_mul, head_width_even, orb_true_r.
Qed.

Lemma w_heads_col1 (i : nat) :
  i < 12 ->
  getQ (heads_view 12 (64 * 768) w_heads) i 1 = (12 - inject_Z (Z.of_nat i))%Q.
Proof.
  intros Hi. rewrite w_heads_cell by lia.
  now rewrite Nat.even_add, Nat.even_mul, head_width_even, orb_true_r.
Qed.

Lemma w_heads_sel0 :
  mh_sel 12 (64 * 768) 6 w_heads 0 = [0; 1; 2; 3; 4; 5].
Proof.
  unfold mh_sel.
  replace (column (tabs (heads_view 12 (64 * 768) w_heads)) 0)
    with (map (fun i => Qabs (inject_Z (Z.of_nat i) + 1)) (seq 0 12)).
  - vm_compute. reflexivity.
  - unfold column. cbn [tabs heads_view size0]. apply map_ext_in.
    intros i Hi. apply in_seq in Hi.
    change (mkTensor 12 (64 * 768) (map Qabs (storage w_heads)))
      with (tabs (heads_view 12 (64 * 768) w_heads)).
    rewrite getQ_tabs, w_heads_col0 by lia. reflexivity.
Qed.

Lemma w_heads_sel1 :
  mh_sel 12 (64 * 768) 6 w_heads 1 = [11; 10; 9; 8; 7; 6].
Proof.
  unfold mh_sel.
  replace (column (tabs (heads_view 12 (64 * 768) w_heads)) 1)
    with (map (fun i => Qabs (12 - inject_Z (Z.of_nat i))) (seq 0 12)).
  - vm_compute. reflexivity.
  - unfold column. cbn [tabs heads_view size0]. apply map_ext_in.
    intros i Hi. apply in_seq in Hi.
    change (mkTensor 12 (64 * 768) (map Qabs (storage w_heads)))
      with (tabs (heads_view 12 (64 * 768) w_heads)).
    rewrite getQ_tabs, w_heads_col1 by lia. reflexivity.
Qed.

(** C1, evaluated.  On [w_heads] at keep ratio 1/2 the multi-head mode
    returns a matrix in which no head is zeroed as a whole and no head is
    kept as a whole: in the first column of the head view the heads 0 to 5
    are zero and the heads 6 to 11 are kept, in the second column it is the
    other way round.  The ranking is made column by column on the absolute
    values, not once on the sums over each head. *)
Theorem multihead_splits_heads :
  exists (out : Tensor Q) (idx : Tensor nat),
    do_sparse_mh w_heads (1 - (1 # 2)) None = Ok (out, idx) /\
    map (fun h => getQ (heads_view 12 (64 * 768) out) h 0) (seq 0 12)
    = [0; 0; 0; 0; 0; 0; 7; 8; 9; 10; 11; 12]%Q /\
    map (fun h => getQ (heads_view 12 (64 * 768) out) h 1) (seq 0 12)
    = [12; 11; 10; 9; 8; 7; 0; 0; 0; 0; 0; 0]%Q.
Proof.
  destruct (sparse_heads_cells 12 (64 * 768) 768 768 w_heads (1 - (1 # 2)) 6
              heads_numel w_heads_numel)
    as (out & idx & He & Hc & _); [vm_compute; reflexivity | lia |].
  exists out, idx. split; [exact He|]. split.
  - transitivity (map (fun h => if mem h [0; 1; 2; 3; 4; 5] then 0%Q
                                else (inject_Z (Z.of_nat h) + 1)%Q) (seq 0 12)).
    + apply map_ext_in. intros i Hi. apply in_seq in Hi.
      rewrite Hc by lia. now rewrite w_heads_sel0, w_heads_col0 by lia.
    + vm_compute. reflexivity.
  - transitivity (map (fun h => if mem h [11; 10; 9; 8; 7; 6] then 0%Q
                                else (12 - inject_Z (Z.of_nat h))%Q) (seq 0 12)).
    + apply map_ext_in. intros i Hi. apply in_seq in Hi.
      rewrite Hc by lia. now rewrite w_heads_sel1, w_heads_col1 by lia.
    + vm_compute. reflexivity.
Qed.

(** ** When the engine raises *)

Lemma topk_raises (t : Tensor Q) (k : Z) :
  ~ (0 <= k <= Z.of_nat (size0 t))%Z -> topk t k = Raise RuntimeError.
Proof.
  intros Hk. unfold topk.
  destruct (Z.ltb_spec k 0); [reflexivity|].
  destruct (Z.ltb_spec (Z.of_nat (size0 t)) k); [reflexivity|]. lia.
Qed.

Lemma prune_in_range (mode : PruneMode) (w : Tensor Q) (r : Q) (k : Z) :
  fits mode w -> k_arg mode w r = Ok k ->
  (0 <= k <= Z.of_nat (rows_ranked mode w))%Z ->
  exists out, prune mode w r = Ok out.
Proof.
  intros Hfit Hk Hr. unfold k_arg, k_arg_of in Hk.
  assert (Hkz : topk_k (py_sub 1 r) (rows_ranked mode w)
                = Ok (Z.of_nat (Z.to_nat k)))
    by (rewrite Hk; f_equal; lia).
  assert (Hle : Z.to_nat k <= rows_ranked mode w) by lia.
  destruct mode; cbn [fits rows_ranked prune] in *.
  - eexists. now apply (do_sparse_eq w (py_sub 1 r) (Z.to_nat k)).
  - eexists. now apply (do_sparse_chn_eq w (py_sub 1 r) (Z.to_nat k)).
  - destruct (sparse_heads_eq 12 (64 * 768) 768 768 heads_numel w (py_sub 1 r)
                (Z.to_nat k) Hfit Hkz Hle) as (idx & He & _).
    eexists. unfold do_sparse_mh. rewrite He. reflexivity.
Qed.

Lemma prune_out_of_range (mode : PruneMode) (w : Tensor Q) (r : Q) (k : Z) :
  fits mode w -> k_arg mode w r = Ok k ->
  ~ (0 <= k <= Z.of_nat (rows_ranked mode w))%Z ->
  prune mode w r = Raise RuntimeError.
Proof.
  intros Hfit Hk Hr. unfold k_arg, k_arg_of in Hk.
  destruct mode; cbn [fits rows_ranked prune] in *.
  - unfold do_sparse, reshape_m1_1. cbv zeta. cbn [size0 size1].
    rewrite Hk. cbn [bind].
    rewrite topk_raises; [reflexivity | exact Hr].
  - unfold do_sparse_chn. cbv zeta. rewrite Hk. cbn [bind].
    destruct (cat1_row_sums w Hfit) as (new_w & Hcat & H0 & _).
    rewrite Hcat. cbn [bind].
    rewrite topk_raises; [reflexivity | now rewrite H0].
  - unfold do_sparse_mh, sparse_heads, reshape.
    rewrite Hfit, Nat.eqb_refl. cbn [bind]. cbv zeta. cbn [size0 size1].
    rewrite Hk. cbn [bind].
    rewrite topk_raises; [reflexivity | exact Hr].
Qed.

(** An infinite product is the exception of the call. *)
Lemma prune_overflow (mode : PruneMode) (w : Tensor Q) (r : Q) (e : Exn) :
  fits mode w -> k_arg mode w r = Raise e ->
  e = OverflowError /\ prune mode w r = Raise OverflowError.
Proof.
  intros Hfit Hk. unfold k_arg, k_arg_of in Hk.
  pose proof (topk_k_raises _ _ _ Hk) as ->. split; [reflexivity|].
  destruct mode; cbn [fits rows_ranked prune] in *.
  - unfold do_sparse, reshape_m1_1. cbv zeta. cbn [size0 size1].
    rewrite Hk. reflexivity.
  - unfold do_sparse_chn. cbv zeta. rewrite Hk. reflexivity.
  - unfold do_sparse_mh, sparse_heads, reshape.
    rewrite Hfit, Nat.eqb_refl. cbn [bind]. cbv zeta. cbn [size0 size1].
    rewrite Hk. reflexivity.
Qed.

(** C8, against the claim.  A keep ratio of 0, and one of 5/4, are outside
    (0,1], yet the engine returns normally: the first call zeroes the whole
    matrix, the second leaves it as it is. *)
Lemma prune_accepts_ratio_outside :
  ~ (0 < 0)%Q /\ ~ (5 # 4 <= 1)%Q /\
  prune Vanilla (mkTensor 1 2 [3; 4]%Q) 0 = Ok (mkTensor 1 2 [0; 0]%Q) /\
  prune Vanilla (mkTensor 1 2 [3; 4]%Q) (5 # 4) = Ok (mkTensor 1 2 [3; 4]%Q).
Proof.
  split; [qcmp|]. split; [qcmp|]. split; vm_compute; reflexivity.
Qed.

(** C8, amended.  The engine checks neither a mode-specific element count
    nor the ratio.  The multi-head mode raises (from [reshape]) on a matrix
    that does not hold 12*64*768 elements, whatever the ratio, and the
    channel mode raises (from [torch.cat]) on a matrix without columns,
    unless the computation of [k] has raised before.  On a matrix the mode
    fits, with [k = int((1 - keepRatio) * float(d))] as the doubles give it
    for the number [d] of ranked rows, the call raises [OverflowError] when
    the product is an infinity, raises (from [topk]) exactly when [k] is
    negative or exceeds [d], and returns a matrix otherwise; in particular
    it returns for every keep ratio in (0,1] when [d] is below 2^53. *)
Theorem prune_raises_only_from_torch (mode : PruneMode) (w : Tensor Q) (r : Q) :
  (numel w <> 12 * (64 * 768) -> prune MultiHead w r = Raise RuntimeError) /\
  (size1 w = 0 ->
     match k_arg Channel w r with
     | Ok _ => prune Channel w r = Raise RuntimeError
     | Raise e => prune Channel w r = Raise e
     end) /\
  (fits mode w ->
     match k_arg mode w r with
     | Ok k =>
         ((0 <= k <= Z.of_nat (rows_ranked mode w))%Z ->
            exists out, prune mode w r = Ok out) /\
         (~ (0 <= k <= Z.of_nat (rows_ranked mode w))%Z ->
            prune mode w r = Raise RuntimeError)
     | Raise e => e = OverflowError /\ prune mode w r = Raise OverflowError
     end /\
     ((0 < r)%Q -> (r <= 1)%Q -> (Z.of_nat (rows_ranked mode w) < 2 ^ 53)%Z ->
        exists out, prune mode w r = Ok out)).
Proof.
  split; [|split].
  - intros Hn. unfold prune, do_sparse_mh.
    now rewrite sparse_heads_shape.
  - intros Hz. unfold k_arg, k_arg_of. cbn [rows_ranked prune].
    destruct (topk_k (py_sub 1 r) (size0 w)) as [k|e] eqn:Ek.
    + exact (do_sparse_chn_no_column w (py_sub 1 r) k Hz Ek).
    + unfold do_sparse_chn. cbv zeta. rewrite Ek. reflexivity.
  - intros Hfit. split.
    + destruct (k_arg mode w r) as [k|e] eqn:Ek.
      * split; [now apply prune_in_range | now apply prune_out_of_range].
      * now apply prune_overflow.
    + intros H0 H1 Hd.
      destruct (k_in_range r (rows_ranked mode w) H0 H1 Hd) as [Hk Hle].
      apply (prune_in_range mode w r _ Hfit Hk). lia.
Qed.

Lemma prune_raises_only_from_torch_witness :
  prune MultiHead (mkTensor 1 2 [3; 4]%Q) (1 # 2) = Raise RuntimeError /\
  prune Channel (mkTensor 2 0 []) (1 # 2) = Raise RuntimeError /\
  prune Channel (mkTensor 1 2 [3; 4]%Q) (-1) = Raise RuntimeError /\
  prune Channel (mkTensor 2 1 [3; 4]%Q) (- (2 ^ 1023)) = Raise OverflowError /\
  exists out, prune Channel (mkTensor 1 2 [3; 4]%Q) (1 # 2) = Ok out.
Proof.
  pose proof (prune_raises_only_from_torch Channel (mkTensor 1 2 [3; 4]%Q) (-1))
    as (_ & _ & H1).
  pose proof (prune_raises_only_from_torch Channel (mkTensor 2 1 [3; 4]%Q)
                (- (2 ^ 1023))) as (_ & _ & H4).
  pose proof (prune_raises_only_from_torch Channel (mkTensor 1 2 [3; 4]%Q) (1 # 2))
    as (H2 & _ & H3).
  pose proof (prune_raises_only_from_torch Channel (mkTensor 2 0 []) (1 # 2))
    as (_ & H5 & _).
  split; [|split; [|split; [|split]]].
  - apply H2. unfold numel. cbn [size0 size1]. lia.
  - assert (Ek : k_arg Channel (mkTensor 2 0 []) (1 # 2) = Ok 1%Z)
      by (vm_compute; reflexivity).
    rewrite Ek in H5. apply H5. reflexivity.
  - destruct H1 as [H1 _]; [cbn; lia|].
    assert (Ek : k_arg Channel (mkTensor 1 2 [3; 4]%Q) (-1) = Ok 2%Z)
      by (vm_compute; reflexivity).
    rewrite Ek in H1. apply H1. cbn [rows_ranked size0]. lia.
  - destruct H4 as [H4 _]; [cbn; lia|].
    assert (Ek : k_arg Channel (mkTensor 2 1 [3; 4]%Q) (- (2 ^ 1023))
                 = Raise OverflowError)
      by (vm_compute; reflexivity).
    rewrite Ek in H4. apply H4.
  - apply H3; [cbn; lia | qcmp | qcmp | reflexivity].
Defined.

(** ** The rate balancer *)

Lemma py_getitem_nth {A} (l : list A) (i : nat) (d : A) :
  i < length l -> py_getitem l i = Ok (nth i l d).
Proof.
  intros Hi. unfold py_getitem.
  destruct (nth_error l i) as [x|] eqn:E.
  - now rewrite (nth_error_nth _ _ d E).
  - apply nth_error_None in E. lia.
Qed.









(** ** The pruning pass of the orchestrator *)

(** The fourth slot of a layer compares its type with ["chn"]: the type
    ["channel"], which selects channel pruning in the other three slots,
    leaves the output projection as it is. *)
Lemma output_slot_ignores_channel (prune_type : list string)
  (prune_rate : list Q) (slot : nat) (w : Tensor Q) :
  nth_error prune_type slot = Some "channel"%string ->
  sparse_single "chn" prune_type prune_rate slot w = Ok w.
Proof.
  intros H. unfold sparse_single, py_getitem. rewrite H. reflexivity.
Qed.

(** C2, evaluated.  With the type ["channel"] and the rate 1/2 in all 48
    slots, one pruning pass over twelve layers of 2x2 matrices prunes the
    first row of the attention triple, of the attention output and of the
    intermediate matrix of every layer, and returns every output projection
    unchanged, although channel pruning of that matrix at the same rate
    would zero its first row. *)
Theorem channel_not_applied_to_output :
  sparse_pass all_channel all_half (repeat layer_small 12)
  = Ok (repeat (mkLayer w_small_pruned w_small_pruned w_small_pruned
                  w_small_pruned w_small_pruned w_small) 12)
  /\ prune Channel w_small (1 # 2) = Ok w_small_pruned
  /\ w_small_pruned <> w_small.
Proof.
  split; [vm_compute; reflexivity|].
  split; [vm_compute; reflexivity|].
  discriminate.
Qed.

(** ** The metric helper *)

Lemma fl_div_fin (x y : R) : y <> 0%R -> fl_div (Fin x) (Fin y) = Fin (x / y).
Proof.
  intros Hy. unfold fl_div. destruct (Req_dec_T y 0); [contradiction | reflexivity].
Qed.

Lemma fl_div_zero_zero : fl_div (Fin 0) (Fin 0) = NaN.
Proof.
  unfold fl_div. destruct (Req_dec_T 0 0) as [_|H]; [reflexivity | now elim H].
Qed.

Lemma fl_add_fin (x y : R) : fl_add (Fin x) (Fin y) = Fin (x + y).
Proof. reflexivity. Qed.

Lemma fl_add_nan_r (a : npfloat) : fl_add a NaN = NaN.
Proof. now destruct a. Qed.

Lemma fl_add_nan_l (a : npfloat) : fl_add NaN a = NaN.
Proof. reflexivity. Qed.

Lemma fl_ne_nan (a : npfloat) : fl_ne a a = true <-> a = NaN.
Proof.
  destruct a as [| | |x]; cbn; try (split; congruence).
  destruct (Req_dec_T x x); split; congruence.
Qed.

(** The four confusion counts and the number of hits of a batch in which
    every prediction is its label, in terms of the labels alone. *)
Lemma dot_same (f g : Z -> Z) (l : list Z) :
  dot f g l l = zsum (map (fun x => f x * g x)%Z l).
Proof.
  unfold dot. induction l as [|x l IH]; simpl; [reflexivity|].
  unfold zsum in *. simpl. now rewrite IH.
Qed.

Lemma zsum_binary (l : list Z) :
  Forall (fun x => x = 0 \/ x = 1)%Z l ->
  zsum (map (fun x => x * x)%Z l) = zsum l /\
  zsum (map (fun x => (1 - x) * (1 - x))%Z l) = (Z.of_nat (length l) - zsum l)%Z /\
  zsum (map (fun x => x * (1 - x))%Z l) = 0%Z /\
  zsum (map (fun x => (1 - x) * x)%Z l) = 0%Z /\
  (0 <= zsum l <= Z.of_nat (length l))%Z.
Proof.
  induction 1 as [|x l Hx Hl IH]; [now cbn|].
  destruct IH as (I1 & I2 & I3 & I4 & I5).
  cbn [map zsum fold_right length] in *. fold (zsum l) in *.
  unfold zsum in *. rewrite I1, I2, I3, I4.
  destruct Hx as [-> | ->]; lia.
Qed.

Lemma zsum_hits (l : list Z) :
  zsum (map (fun '(o, x) => if (o =? x)%Z then 1 else 0)%Z (combine l l))
  = Z.of_nat (length l).
Proof.
  induction l as [|x l IH]; [reflexivity|].
  cbn [combine map zsum fold_right length]. unfold zsum in IH. rewrite IH.
  rewrite Z.eqb_refl. lia.
Qed.

(** A batch of a two-class task in which every prediction is its label:
    [pos] positive and [neg] negative examples. *)
Lemma accuracy_all_correct (out : list (list Q)) (labels : list Z) :
  map (fun r => Z.of_nat (argmax r)) out = labels ->
  Forall (fun x => x = 0 \/ x = 1)%Z labels ->
  let pos := zsum labels in
  let neg := (Z.of_nat (length labels) - zsum labels)%Z in
  accuracy out labels
  = (Z.of_nat (length labels),
     if ((pos =? 0) || (neg =? 0))%Z then NaN else Fin 1).
Proof.
  intros Hpred Hbin. unfold accuracy. cbv zeta. rewrite Hpred.
  rewrite !dot_same, zsum_hits.
  destruct (zsum_binary labels Hbin) as (E1 & E2 & E3 & E4 & Hr).
  rewrite E1, E2, E3, E4. f_equal.
  rewrite Z.mul_0_l, Z.sub_0_r, !Z.add_0_r.
  set (pos := zsum labels) in *.
  set (neg := (Z.of_nat (length labels) - pos)%Z) in *.
  assert (Hneg : (0 <= neg)%Z) by (unfold neg; lia).
  assert (Hpos : (0 <= pos)%Z) by lia.
  clearbody neg pos.
  unfold pow_half, of_int.
  replace (pos * pos * neg * neg <? 0)%Z with false by (symmetry; apply Z.ltb_ge; nia).
  replace (pos * pos * neg * neg)%Z with ((pos * neg) * (pos * neg))%Z by ring.
  rewrite (mult_IZR (pos * neg) (pos * neg)), sqrt_square by (apply IZR_le; nia).
  destruct ((pos =? 0) || (neg =? 0))%Z eqn:E.
  - replace (pos * neg)%Z with 0%Z by (apply orb_true_iff in E; nia).
    apply fl_div_zero_zero.
  - apply orb_false_iff in E. destruct E as [Ep En].
    apply Z.eqb_neq in Ep, En.
    assert (Hnz : IZR (pos * neg) <> 0%R) by (apply not_0_IZR; nia).
    rewrite fl_div_fin by exact Hnz. f_equal. now field.
Qed.

(** ** The orchestrator: what a step may change *)

Section Respects.

Context {Rest : Type}.
Variable P : World Rest -> World Rest -> Prop.
Hypothesis P_refl : forall w, P w w.
Hypothesis P_trans : forall a b c, P a b -> P b c -> P a c.

Lemma respects_ret {A} (a : A) : respects P (ret a).
Proof. intros w. apply P_refl. Qed.

Lemma respects_lift {A} (r : Result A) : respects P (lift r).
Proof. intros w. apply P_refl. Qed.

Lemma respects_get_obj (p : nat) : respects P (get_obj p).
Proof. intros w. apply P_refl. Qed.

Lemma respects_bind {A B} (m : M Rest A) (f : A -> M Rest B) :
  respects P m -> (forall a, respects P (f a)) -> respects P (bindM m f).
Proof.
  intros Hm Hf w. unfold bindM. specialize (Hm w).
  destruct (m w) as [[a|e] w']; cbn [snd] in *.
  - eapply P_trans; [exact Hm | apply Hf].
  - exact Hm.
Qed.

Lemma respects_for_eachM {X S} (l : list X) (body : X -> S -> M Rest S) (s : S) :
  (forall x s, respects P (body x s)) -> respects P (for_eachM l body s).
Proof.
  intros Hb. revert s. induction l as [|x l IH]; intros s; cbn [for_eachM].
  - apply respects_ret.
  - apply respects_bind; [apply Hb | exact IH].
Qed.

End Respects.

Lemma untouched_refl {Rest} (n0 : nat) (w : World Rest) : untouched_below n0 w w.
Proof. intros H. split; [exact H | reflexivity]. Qed.

Lemma untouched_trans {Rest} (n0 : nat) (a b c : World Rest) :
  untouched_below n0 a b -> untouched_below n0 b c -> untouched_below n0 a c.
Proof.
  intros Hab Hbc Ha. destruct (Hab Ha) as [Hb Eb]. destruct (Hbc Hb) as [Hc Ec].
  split; [exact Hc|]. intros p Hp. now rewrite Ec, Eb.
Qed.

Lemma silent_refl {Rest} (w : World Rest) : silent w w.
Proof. now split. Qed.

Lemma silent_trans {Rest} (a b c : World Rest) :
  silent a b -> silent b c -> silent a c.
Proof. intros [H1 H2] [H3 H4]. split; congruence. Qed.

Lemma set_obj_untouched {Rest} (n0 q : nat) (m : BertModel Rest) :
  n0 <= q -> respects (untouched_below n0) (set_obj q m).
Proof.
  intros Hq w Hn. cbn. split; [exact Hn|]. intros p Hp.
  destruct (Nat.eqb_spec p q); [lia | reflexivity].
Qed.

Lemma set_obj_silent {Rest} (q : nat) (m : BertModel Rest) :
  respects silent (set_obj q m).
Proof. intros w. now split. Qed.

Lemma report_untouched {Rest} (n0 : nat) (s : npfloat) :
  respects (untouched_below (Rest := Rest) n0) (report_intermediate_result s).
Proof. intros w Hn. cbn. now split. Qed.

(** Splits a sequenced step; the pure steps are discharged on the spot. *)
Ltac rbind :=
  apply respects_bind; trivial;
  try solve [ apply respects_get_obj; trivial
            | apply respects_lift; trivial
            | intros; apply respects_ret; trivial ].

Section OrchestratorFacts.

Variables Rest Opt Batch EvalInput : Type.
Variable make_optimizer : BertModel Rest -> Opt.
Variable train_step :
  list string -> list Q -> nat -> Batch -> BertModel Rest * Opt -> BertModel Rest * Opt.
Variable forward : list string -> list Q -> BertModel Rest -> EvalInput -> list (list Q).

(** One training iteration writes to the object [model] only and reports
    nothing. *)
Lemma train_iteration_respects (P : World Rest -> World Rest -> Prop)
  (model : nat) (prune_type : list string) (prune_rate : list Q)
  (step : nat) (batch : Batch) (optimizer : Opt) :
  (forall w, P w w) -> (forall a b c, P a b -> P b c -> P a c) ->
  (forall m, respects P (set_obj model m)) ->
  respects P (train_iteration train_step model prune_type prune_rate step
                batch optimizer).
Proof.
  intros Hr Ht Hset. unfold train_iteration.
  rbind. intros m.
  destruct (train_step prune_type prune_rate step batch (m, optimizer))
    as [m' optimizer'].
  rbind. intros _. rbind.
  apply respects_for_eachM; trivial. intros layer_now _.
  rbind. intros m2. rbind.
Qed.

Lemma training_loop_respects (P : World Rest -> World Rest -> Prop)
  (model : nat) (prune_type : list string) (prune_rate : list Q)
  (batches : list (nat * Batch)) (st : Opt * option nat) :
  (forall w, P w w) -> (forall a b c, P a b -> P b c -> P a c) ->
  (forall m, respects P (set_obj model m)) ->
  respects P
    (for_eachM batches
       (fun '(step, batch) '(optimizer, _) =>
          bindM (train_iteration train_step model prune_type prune_rate step
                   batch optimizer)
                (fun optimizer => ret (optimizer, Some step)))
       st).
Proof.
  intros Hr Ht Hset. apply respects_for_eachM; trivial.
  intros [step batch] [optimizer o].
  rbind. now apply train_iteration_respects.
Qed.

Lemma epoch_untouched (n0 : nat) (self : prune_function Batch EvalInput)
  (model : nat) (prune_type : list string) (prune_rate : list Q)
  (epoch_i : nat) (st : Opt * option nat * npfloat) :
  n0 <= model ->
  respects (untouched_below n0)
    (epoch train_step forward self model prune_type prune_rate epoch_i st).
Proof.
  intros Hm. unfold epoch. destruct st as [[optimizer step] best_acc].
  pose proof (@untouched_refl Rest n0) as Hr.
  pose proof (@untouched_trans Rest n0) as Ht.
  rbind.
  { apply training_loop_respects; trivial.
    intros m. now apply set_obj_untouched. }
  intros [optimizer' step']. rbind. intros _. rbind. intros m.
  rbind. intros [acc mc]. rbind.
Qed.

(** C10.  [eval_after_train] works on the object made by [deepcopy]: in
    the world it leaves, whether it returns or raises, every object that
    existed before the call, the stored [self.model] among them, is what
    it was. *)
Theorem eval_after_train_keeps_self_model
  (self : prune_function Batch EvalInput)
  (prune_type : list string) (prune_rate : list Q) (w : World Rest) :
  self_model self < next w ->
  heap (snd (eval_after_train make_optimizer train_step forward self
               prune_type prune_rate w)) (self_model self)
  = heap w (self_model self).
Proof.
  intros Halloc. unfold eval_after_train.
  unfold bindM at 1, deepcopy. cbv beta iota.
  set (w1 := mkWorld _ (S (next w)) (nni_log w) (nni_final w)).
  match goal with |- context [snd (?k w1)] => set (rest_of_run := k) end.
  assert (Hrest : respects (untouched_below (next w)) rest_of_run).
  { unfold rest_of_run.
    pose proof (@untouched_refl Rest (next w)) as Hr.
    pose proof (@untouched_trans Rest (next w)) as Ht.
    rbind. intros m. rbind; [|intros [[? ?] ?]; now apply respects_ret].
    apply respects_for_eachM; trivial. intros epoch_i st.
    now apply epoch_untouched. }
  destruct (Hrest w1) as [_ Hheap]; [cbn; lia|].
  rewrite Hheap by exact Halloc. cbn.
  destruct (Nat.eqb_spec (self_model self) (next w)); [lia | reflexivity].
Qed.

End OrchestratorFacts.

Lemma eval_after_train_keeps_self_model_witness :
  heap (snd (tiny_run [[0; 1]; [1; 0]]%Q [1; 0]%Z)) 0 = tiny_model.
Proof.
  unfold tiny_run.
  apply (eval_after_train_keeps_self_model unit unit unit unit
           (fun _ => tt) (fun _ _ _ _ s => s) (fun _ _ _ _ => [[0; 1]; [1; 0]]%Q)
           (tiny_self 1 [1; 0]%Z) (repeat "vanilla"%string 48)
           (repeat (1 # 2)%Q 48) tiny_world).
  cbn. lia.
Defined.

(** ** The order used to keep the best score *)

Ltac fl_cases :=
  repeat match goal with
         | a : npfloat |- _ => destruct a
         end;
  cbn in *; try congruence;
  repeat match goal with
         | |- context [Rlt_dec ?x ?y] => destruct (Rlt_dec x y)
         | H : context [Rlt_dec ?x ?y] |- _ => destruct (Rlt_dec x y)
         end;
  try congruence; try lra.

Lemma fl_gt_irrefl (a : npfloat) : fl_gt a a = false.
Proof. fl_cases. Qed.

Lemma fl_gt_asym (a b : npfloat) : fl_gt a b = true -> fl_gt b a = false.
Proof. fl_cases. Qed.

Lemma fl_gt_not_nan (a b : npfloat) : fl_gt a b = true -> a <> NaN.
Proof. fl_cases. Qed.

(** [s <= b <= b'] gives [s <= b'], where [x <= y] reads [fl_gt x y = false]
    and the two bounds are numbers. *)
Lemma fl_gt_mono (s b b' : npfloat) :
  b <> NaN -> b' <> NaN ->
  fl_gt s b = false -> fl_gt b b' = false -> fl_gt s b' = false.
Proof. fl_cases. Qed.

Lemma update_best_props (b s : npfloat) :
  b <> NaN ->
  update_best b s <> NaN /\ fl_gt s (update_best b s) = false /\
  fl_gt b (update_best b s) = false /\
  (update_best b s = b \/ update_best b s = s).
Proof.
  intros Hb. unfold update_best. destruct (fl_gt s b) eqn:E.
  - split; [now apply (fl_gt_not_nan s b)|].
    split; [apply fl_gt_irrefl|]. split; [now apply fl_gt_asym | now right].
  - split; [exact Hb|]. split; [exact E|].
    split; [apply fl_gt_irrefl | now left].
Qed.

(** What the loop over the epochs keeps in [best_acc]. *)
Lemma running_best (scores : list npfloat) (b0 : npfloat) :
  b0 <> NaN ->
  let best := fold_left update_best scores b0 in
  best <> NaN /\ fl_gt b0 best = false /\
  (forall s, In s scores -> fl_gt s best = false) /\
  (best = b0 \/ In best scores).
Proof.
  revert b0. induction scores as [|s scores IH]; intros b0 Hb; cbn [fold_left].
  - split; [exact Hb|]. split; [apply fl_gt_irrefl|]. split; [now intros|now left].
  - destruct (update_best_props b0 s Hb) as (Hn & Hs & Hb0 & Hor).
    destruct (IH (update_best b0 s) Hn) as (In1 & In2 & In3 & In4).
    split; [exact In1|]. split; [now apply (fl_gt_mono b0 (update_best b0 s))|].
    split.
    + intros x [E|Hx]; [subst x; now apply (fl_gt_mono s (update_best b0 s)) | now apply In3].
    + destruct In4 as [E|Hin]; [|right; now right].
      destruct Hor as [E'|E']; [left; congruence | right; left; congruence].
Qed.

(** ** Evaluation *)

Section EvaluationFacts.

Variables Rest Batch EvalInput : Type.
Variable forward : list string -> list Q -> BertModel Rest -> EvalInput -> list (list Q).
Variable self : prune_function Batch EvalInput.
Variables (prune_type : list string) (prune_rate : list Q) (m : BertModel Rest).

Lemma eval_fold_steps (batches : list (EvalInput * list Z)) (st : Z * npfloat * Z * Z) :
  snd (fst (fold_left (eval_step forward prune_type prune_rate m) batches st))
  = (snd (fst st) + Z.of_nat (length batches))%Z.
Proof.
  revert st. induction batches as [|[x labels] bs IH]; intros st; cbn [fold_left length].
  - lia.
  - rewrite IH. destruct st as [[[a c] n] e]. unfold eval_step.
    destruct (accuracy _ _). cbn [fst snd]. lia.
Qed.

(** A NaN correlation is no error: the evaluation fails only on an empty
    evaluation set, where Python divides by a zero count of steps. *)
Lemma evaluate_returns :
  eval_dataloader self <> [] ->
  exists acc mc, evaluate forward self prune_type prune_rate m = Ok (acc, mc).
Proof.
  intros Hne. unfold evaluate.
  pose proof (eval_fold_steps (eval_dataloader self) (0%Z, of_int 0, 0%Z, 0%Z)) as Hs.
  destruct (fold_left _ _ _) as [[[a c] n] e]. cbn [fst snd] in Hs.
  destruct (eval_dataloader self) as [|b bs]; [congruence|].
  cbn [length] in Hs.
  replace (n =? 0)%Z with false by (symmetry; apply Z.eqb_neq; lia).
  now eexists; eexists.
Qed.

(** The evaluation loop on batches whose predictions are all correct. *)
Lemma eval_fold_all_correct (batches : list (EvalInput * list Z))
  (a : Z) (c : npfloat) (n e : Z) :
  Forall (fun b =>
            map (fun r => Z.of_nat (argmax r))
                (forward prune_type prune_rate m (fst b)) = snd b /\
            Forall (fun x => x = 0 \/ x = 1)%Z (snd b)) batches ->
  fold_left (eval_step forward prune_type prune_rate m) batches (a, c, n, e)
  = ((a + total_examples batches)%Z,
     fold_left fl_add (map (fun b => mc_all_correct (snd b)) batches) c,
     (n + Z.of_nat (length batches))%Z,
     (e + total_examples batches)%Z).
Proof.
  intros H. revert a c n e.
  induction H as [|[x labels] bs [Hp Hb] _ IH]; intros a c n e.
  - cbn. now rewrite !Z.add_0_r.
  - cbn [fold_left map length]. unfold eval_step at 2. cbn [fst snd] in *.
    rewrite (accuracy_all_correct _ labels Hp Hb). rewrite IH.
    unfold total_examples, mc_all_correct, zsum. cbn [map fold_right snd].
    replace (n + 1 + Z.of_nat (length bs))%Z
      with (n + Z.of_nat (S (length bs)))%Z by lia.
    now rewrite <- !Z.add_assoc.
Qed.

End EvaluationFacts.

Lemma fold_fl_add_ones (l : list npfloat) (x : R) :
  Forall (fun c => c = Fin 1) l ->
  fold_left fl_add l (Fin x) = Fin (x + IZR (Z.of_nat (length l))).
Proof.
  intros H. revert x. induction H as [|c l -> _ IH]; intros x; cbn [fold_left length].
  - cbn. f_equal. lra.
  - rewrite fl_add_fin, IH. f_equal. rewrite Nat2Z.inj_succ, succ_IZR. lra.
Qed.

Lemma fold_fl_add_nan (l : list npfloat) : fold_left fl_add l NaN = NaN.
Proof. induction l as [|c l IH]; [reflexivity | exact IH]. Qed.

Lemma fold_fl_add_has_nan (l : list npfloat) (c : npfloat) :
  In NaN l -> fold_left fl_add l c = NaN.
Proof.
  revert c. induction l as [|d l IH]; intros c Hin; [contradiction|].
  cbn [fold_left]. destruct Hin as [->|Hin].
  - rewrite fl_add_nan_r. apply fold_fl_add_nan.
  - now apply IH.
Qed.

Lemma has_positive (labels : list Z) :
  Forall (fun x => x = 0 \/ x = 1)%Z labels ->
  (In 1%Z labels <-> zsum labels <> 0%Z).
Proof.
  induction 1 as [|x l Hx Hl IH].
  - cbn. split; [contradiction | lia].
  - destruct (zsum_binary l Hl) as (_ & _ & _ & _ & Hr).
    cbn [In zsum fold_right]. fold (zsum l).
    destruct Hx as [-> | ->].
    + rewrite Z.add_0_l, <- IH. split; [intros [H|H]; [discriminate H | exact H] | now right].
    + split; [lia | now left].
Qed.

Lemma has_negative (labels : list Z) :
  Forall (fun x => x = 0 \/ x = 1)%Z labels ->
  (In 0%Z labels <-> Z.of_nat (length labels) - zsum labels <> 0)%Z.
Proof.
  induction 1 as [|x l Hx Hl IH].
  - cbn. split; [contradiction | lia].
  - destruct (zsum_binary l Hl) as (_ & _ & _ & _ & Hr).
    cbn [In zsum fold_right length]. fold (zsum l).
    destruct Hx as [-> | ->].
    + split; [lia | now left].
    + split.
      * intros [H|H]; [discriminate H | apply IH in H; lia].
      * intros H. right. apply IH. lia.
Qed.

Lemma both_classes (labels : list Z) :
  Forall (fun x => x = 0 \/ x = 1)%Z labels ->
  (In 0%Z labels /\ In 1%Z labels -> mc_all_correct labels = Fin 1) /\
  (~ (In 0%Z labels /\ In 1%Z labels) -> mc_all_correct labels = NaN).
Proof.
  intros Hb. pose proof (has_positive labels Hb) as H1.
  pose proof (has_negative labels Hb) as H0. unfold mc_all_correct.
  destruct (Z.eqb_spec (zsum labels) 0) as [E1|E1];
    destruct (Z.eqb_spec (Z.of_nat (length labels) - zsum labels) 0) as [E0|E0];
    cbn [orb]; split; intros H; try reflexivity; exfalso; tauto.
Qed.

(** Closed instances of [all_predictions_correct] and [two_classes]. *)
Ltac labelled :=
  unfold all_predictions_correct, two_classes; cbn;
  repeat first [ apply Forall_nil | apply Forall_cons | split | reflexivity
               | left; reflexivity | right; reflexivity
               | right; left; reflexivity ].

Lemma evaluate_all_correct {Rest Batch EvalInput}
  (forward : list string -> list Q -> BertModel Rest -> EvalInput -> list (list Q))
  (self : prune_function Batch EvalInput) (prune_type : list string)
  (prune_rate : list Q) (m : BertModel Rest) :
  all_predictions_correct forward prune_type prune_rate m (eval_dataloader self) ->
  (0 < total_examples (eval_dataloader self))%Z ->
  evaluate forward self prune_type prune_rate m
  = Ok (Fin 1,
        fl_div (fold_left fl_add
                  (map (fun b => mc_all_correct (snd b)) (eval_dataloader self))
                  (Fin 0))
               (Fin (IZR (Z.of_nat (length (eval_dataloader self)))))).
Proof.
  intros Hc Hpos. unfold evaluate.
  rewrite eval_fold_all_correct by exact Hc.
  rewrite !Z.add_0_l.
  assert (Hlen : (0 < Z.of_nat (length (eval_dataloader self)))%Z).
  { destruct (eval_dataloader self); [discriminate Hpos | cbn; lia]. }
  replace (Z.of_nat (length (eval_dataloader self)) =? 0)%Z with false
    by (symmetry; apply Z.eqb_neq; lia).
  unfold of_int. f_equal. f_equal.
  assert (Hnz : IZR (total_examples (eval_dataloader self)) <> 0%R)
    by (apply not_0_IZR; lia).
  rewrite fl_div_fin by exact Hnz. f_equal. now field.
Qed.

(** C9, against the claim.  An evaluation set of one batch of two positive
    examples, both predicted positive: every prediction is its label, the
    accuracy is 1, and the correlation is NaN, not 1. *)
Lemma all_correct_one_class_gives_nan :
  all_predictions_correct (fun _ _ _ _ => [[0; 1]; [0; 1]]%Q) [] [] tiny_model
    (eval_dataloader (tiny_self 1 [1; 1]%Z)) /\
  evaluate (fun _ _ _ _ => [[0; 1]; [0; 1]]%Q) (tiny_self 1 [1; 1]%Z) [] [] tiny_model
  = Ok (Fin 1, NaN) /\
  NaN <> Fin 1.
Proof.
  assert (Hc : all_predictions_correct (fun _ _ _ _ => [[0; 1]; [0; 1]]%Q) [] []
                 tiny_model (eval_dataloader (tiny_self 1 [1; 1]%Z))).
  { labelled. }
  split; [exact Hc|]. split; [|discriminate].
  rewrite (evaluate_all_correct _ _ _ _ _ Hc) by reflexivity.
  reflexivity.
Qed.

(** C9, amended.  In an evaluation epoch of a two-class task with at least
    one example in which every prediction is its label, the accuracy is 1.
    The correlation is 1 when every batch holds an example of each class;
    when some batch holds one class only, the correlation of the epoch is
    NaN, and the score of the epoch is then 0 for the task ["cola"]. *)
Theorem all_correct_epoch_scores {Rest Batch EvalInput}
  (forward : list string -> list Q -> BertModel Rest -> EvalInput -> list (list Q))
  (self : prune_function Batch EvalInput) (prune_type : list string)
  (prune_rate : list Q) (m : BertModel Rest) :
  all_predictions_correct forward prune_type prune_rate m (eval_dataloader self) ->
  (0 < total_examples (eval_dataloader self))%Z ->
  exists mc,
    evaluate forward self prune_type prune_rate m = Ok (Fin 1, mc) /\
    (Forall (fun b => two_classes (snd b)) (eval_dataloader self) -> mc = Fin 1) /\
    (Exists (fun b => ~ two_classes (snd b)) (eval_dataloader self) ->
       mc = NaN /\
       (task_name self = "cola"%string -> epoch_score self (Fin 1) mc = Fin 0)).
Proof.
  intros Hc Hpos. eexists. split; [now apply evaluate_all_correct|].
  assert (Hbin : Forall (fun b => Forall (fun x => x = 0 \/ x = 1)%Z (snd b))
                   (eval_dataloader self)).
  { eapply Forall_impl; [|exact Hc]. now intros b [_ H]. }
  split.
  - intros Hall. rewrite fold_fl_add_ones.
    + rewrite length_map.
      assert (Hlen : (0 < Z.of_nat (length (eval_dataloader self)))%Z).
      { destruct (eval_dataloader self); [discriminate Hpos | cbn; lia]. }
      assert (Hnz : IZR (Z.of_nat (length (eval_dataloader self))) <> 0%R)
        by (apply not_0_IZR; lia).
      rewrite fl_div_fin by exact Hnz. f_equal. now field.
    + apply Forall_map. rewrite Forall_forall in *. intros b Hb.
      now apply (both_classes (snd b) (Hbin b Hb)), Hall.
  - intros Hex.
    assert (Hnan : fold_left fl_add
                     (map (fun b => mc_all_correct (snd b)) (eval_dataloader self))
                     (Fin 0) = NaN).
    { apply fold_fl_add_has_nan. apply Exists_exists in Hex.
      destruct Hex as [b [Hb Hn]]. apply in_map_iff. exists b.
      split; [|exact Hb]. rewrite Forall_forall in Hbin.
      now apply (both_classes (snd b) (Hbin b Hb)). }
    rewrite Hnan. split; [reflexivity|].
    intros Ht. unfold epoch_score. rewrite Ht. reflexivity.
Qed.

Lemma all_correct_epoch_scores_witness :
  exists mc,
    evaluate (fun _ _ _ _ => [[0; 1]; [1; 0]]%Q) (tiny_self 1 [1; 0]%Z) [] [] tiny_model
    = Ok (Fin 1, mc) /\ mc = Fin 1.
Proof.
  destruct (all_correct_epoch_scores (fun _ _ _ _ => [[0; 1]; [1; 0]]%Q)
              (tiny_self 1 [1; 0]%Z) [] [] tiny_model)
    as (mc & He & Hone & _).
  - labelled.
  - reflexivity.
  - exists mc. split; [exact He|]. apply Hone. labelled.
Defined.

(** ** The scores of a run *)

Lemma epoch_score_cases {Batch EvalInput} (self : prune_function Batch EvalInput)
  (eval_accuracy eval_mc : npfloat) :
  epoch_score self eval_accuracy eval_mc
  = if (task_name self =? "cola")%string
    then match eval_mc with NaN => Fin 0 | _ => eval_mc end
    else eval_accuracy.
Proof.
  unfold epoch_score. destruct (task_name self =? "cola")%string; [|reflexivity].
  destruct eval_mc as [| | |x]; try reflexivity.
  cbn. destruct (Req_dec_T x x); [reflexivity | congruence].
Qed.

Section RunFacts.

Variables Rest Opt Batch EvalInput : Type.
Variable make_optimizer : BertModel Rest -> Opt.
Variable train_step :
  list string -> list Q -> nat -> Batch -> BertModel Rest * Opt -> BertModel Rest * Opt.
Variable forward : list string -> list Q -> BertModel Rest -> EvalInput -> list (list Q).
Variable self : prune_function Batch EvalInput.
Variables (prune_type : list string) (prune_rate : list Q).

(** A score that some evaluation of the run produced. *)
Let scored (s : npfloat) : Prop :=
  exists m eval_accuracy eval_mc,
    evaluate forward self prune_type prune_rate m = Ok (eval_accuracy, eval_mc) /\
    s = epoch_score self eval_accuracy eval_mc.

Lemma epoch_outcome (model epoch_i : nat) (st st' : Opt * option nat * npfloat)
  (w w' : World Rest) :
  epoch train_step forward self model prune_type prune_rate epoch_i st w
  = (Ok st', w') ->
  exists s, scored s /\ nni_log w' = nni_log w ++ [s] /\
            nni_final w' = nni_final w /\
            snd st' = update_best (snd st) s.
Proof.
  unfold epoch. destruct st as [[optimizer step] best_acc].
  unfold bindM at 1.
  match goal with |- context [for_eachM ?l ?b ?s w] =>
    pose proof (training_loop_respects Rest Opt Batch train_step silent model
                  prune_type prune_rate l s (@silent_refl Rest)
                  (@silent_trans Rest) (set_obj_silent model) w) as Hs;
    destruct (for_eachM l b s w) as [[[optimizer' step']|e] w1]
  end; [|discriminate].
  cbn [snd] in Hs. destruct Hs as [Hlog Hfin].
  destruct step' as [step'|]; [|discriminate].
  unfold bindM, lift, get_obj.
  destruct (evaluate forward self prune_type prune_rate (heap w1 model))
    as [[eval_accuracy eval_mc]|e] eqn:E; [|discriminate].
  cbn. intros H. injection H as <- <-. cbn.
  eexists. split; [exists (heap w1 model), eval_accuracy, eval_mc; now split|].
  now rewrite Hlog, Hfin.
Qed.

Lemma epochs_outcome (model : nat) (l : list nat)
  (st st' : Opt * option nat * npfloat) (w w' : World Rest) :
  for_eachM l (epoch train_step forward self model prune_type prune_rate) st w
  = (Ok st', w') ->
  exists scores,
    Forall scored scores /\ length scores = length l /\
    nni_log w' = nni_log w ++ scores /\ nni_final w' = nni_final w /\
    snd st' = fold_left update_best scores (snd st).
Proof.
  revert st w. induction l as [|i l IH]; intros st w; cbn [for_eachM].
  - intros H. injection H as <- <-. exists []. cbn.
    now rewrite app_nil_r.
  - unfold bindM at 1.
    destruct (epoch _ _ _ _ _ _ _ _ _) as [[st1|e] w1] eqn:E; [|discriminate].
    intros H. apply epoch_outcome in E. destruct E as (s & Hs & Hlog & Hfin & Hb).
    apply IH in H. destruct H as (scores & Hsc & Hlen & Hlog' & Hfin' & Hb').
    exists (s :: scores). split; [now constructor|].
    split; [cbn; lia|]. split; [|split].
    + rewrite Hlog', Hlog, <- app_assoc. reflexivity.
    + congruence.
    + cbn [fold_left]. now rewrite <- Hb.
Qed.

Lemma eval_after_train_outcome (best : npfloat) (w w' : World Rest) :
  eval_after_train make_optimizer train_step forward self prune_type prune_rate w
  = (Ok best, w') ->
  exists scores,
    Forall scored scores /\
    length scores = Z.to_nat (py_int (num_train_epochs self)) /\
    nni_log w' = nni_log w ++ scores /\ nni_final w' = nni_final w /\
    best = fold_left update_best scores (Fin 0).
Proof.
  unfold eval_after_train. unfold bindM at 1, deepcopy. cbv beta iota.
  unfold bindM at 1, get_obj. cbv beta iota. unfold bindM at 1.
  destruct (for_eachM _ _ _ _) as [[[[optimizer step] best_acc]|e] w1] eqn:E;
    [|discriminate].
  cbn. intros H. injection H as <- <-.
  apply epochs_outcome in E. destruct E as (scores & Hsc & Hlen & Hlog & Hfin & Hb).
  exists scores. rewrite length_seq in Hlen. cbn in *.
  repeat split; assumption.
Qed.

(** C7, amended.  The score of an epoch is, for the task ["cola"], the
    correlation with NaN replaced by 0, and the accuracy for any other
    task; a NaN raises nothing, the evaluation returning on every
    non-empty evaluation set.  A run that returns has reported one score
    per epoch, [int(num_train_epochs)] of them, and returns what the
    comparison [score > best_acc] keeps from the start value 0: a number
    that is 0 or one of the scores, not below 0 and not below any score.
    [main] reports the returned value as the final result. *)
Theorem best_score_is_largest_of_zero_and_scores :
  (forall eval_accuracy eval_mc,
     epoch_score self eval_accuracy eval_mc
     = if (task_name self =? "cola")%string
       then match eval_mc with NaN => Fin 0 | _ => eval_mc end
       else eval_accuracy) /\
  (eval_dataloader self <> [] ->
   forall m, exists eval_accuracy eval_mc,
     evaluate forward self prune_type prune_rate m = Ok (eval_accuracy, eval_mc)) /\
  (forall best w w',
     eval_after_train make_optimizer train_step forward self prune_type
       prune_rate w = (Ok best, w') ->
     exists scores,
       nni_log w' = nni_log w ++ scores /\
       length scores = Z.to_nat (py_int (num_train_epochs self)) /\
       Forall (fun s => exists m eval_accuracy eval_mc,
                 evaluate forward self prune_type prune_rate m
                 = Ok (eval_accuracy, eval_mc) /\
                 s = epoch_score self eval_accuracy eval_mc) scores /\
       best = fold_left update_best scores (Fin 0) /\
       (best = Fin 0 \/ In best scores) /\
       fl_gt (Fin 0) best = false /\
       (forall s, In s scores -> fl_gt s best = false)) /\
  (forall rates0 acc w w',
     main_trial make_optimizer train_step forward self prune_type rates0 w
     = (Ok acc, w') ->
     nni_final w' = Some acc /\
     exists rates1 w1,
       balance rates0 (3 # 10) = Ok rates1 /\
       eval_after_train make_optimizer train_step forward self prune_type
         rates1 w = (Ok acc, w1)).
Proof.
  split; [apply epoch_score_cases|].
  split; [intros Hne m; now apply evaluate_returns|].
  split.
  - intros best w w' H. apply eval_after_train_outcome in H.
    destruct H as (scores & Hsc & Hlen & Hlog & _ & Hb).
    exists scores. split; [exact Hlog|]. split; [exact Hlen|].
    split; [exact Hsc|]. split; [exact Hb|].
    destruct (running_best scores (Fin 0)) as (_ & H0 & Hall & Hor); [discriminate|].
    rewrite Hb. repeat split; assumption.
  - intros rates0 acc w w'. unfold main_trial. unfold bindM at 1, lift.
    destruct (balance rates0 (3 # 10)) as [rates1|e]; [|discriminate].
    unfold bindM at 1.
    destruct (eval_after_train _ _ _ _ _ _ _) as [[acc1|e] w1] eqn:E; [|discriminate].
    cbn. intros H. injection H as <- <-. cbn.
    split; [reflexivity|]. now exists rates1, w1.
Qed.

End RunFacts.

(** ** A concrete run *)

(** Runs a closed trial up to the arithmetic on scores. *)
Ltac run_concrete :=
  lazy -[fl_div fl_add fl_gt fl_ne Rplus Rminus Rmult Rdiv Rinv Ropp IZR sqrt
         Rlt_dec Req_dec_T].

Lemma fl_ne_fin (x : R) : fl_ne (Fin x) (Fin x) = false.
Proof. cbn. destruct (Req_dec_T x x); [reflexivity | congruence]. Qed.

Lemma fl_gt_fin (x y : R) : (x <= y)%R -> fl_gt (Fin x) (Fin y) = false.
Proof. intros H. cbn. destruct (Rlt_dec y x); [lra | reflexivity]. Qed.

(** The correlation of one batch of two examples, both predicted wrongly,
    averaged over the single step. *)
Lemma all_wrong_mc :
  fl_div (fl_add (Fin 0) (fl_div (Fin (-1)) (Fin (sqrt 1)))) (Fin 1) = Fin (-1).
Proof.
  rewrite sqrt_1, (fl_div_fin (-1) 1) by lra.
  rewrite fl_add_fin, fl_div_fin by lra. f_equal. lra.
Qed.

(** C7, against the claim.  One epoch of the task ["cola"] whose two
    predictions are both wrong: the score of the epoch, the only one seen,
    is -1, and the run returns 0, which is no epoch score and is larger
    than the largest one. *)
Lemma best_score_is_not_the_largest_epoch_score :
  fst (tiny_run [[0; 1]; [1; 0]]%Q [0; 1]%Z) = Ok (Fin 0) /\
  nni_log (snd (tiny_run [[0; 1]; [1; 0]]%Q [0; 1]%Z)) = [Fin (-1)] /\
  fl_gt (Fin 0) (Fin (-1)) = true /\ Fin 0 <> Fin (-1).
Proof.
  split; [|split; [|split]].
  - unfold tiny_run. run_concrete.
    rewrite all_wrong_mc, fl_ne_fin, fl_gt_fin by lra. reflexivity.
  - unfold tiny_run. run_concrete.
    rewrite all_wrong_mc, fl_ne_fin. reflexivity.
  - cbn. destruct (Rlt_dec (-1) 0); [reflexivity | lra].
  - intros H. injection H as H. lra.
Qed.


Lemma best_score_is_largest_of_zero_and_scores_witness :
  exists scores,
    nni_log (snd (tiny_run [[0; 1]; [1; 0]]%Q [1; 0]%Z)) = [] ++ scores /\
    length scores = 1 /\
    fst (tiny_run [[0; 1]; [1; 0]]%Q [1; 0]%Z)
    = Ok (fold_left update_best scores (Fin 0)).
Proof.
  unfold tiny_run.
  match goal with
  | |- context [fst ?run] =>
      assert (Hf : match fst run with Ok _ => True | Raise _ => False end)
        by (run_concrete; exact I);
      destruct run as [r w'] eqn:E
  end.
  cbn [fst snd] in *. destruct r as [b|e]; [|contradiction].
  pose proof (best_score_is_largest_of_zero_and_scores unit unit unit unit
                (fun _ => tt) (fun _ _ _ _ s => s)
                (fun _ _ _ _ => [[0; 1]; [1; 0]]%Q) (tiny_self 1 [1; 0]%Z)
                (repeat "vanilla"%string 48) (repeat (1 # 2)%Q 48))
    as (_ & _ & Hrun & _).
  pose proof (Hrun b tiny_world w' E) as (scores & Hlog & Hlen & _ & Hbest & _).
  exists scores. split; [exact Hlog|]. split; [exact Hlen|].
  rewrite Hbest. reflexivity.
Defined.

(** ** Pruning only zeroes *)

Lemma bind_ok {A B} (m : Result A) (f : A -> Result B) (b : B) :
  bind m f = Ok b -> exists a, m = Ok a /\ f a = Ok b.
Proof. destruct m as [a|e]; [now exists a | discriminate]. Qed.

Lemma zero_sel_storage (sel : nat -> list nat) (t : Tensor Q) (p : nat) :
  p < size0 t * size1 t ->
  nth p (storage (zero_sel sel t)) 0%Q
  = if mem (p / size1 t) (sel (p mod size1 t)) then 0%Q else nth p (storage t) 0%Q.
Proof.
  intros Hp. unfold zero_sel, tabulate. cbn [storage].
  rewrite nth_map_seq by exact Hp. unfold getQ, get.
  replace (p / size1 t * size1 t + p mod size1 t) with p; [reflexivity|].
  pose proof (Nat.div_mod_eq p (size1 t)). lia.
Qed.

Lemma zero_sel_storage_length (sel : nat -> list nat) (t : Tensor Q) :
  length (storage (zero_sel sel t)) = size0 t * size1 t.
Proof. unfold zero_sel, tabulate. cbn [storage]. now rewrite length_map, length_seq. Qed.

Lemma zero_sel_keeps (sel : nat -> list nat) (t : Tensor Q) (p : nat) :
  nth p (storage (zero_sel sel t)) 0%Q = 0%Q \/
  nth p (storage (zero_sel sel t)) 0%Q = nth p (storage t) 0%Q.
Proof.
  destruct (Nat.lt_ge_cases p (size0 t * size1 t)) as [H|H].
  - rewrite zero_sel_storage by exact H. destruct (mem _ _); auto.
  - left. apply nth_overflow. now rewrite zero_sel_storage_length.
Qed.

Lemma only_zeroes_refl (w : Tensor Q) : only_zeroes w w.
Proof. split; [reflexivity | now right]. Qed.

Lemma do_sparse_keeps (w : Tensor Q) (ratio : Q) (out : Tensor Q) :
  wf w -> do_sparse w ratio = Ok out -> only_zeroes w out /\ wf out.
Proof.
  intros Hwf Hp.
  destruct (do_sparse_inv _ _ _ Hp) as (k & Hk & Hle).
  rewrite (do_sparse_eq w ratio k Hwf Hk Hle) in Hp.
  apply Ok_inj in Hp. subst out. split; [split|]; cbn [storage].
  - apply zero_at_length.
  - intros p. destruct (Nat.lt_ge_cases p (length (storage w))) as [H|H].
    + rewrite zero_at_nth by exact H. destruct (mem _ _); auto.
    + left. apply nth_overflow. now rewrite zero_at_length.
  - unfold wf, numel. cbn [storage size0 size1]. now rewrite zero_at_length.
Qed.

Lemma do_sparse_chn_keeps (w : Tensor Q) (ratio : Q) (out : Tensor Q) :
  wf w -> do_sparse_chn w ratio = Ok out -> only_zeroes w out /\ wf out.
Proof.
  intros Hwf Hp.
  destruct (do_sparse_chn_inv _ _ _ Hp) as (Hfit & k & Hk & Hle).
  rewrite (do_sparse_chn_eq w ratio k Hfit Hk Hle) in Hp.
  apply Ok_inj in Hp. subst out. split; [split|].
  - now rewrite zero_sel_storage_length.
  - intros p. apply zero_sel_keeps.
  - apply tabulate_wf.
Qed.

Section HeadsKeep.

Variables h d r c : nat.
Hypothesis Hshape : h * d = r * c.

(** A multi-head call that returns was given a matrix of [h * d] entries
    and a [k] in range, and is the closed form of [sparse_heads_eq]. *)
Lemma sparse_heads_ok (v : Tensor Q) (ratio : Q) (out : Tensor Q)
  (idx : Tensor nat) :
  sparse_heads h d r c v ratio None = Ok (out, idx) ->
  exists k,
    numel v = h * d /\
    out = mkTensor r c (storage (zero_sel (mh_sel h d k v) (heads_view h d v))) /\
    forall w : Tensor Q,
      numel w = h * d ->
      sparse_heads h d r c w ratio (Some idx)
      = Ok (mkTensor r c
              (storage (zero_sel (mh_sel h d k v) (heads_view h d w))), idx).
Proof.
  intros Hp.
  destruct (sparse_heads_inv h d r c v ratio _ Hp) as (Hn & k & Hk & Hle).
  destruct (sparse_heads_eq h d r c Hshape v ratio k Hn Hk Hle)
    as (idx' & He & Hshared).
  rewrite He in Hp. apply Ok_inj in Hp.
  pose proof (f_equal fst Hp) as H1. pose proof (f_equal snd Hp) as H2.
  cbn [fst snd] in H1, H2. subst out idx'.
  exists k. split; [exact Hn|]. split; [reflexivity | exact Hshared].
Qed.

Lemma heads_form_keeps (sel : nat -> list nat) (w : Tensor Q) :
  wf w -> numel w = h * d ->
  only_zeroes w (mkTensor r c (storage (zero_sel sel (heads_view h d w)))) /\
  wf (mkTensor r c (storage (zero_sel sel (heads_view h d w)))).
Proof.
  intros Hwf Hn. split; [split|]; cbn [storage].
  - rewrite zero_sel_storage_length. cbn [heads_view size0 size1].
    rewrite Hwf. now symmetry.
  - intros p. apply (zero_sel_keeps _ (heads_view h d w)).
  - unfold wf, numel. cbn [storage size0 size1].
    rewrite zero_sel_storage_length. cbn [heads_view size0 size1]. exact Hshape.
Qed.

Lemma sparse_heads_keeps (w : Tensor Q) (ratio : Q) (out : Tensor Q)
  (idx : Tensor nat) :
  wf w -> sparse_heads h d r c w ratio None = Ok (out, idx) ->
  only_zeroes w out /\ wf out.
Proof.
  intros Hwf Hp. apply sparse_heads_ok in Hp.
  destruct Hp as (k & Hn & -> & _). now apply heads_form_keeps.
Qed.

(** The indices ranked on [v], applied to another matrix [w]. *)
Lemma sparse_heads_shared_keeps (v w : Tensor Q) (ratio : Q)
  (out outw : Tensor Q) (idx idx' : Tensor nat) :
  wf w ->
  sparse_heads h d r c v ratio None = Ok (out, idx) ->
  sparse_heads h d r c w ratio (Some idx) = Ok (outw, idx') ->
  only_zeroes w outw /\ wf outw.
Proof.
  intros Hwf Hv Hw. apply sparse_heads_ok in Hv.
  destruct Hv as (k & _ & _ & Hshared).
  destruct (Nat.eq_dec (numel w) (h * d)) as [Hn|Hn];
    [|rewrite (sparse_heads_shape h d r c w ratio (Some idx) Hn) in Hw;
      discriminate Hw].
  rewrite (Hshared w Hn) in Hw. apply Ok_inj in Hw.
  apply (f_equal fst) in Hw. cbn [fst] in Hw. subst outw.
  now apply heads_form_keeps.
Qed.

(** The attention triple: one selection, made on [v], for the three
    matrices. *)
Lemma sparse_heads_triple (v q k v' q' k' : Tensor Q) (ratio : Q)
  (idx i1 i2 : Tensor nat) :
  sparse_heads h d r c v ratio None = Ok (v', idx) ->
  sparse_heads h d r c q ratio (Some idx) = Ok (q', i1) ->
  sparse_heads h d r c k ratio (Some idx) = Ok (k', i2) ->
  exists n,
    storage v' = storage (zero_sel (mh_sel h d n v) (heads_view h d v)) /\
    storage q' = storage (zero_sel (mh_sel h d n v) (heads_view h d q)) /\
    storage k' = storage (zero_sel (mh_sel h d n v) (heads_view h d k)).
Proof.
  intros Hv Hq Hk. apply sparse_heads_ok in Hv.
  destruct Hv as (n & _ & -> & Hshared). exists n.
  split; [reflexivity|].
  assert (Hone : forall w w' i, sparse_heads h d r c w ratio (Some idx) = Ok (w', i) ->
            storage w' = storage (zero_sel (mh_sel h d n v) (heads_view h d w))).
  { intros w w' i Hw.
    destruct (Nat.eq_dec (numel w) (h * d)) as [Hn|Hn];
      [|rewrite (sparse_heads_shape h d r c w ratio (Some idx) Hn) in Hw;
        discriminate Hw].
    rewrite (Hshared w Hn) in Hw. apply Ok_inj in Hw.
    apply (f_equal fst) in Hw. cbn [fst] in Hw. now subst w'. }
  split; [exact (Hone q q' i1 Hq) | exact (Hone k k' i2 Hk)].
Qed.

End HeadsKeep.

(** X1.  Whatever the mode and the ratio, a call of the engine that returns
    leaves the matrix with the same number of entries, each of them
    unchanged or zero: pruning never moves, rescales or otherwise rewrites a
    weight. *)
Theorem prune_keeps_or_zeroes (mode : PruneMode) (w : Tensor Q) (r : Q)
  (out : Tensor Q) :
  wf w -> prune mode w r = Ok out ->
  length (storage out) = length (storage w) /\
  forall p, nth p (storage out) 0%Q = 0%Q \/
            nth p (storage out) 0%Q = nth p (storage w) 0%Q.
Proof.
  intros Hwf Hp. destruct mode; unfold prune in Hp.
  - exact (proj1 (do_sparse_keeps w (py_sub 1 r) out Hwf Hp)).
  - exact (proj1 (do_sparse_chn_keeps w (py_sub 1 r) out Hwf Hp)).
  - unfold do_sparse_mh in Hp.
    pose proof (sparse_heads_keeps 12 (64 * 768) 768 768 heads_numel w (py_sub 1 r)) as K.
    generalize dependent (sparse_heads 12 (64 * 768) 768 768 w (py_sub 1 r) None).
    intros [[o i]|e] Hp K; cbn [bind] in Hp; [|discriminate Hp].
    apply Ok_inj in Hp. subst o. exact (proj1 (K out i Hwf eq_refl)).
Qed.

Lemma prune_keeps_or_zeroes_witness :
  length (storage (mkTensor 2 2 [0; 0; 3; 4]%Q))
  = length (storage (mkTensor 2 2 [1; 2; 3; 4]%Q)) /\
  forall p, nth p (storage (mkTensor 2 2 [0; 0; 3; 4]%Q)) 0%Q = 0%Q \/
            nth p (storage (mkTensor 2 2 [0; 0; 3; 4]%Q)) 0%Q
            = nth p (storage (mkTensor 2 2 [1; 2; 3; 4]%Q)) 0%Q.
Proof.
  apply (prune_keeps_or_zeroes Channel (mkTensor 2 2 [1; 2; 3; 4]%Q) (1 # 2)).
  - reflexivity.
  - vm_compute. reflexivity.
Defined.

(** ** The pruning pass, layer by layer *)

Lemma py_getitem_ok {A} (l : list A) (i : nat) (x : A) :
  py_getitem l i = Ok x -> nth_error l i = Some x /\ i < length l.
Proof.
  unfold py_getitem. destruct (nth_error l i) as [y|] eqn:E; [|discriminate].
  intros H. apply Ok_inj in H. subst y. split; [reflexivity|].
  apply nth_error_Some. congruence.
Qed.

Lemma sparse_single_keeps (chn : string) (prune_type : list string)
  (prune_rate : list Q) (slot : nat) (w out : Tensor Q) :
  sparse_single chn prune_type prune_rate slot w = Ok out ->
  slot < length prune_type /\ (wf w -> only_zeroes w out /\ wf out).
Proof.
  unfold sparse_single. intros H.
  apply bind_ok in H. destruct H as (t & Ht & H).
  apply py_getitem_ok in Ht. split; [apply Ht|]. intros Hwf.
  destruct (t =? "vanilla")%string.
  - apply bind_ok in H. destruct H as (x & _ & H). now apply do_sparse_keeps in H.
  - destruct (t =? chn)%string.
    + apply bind_ok in H. destruct H as (x & _ & H).
      now apply do_sparse_chn_keeps in H.
    + apply Ok_inj in H. subst out. split; [apply only_zeroes_refl | exact Hwf].
Qed.

Lemma sparse_slot0_keeps (prune_type : list string) (prune_rate : list Q)
  (layer_now : nat) (L L' : Layer) :
  sparse_slot0 prune_type prune_rate layer_now L = Ok L' ->
  layer_now * 4 + 0 < length prune_type /\
  attention_output L' = attention_output L /\
  intermediate L' = intermediate L /\ output L' = output L /\
  (wf (self_query L) -> wf (self_key L) -> wf (self_value L) ->
   (only_zeroes (self_query L) (self_query L') /\ wf (self_query L')) /\
   (only_zeroes (self_key L) (self_key L') /\ wf (self_key L')) /\
   (only_zeroes (self_value L) (self_value L') /\ wf (self_value L'))).
Proof.
  unfold sparse_slot0. intros H.
  apply bind_ok in H. destruct H as (t & Ht & H).
  apply py_getitem_ok in Ht. split; [apply Ht|].
  destruct (t =? "vanilla")%string; [|destruct (t =? "channel")%string;
    [|destruct (t =? "multihead")%string]].
  - apply bind_ok in H. destruct H as (x & _ & H).
    apply bind_ok in H. destruct H as (q & Hq & H).
    apply bind_ok in H. destruct H as (k & Hk & H).
    apply bind_ok in H. destruct H as (v & Hv & H).
    apply Ok_inj in H. subst L'. cbn [attention_output intermediate output
      self_query self_key self_value].
    repeat (split; [reflexivity|]). intros Wq Wk Wv.
    split; [now apply do_sparse_keeps in Hq|].
    split; [now apply do_sparse_keeps in Hk | now apply do_sparse_keeps in Hv].
  - apply bind_ok in H. destruct H as (x & _ & H).
    apply bind_ok in H. destruct H as (q & Hq & H).
    apply bind_ok in H. destruct H as (k & Hk & H).
    apply bind_ok in H. destruct H as (v & Hv & H).
    apply Ok_inj in H. subst L'. cbn [attention_output intermediate output
      self_query self_key self_value].
    repeat (split; [reflexivity|]). intros Wq Wk Wv.
    split; [now apply do_sparse_chn_keeps in Hq|].
    split; [now apply do_sparse_chn_keeps in Hk | now apply do_sparse_chn_keeps in Hv].
  - apply bind_ok in H. destruct H as (x & _ & H).
    apply bind_ok in H. destruct H as ([v idx] & Hv & H).
    apply bind_ok in H. destruct H as ([q idxq] & Hq & H).
    apply bind_ok in H. destruct H as ([k idxk] & Hk & H).
    apply Ok_inj in H. subst L'. cbn [attention_output intermediate output
      self_query self_key self_value].
    repeat (split; [reflexivity|]). intros Wq Wk Wv.
    unfold do_sparse_mh in Hv, Hq, Hk.
    split; [exact (sparse_heads_shared_keeps 12 (64 * 768) 768 768 heads_numel
                     _ _ _ _ _ _ _ Wq Hv Hq)|].
    split; [exact (sparse_heads_shared_keeps 12 (64 * 768) 768 768 heads_numel
                     _ _ _ _ _ _ _ Wk Hv Hk)|].
    exact (sparse_heads_keeps 12 (64 * 768) 768 768 heads_numel _ _ _ _ Wv Hv).
  - apply Ok_inj in H. subst L'. repeat (split; [reflexivity|]).
    intros Wq Wk Wv.
    repeat match goal with |- _ /\ _ => split end;
      try apply only_zeroes_refl; assumption.
Qed.

(** One layer of the pass: what a step that returns has read and written. *)
Lemma sparse_layer_ok (prune_type : list string) (prune_rate : list Q)
  (layer_now : nat) (ls ls' : list Layer) :
  sparse_layer prune_type prune_rate layer_now ls = Ok ls' ->
  exists L L',
    nth_error ls layer_now = Some L /\
    layer_now * 4 + 3 < length prune_type /\
    ls' = replace_nth ls layer_now L' /\
    (layer_wf L -> layer_only_zeroes L L' /\ layer_wf L').
Proof.
  unfold sparse_layer. intros H.
  apply bind_ok in H. destruct H as (L & HL & H).
  apply py_getitem_ok in HL. destruct HL as [HL Hlen].
  apply bind_ok in H. destruct H as (L0 & H0 & H).
  apply bind_ok in H. destruct H as (w3 & H3 & H).
  apply bind_ok in H. destruct H as (w4 & H4 & H).
  apply bind_ok in H. destruct H as (w5 & H5 & H).
  unfold py_setitem in H. rewrite (proj2 (Nat.ltb_lt _ _) Hlen) in H.
  apply Ok_inj in H.
  apply sparse_slot0_keeps in H0. destruct H0 as (_ & E3 & E4 & E5 & K0).
  apply sparse_single_keeps in H3. destruct H3 as [_ K3].
  apply sparse_single_keeps in H4. destruct H4 as [_ K4].
  apply sparse_single_keeps in H5. destruct H5 as [S5 K5].
  rewrite E3 in K3. rewrite E4 in K4. rewrite E5 in K5.
  eexists L, _. split; [exact HL|]. split; [exact S5|].
  split; [symmetry; exact H|].
  intros (Wq & Wk & Wv & W3 & W4 & W5).
  destruct (K0 Wq Wk Wv) as ((Zq & Wq') & (Zk & Wk') & (Zv & Wv')).
  destruct (K3 W3) as [Z3 W3']. destruct (K4 W4) as [Z4 W4'].
  destruct (K5 W5) as [Z5 W5'].
  unfold layer_only_zeroes, layer_wf.
  cbn [self_query self_key self_value attention_output intermediate output].
  split; repeat match goal with |- _ /\ _ => split end; assumption.
Qed.

Lemma replace_nth_length {A} (l : list A) (i : nat) (v : A) :
  length (replace_nth l i v) = length l.
Proof.
  revert i. induction l as [|x l IH]; intros [|i]; cbn; try reflexivity.
  now rewrite IH.
Qed.

Lemma replace_nth_skipn {A} (l : list A) (i n : nat) (v : A) :
  i < n -> skipn n (replace_nth l i v) = skipn n l.
Proof.
  revert i n. induction l as [|x l IH]; intros i n Hi.
  - now destruct i.
  - destruct n as [|n]; [lia|]. destruct i as [|i]; cbn; [reflexivity|].
    apply IH. lia.
Qed.

Lemma replace_nth_Forall2 {A} (R : A -> A -> Prop) (l : list A) (i : nat)
  (x v : A) :
  (forall a, R a a) -> nth_error l i = Some x -> R x v ->
  Forall2 R l (replace_nth l i v).
Proof.
  intros Hrefl. revert i. induction l as [|y l IH]; intros [|i] Hx Hv;
    cbn in *; try discriminate.
  - injection Hx as ->. constructor; [exact Hv|].
    clear - Hrefl. induction l; constructor; auto.
  - constructor; [apply Hrefl | now apply IH].
Qed.

Lemma replace_nth_Forall {A} (P : A -> Prop) (l : list A) (i : nat) (v : A) :
  Forall P l -> P v -> Forall P (replace_nth l i v).
Proof.
  intros Hl Hv. revert i. induction Hl as [|y l Hy Hl IH]; intros [|i]; cbn;
    constructor; auto.
Qed.

(** A loop that returns has kept the invariant [P] and has met, at every
    element, what a returning body implies. *)
Lemma for_each_ok {X S} (P : S -> Prop) (Q : X -> Prop) (l : list X)
  (body : X -> S -> Result S) (s s' : S) :
  (forall x s s1, In x l -> P s -> body x s = Ok s1 -> P s1 /\ Q x) ->
  P s -> for_each l body s = Ok s' -> P s' /\ Forall Q l.
Proof.
  revert s. induction l as [|x l IH]; intros s Hbody Hs H; cbn [for_each] in H.
  - apply Ok_inj in H. subst s'. now split.
  - apply bind_ok in H. destruct H as (s1 & H1 & H).
    destruct (Hbody x s s1 (or_introl eq_refl) Hs H1) as [Hs1 Hx].
    destruct (IH s1) as [Hs' Hl]; trivial.
    + intros y t t1 Hy. apply Hbody. now right.
    + split; [exact Hs' | now constructor].
Qed.

Lemma only_zeroes_trans (a b c : Tensor Q) :
  only_zeroes a b -> only_zeroes b c -> only_zeroes a c.
Proof.
  intros [L1 H1] [L2 H2]. split; [congruence|]. intros p.
  destruct (H2 p) as [E|E]; [now left|]. rewrite E. apply H1.
Qed.

Lemma layer_only_zeroes_refl (L : Layer) : layer_only_zeroes L L.
Proof.
  unfold layer_only_zeroes.
  repeat match goal with |- _ /\ _ => split end; apply only_zeroes_refl.
Qed.

Lemma layer_only_zeroes_trans (a b c : Layer) :
  layer_only_zeroes a b -> layer_only_zeroes b c -> layer_only_zeroes a c.
Proof.
  intros (A1 & A2 & A3 & A4 & A5 & A6) (B1 & B2 & B3 & B4 & B5 & B6).
  unfold layer_only_zeroes.
  repeat match goal with |- _ /\ _ => split end;
    eapply only_zeroes_trans; eassumption.
Qed.

Lemma Forall2_trans_rel {A} (R : A -> A -> Prop) (l1 l2 l3 : list A) :
  (forall a b c, R a b -> R b c -> R a c) ->
  Forall2 R l1 l2 -> Forall2 R l2 l3 -> Forall2 R l1 l3.
Proof.
  intros Ht H12. revert l3. induction H12; intros l3 H23; inversion H23; subst;
    constructor; eauto.
Qed.

(** X2.  A pruning pass that returns has found at least twelve layers and at
    least 48 types, returns as many layers as it was given, and has touched
    none beyond the twelfth. *)
Theorem sparse_pass_frame (prune_type : list string) (prune_rate : list Q)
  (ls ls' : list Layer) :
  sparse_pass prune_type prune_rate ls = Ok ls' ->
  12 <= length ls /\ 48 <= length prune_type /\
  length ls' = length ls /\ skipn 12 ls' = skipn 12 ls.
Proof.
  unfold sparse_pass, layer_num. intros H.
  apply (for_each_ok
           (fun s => length s = length ls /\ skipn 12 s = skipn 12 ls)
           (fun x => x < length ls /\ x * 4 + 3 < length prune_type)) in H.
  - destruct H as [[Hlen Hskip] Hall]. rewrite Forall_forall in Hall.
    destruct (Hall 11) as [H11 H47]; [apply in_seq; lia|].
    repeat split; trivial; lia.
  - intros x s s1 Hx [Hlen Hskip] Hb. apply in_seq in Hx.
    apply sparse_layer_ok in Hb.
    destruct Hb as (L & L' & HL & Hpt & -> & _).
    rewrite replace_nth_length, replace_nth_skipn by lia.
    repeat split; trivial.
    rewrite <- Hlen. apply nth_error_Some. congruence.
  - now split.
Qed.

Lemma sparse_pass_frame_witness :
  12 <= length (repeat layer_small 12) /\ 48 <= length all_channel.
Proof.
  destruct (sparse_pass_frame all_channel all_half (repeat layer_small 12)
              (repeat (mkLayer w_small_pruned w_small_pruned w_small_pruned
                         w_small_pruned w_small_pruned w_small) 12))
    as (H1 & H2 & _).
  - vm_compute. reflexivity.
  - split; [exact H1 | exact H2].
Defined.

(** X3.  A pruning pass over well-formed matrices that returns gives back,
    layer by layer and matrix by matrix, the matrices it was given with some
    entries set to zero, and nothing else changed. *)
Theorem sparse_pass_only_zeroes (prune_type : list string)
  (prune_rate : list Q) (ls ls' : list Layer) :
  Forall layer_wf ls ->
  sparse_pass prune_type prune_rate ls = Ok ls' ->
  Forall2 layer_only_zeroes ls ls'.
Proof.
  unfold sparse_pass. intros Hwf H.
  apply (for_each_ok
           (fun s => Forall2 layer_only_zeroes ls s /\ Forall layer_wf s)
           (fun _ => True)) in H.
  - apply H.
  - intros x s s1 _ [Hz Hw] Hb. apply sparse_layer_ok in Hb.
    destruct Hb as (L & L' & HL & _ & -> & HK).
    assert (HwL : layer_wf L).
    { rewrite Forall_forall in Hw. apply Hw. eapply nth_error_In. exact HL. }
    destruct (HK HwL) as [HZ HW]. split; [split|exact I].
    + apply (Forall2_trans_rel _ ls s); [apply layer_only_zeroes_trans | exact Hz |].
      apply (replace_nth_Forall2 _ _ _ L);
        [apply layer_only_zeroes_refl | exact HL | exact HZ].
    + now apply replace_nth_Forall.
  - split; [|exact Hwf].
    clear. induction ls; constructor; [apply layer_only_zeroes_refl | assumption].
Qed.

Lemma sparse_pass_only_zeroes_witness :
  Forall2 layer_only_zeroes (repeat layer_small 12)
    (repeat (mkLayer w_small_pruned w_small_pruned w_small_pruned
               w_small_pruned w_small_pruned w_small) 12).
Proof.
  apply (sparse_pass_only_zeroes all_channel all_half).
  - repeat constructor.
  - vm_compute. reflexivity.
Defined.

(** ** Types the plan does not know *)

Lemma replace_nth_same {A} (l : list A) (i : nat) (x : A) :
  nth_error l i = Some x -> replace_nth l i x = l.
Proof.
  revert i. induction l as [|y l IH]; intros [|i] H; cbn in *; try discriminate.
  - now injection H as ->.
  - now rewrite IH.
Qed.

Lemma recognised_slot (q slot : nat) (t : string) :
  recognised (slot * 4 + q) t = recognised q t.
Proof.
  unfold recognised.
  replace ((slot * 4 + q) mod 4) with (q mod 4); [reflexivity|].
  rewrite Nat.add_comm, Nat.Div0.mod_add. reflexivity.
Qed.

Lemma sparse_layer_unrecognised (prune_type : list string)
  (prune_rate : list Q) (layer_now : nat) (ls : list Layer) :
  layer_now < length ls -> layer_now * 4 + 3 < length prune_type ->
  (forall i, i < length prune_type ->
             recognised i (nth i prune_type ""%string) = false) ->
  sparse_layer prune_type prune_rate layer_now ls = Ok ls.
Proof.
  intros Hl Hpt Hun.
  assert (Hget : forall q, q < 4 ->
            exists t, py_getitem prune_type (layer_now * 4 + q) = Ok t /\
                      recognised q t = false).
  { intros q Hq. exists (nth (layer_now * 4 + q) prune_type ""%string).
    split; [apply py_getitem_nth; lia|].
    rewrite <- (recognised_slot q layer_now). apply Hun. lia. }
  destruct (Hget 0) as (t0 & G0 & R0); [lia|].
  destruct (Hget 1) as (t1 & G1 & R1); [lia|].
  destruct (Hget 2) as (t2 & G2 & R2); [lia|].
  destruct (Hget 3) as (t3 & G3 & R3); [lia|].
  unfold recognised in R0, R1, R2, R3.
  cbn [Nat.modulo Nat.divmod fst snd Nat.sub] in *.
  apply orb_false_iff in R0. destruct R0 as [R0 R0m].
  apply orb_false_iff in R0. destruct R0 as [R0v R0c].
  apply orb_false_iff in R1. destruct R1 as [R1v R1c].
  apply orb_false_iff in R2. destruct R2 as [R2v R2c].
  apply orb_false_iff in R3. destruct R3 as [R3v R3c].
  unfold sparse_layer.
  destruct (nth_error ls layer_now) as [L|] eqn:EL;
    [|apply nth_error_None in EL; lia].
  unfold py_getitem at 1. rewrite EL. cbn [bind].
  unfold sparse_slot0. rewrite G0. cbn [bind]. rewrite R0v, R0c, R0m. cbn [bind].
  unfold sparse_single. rewrite G1, G2, G3. cbn [bind].
  rewrite R1v, R1c, R2v, R2c, R3v, R3c. cbn [bind].
  unfold py_setitem. rewrite (proj2 (Nat.ltb_lt _ _) Hl).
  f_equal. apply replace_nth_same. rewrite EL. now destruct L.
Qed.

(** X4.  A type that a slot does not know switches the pruning of that slot
    off without a complaint: a plan none of whose types is known to its slot
    (an upper-case ["Vanilla"], or ["multihead"] outside the attention
    triple) makes the pass return the layers as they are, whatever the rates
    are, even when the list of rates is empty. *)
Theorem unrecognised_types_prune_nothing (prune_type : list string)
  (prune_rate : list Q) (ls : list Layer) :
  12 <= length ls -> 48 <= length prune_type ->
  (forall i, i < length prune_type ->
             recognised i (nth i prune_type ""%string) = false) ->
  sparse_pass prune_type prune_rate ls = Ok ls.
Proof.
  intros Hl Hpt Hun. unfold sparse_pass, layer_num.
  assert (H : forall l, (forall x, In x l -> x < 12) ->
            for_each l (sparse_layer prune_type prune_rate) ls = Ok ls).
  { induction l as [|x l IH]; intros Hx; cbn [for_each]; [reflexivity|].
    rewrite sparse_layer_unrecognised; trivial.
    - cbn [bind]. apply IH. intros y Hy. apply Hx. now right.
    - specialize (Hx x (or_introl eq_refl)). lia.
    - specialize (Hx x (or_introl eq_refl)). lia. }
  apply H. intros x Hx. apply in_seq in Hx. lia.
Qed.

Lemma unrecognised_types_prune_nothing_witness :
  sparse_pass (repeat "Vanilla"%string 48) [] (repeat layer_small 12)
  = Ok (repeat layer_small 12).
Proof.
  apply unrecognised_types_prune_nothing.
  - cbn. lia.
  - cbn. lia.
  - intros i Hi. rewrite repeat_length in Hi.
    rewrite (nth_indep _ _ "Vanilla"%string) by (now rewrite repeat_length).
    rewrite nth_repeat. unfold recognised.
    destruct (i mod 4) as [|[|[|?]]]; reflexivity.
Defined.

(** ** The attention triple in the multi-head mode *)

(** X5.  Whenever the first slot of a layer asks for ["multihead"] and the
    step returns, one selection of cells, ranked on the Value matrix alone,
    has been zeroed in the head views of Query, Key and Value; the other
    three matrices of the layer are as before.  This holds at every rate. *)
Theorem multihead_triple_shares_selection (prune_type : list string)
  (prune_rate : list Q) (layer_now : nat) (L L' : Layer) :
  nth_error prune_type (layer_now * 4 + 0) = Some "multihead"%string ->
  sparse_slot0 prune_type prune_rate layer_now L = Ok L' ->
  attention_output L' = attention_output L /\
  intermediate L' = intermediate L /\ output L' = output L /\
  exists n,
    let sel := mh_sel 12 (64 * 768) n (self_value L) in
    storage (self_value L')
    = storage (zero_sel sel (heads_view 12 (64 * 768) (self_value L))) /\
    storage (self_query L')
    = storage (zero_sel sel (heads_view 12 (64 * 768) (self_query L))) /\
    storage (self_key L')
    = storage (zero_sel sel (heads_view 12 (64 * 768) (self_key L))).
Proof.
  intros Ht H. unfold sparse_slot0, py_getitem in H. rewrite Ht in H.
  cbn [bind String.eqb Ascii.eqb Bool.eqb] in H.
  apply bind_ok in H. destruct H as (x & _ & H).
  apply bind_ok in H. destruct H as ([v idx] & Hv & H).
  apply bind_ok in H. destruct H as ([q idxq] & Hq & H).
  apply bind_ok in H. destruct H as ([k idxk] & Hk & H).
  apply Ok_inj in H. subst L'.
  cbn [attention_output intermediate output self_query self_key self_value].
  repeat (split; [reflexivity|]).
  unfold do_sparse_mh in Hv, Hq, Hk.
  exact (sparse_heads_triple 12 (64 * 768) 768 768 heads_numel
           _ _ _ _ _ _ _ _ _ _ Hv Hq Hk).
Qed.

Lemma multihead_triple_shares_selection_witness :
  exists L' n,
    sparse_slot0 (repeat "multihead"%string 48) (repeat (1 # 2)%Q 48) 0
      (mkLayer w_heads w_heads w_heads w_small w_small w_small) = Ok L' /\
    storage (self_query L')
    = storage (zero_sel (mh_sel 12 (64 * 768) n w_heads)
                 (heads_view 12 (64 * 768) w_heads)).
Proof.
  destruct (multihead_slot_shares_cells (repeat "multihead"%string 48)
              (repeat (1 # 2)%Q 48) 0
              (mkLayer w_heads w_heads w_heads w_small w_small w_small) (1 # 2))
    as (q & k & v & H & _);
    [reflexivity | reflexivity | qcmp | qcmp
     | exact w_heads_numel | exact w_heads_numel | exact w_heads_numel |].
  cbn [attention_output intermediate output] in H.
  destruct (multihead_triple_shares_selection
              (repeat "multihead"%string 48) (repeat (1 # 2)%Q 48) 0
              _ _ eq_refl H)
    as (_ & _ & _ & n & _ & Hq & _).
  eexists. exists n. split; [exact H | exact Hq].
Defined.

(** ** The rate balancer: failures, proportions, repetition *)


Lemma weight_total_nonzero : ~ (inject_Z weight_total == 0)%Q.
Proof. vm_compute. discriminate. Qed.





(** ** The metric helper on any two-class batch *)

Lemma argmax_pair (r : list Q) : length r = 2 -> argmax r = 0 \/ argmax r = 1.
Proof.
  destruct r as [|x [|y [|z r]]]; try discriminate. intros _. cbn.
  destruct (Qle_bool y x); auto.
Qed.

Lemma predictions_binary (out : list (list Q)) :
  Forall (fun r => length r = 2) out -> binary (predictions out).
Proof.
  induction 1 as [|r out Hr _ IH]; constructor; [|exact IH].
  destruct (argmax_pair r Hr) as [-> | ->]; auto.
Qed.

(** The four confusion counts of two 0/1 arrays of the same length. *)
Lemma confusion (a b : list Z) :
  length a = length b -> binary a -> binary b ->
  let n := Z.of_nat (length b) in
  let tp := dot (fun o => o) (fun l => l) a b in
  let tn := dot (fun o => 1 - o)%Z (fun l => 1 - l)%Z a b in
  let fp := dot (fun o => o) (fun l => 1 - l)%Z a b in
  let fn := dot (fun o => 1 - o)%Z (fun l => l) a b in
  (0 <= tp /\ 0 <= tn /\ 0 <= fp /\ 0 <= fn)%Z /\
  (tp + fp = zsum a /\ tp + fn = zsum b /\
   tn + fp = n - zsum b /\ tn + fn = n - zsum a)%Z /\
  zsum (map (fun '(o, l) => if (o =? l)%Z then 1 else 0)%Z (combine a b))
  = (tp + tn)%Z.
Proof.
  revert b. induction a as [|x a IH]; intros [|y b] Hlen Ha Hb;
    try discriminate Hlen.
  - cbn. lia.
  - inversion Ha as [|? ? Hx Ha']; subst. inversion Hb as [|? ? Hy Hb']; subst.
    injection Hlen as Hlen. specialize (IH b Hlen Ha' Hb').
    cbv zeta in *. unfold dot, zsum in *.
    cbn [combine map fold_right length] in *.
    rewrite Nat2Z.inj_succ.
    destruct Hx as [-> | ->]; destruct Hy as [-> | ->]; cbn [Z.eqb Pos.eqb]; lia.
Qed.

Lemma correlation_bound (tp tn fp fn : Z) :
  (0 <= tp -> 0 <= tn -> 0 <= fp -> 0 <= fn ->
   0 <= (tp + fp) * (tp + fn) * (tn + fp) * (tn + fn) /\
   (tp * tn - fp * fn) * (tp * tn - fp * fn)
   <= (tp + fp) * (tp + fn) * (tn + fp) * (tn + fn))%Z.
Proof.
  intros H1 H2 H3 H4.
  set (s := (tp * tn + fp * fn)%Z).
  set (A := ((tp + fp) * (tn + fn))%Z).
  set (B := ((tp + fn) * (tn + fp))%Z).
  assert (Hs : (0 <= s)%Z) by (unfold s; nia).
  assert (HA : (s <= A)%Z) by (unfold s, A; nia).
  assert (HB : (s <= B)%Z) by (unfold s, B; nia).
  assert (HD : ((tp + fp) * (tp + fn) * (tn + fp) * (tn + fn) = A * B)%Z)
    by (unfold A, B; ring).
  assert (HN : ((tp * tn - fp * fn) * (tp * tn - fp * fn) <= s * s)%Z)
    by (unfold s; nia).
  rewrite HD. split; nia.
Qed.

(** A ratio [N / sqrt D] with [N * N <= D]: undefined at [D = 0],
    otherwise between -1 and 1. *)
Lemma mc_value (N D : Z) :
  (0 <= D)%Z -> (N * N <= D)%Z ->
  (D = 0%Z -> fl_div (of_int N) (pow_half D) = NaN) /\
  (D <> 0%Z ->
   exists x, fl_div (of_int N) (pow_half D) = Fin x /\ (-1 <= x <= 1)%R).
Proof.
  intros HD HN. unfold pow_half, of_int.
  replace (D <? 0)%Z with false by (symmetry; apply Z.ltb_ge; exact HD).
  split.
  - intros ->. assert (N = 0%Z) by nia. subst N.
    rewrite sqrt_0. apply fl_div_zero_zero.
  - intros Hnz.
    assert (Hpos : (0 < IZR D)%R) by (apply IZR_lt; lia).
    assert (Hs : (0 < sqrt (IZR D))%R) by (now apply sqrt_lt_R0).
    rewrite fl_div_fin by lra. eexists. split; [reflexivity|].
    assert (Habs : (Rabs (IZR N) <= sqrt (IZR D))%R).
    { rewrite <- sqrt_Rsqr_abs. apply sqrt_le_1_alt. unfold Rsqr.
      rewrite <- mult_IZR. now apply IZR_le. }
    assert (Hb : (- sqrt (IZR D) <= IZR N <= sqrt (IZR D))%R).
    { unfold Rabs in Habs. destruct (Rcase_abs (IZR N)); lra. }
    split.
    + apply Rmult_le_reg_r with (sqrt (IZR D)); [exact Hs|].
      unfold Rdiv. rewrite Rmult_assoc, Rinv_l by lra. lra.
    + apply Rmult_le_reg_r with (sqrt (IZR D)); [exact Hs|].
      unfold Rdiv. rewrite Rmult_assoc, Rinv_l by lra. lra.
Qed.

Lemma predictions_length (out : list (list Q)) :
  length (predictions out) = length out.
Proof. apply length_map. Qed.

(** The outcome of the helper in terms of the number [P] of positive
    predictions and the number [L] of positive labels among [n]. *)
Lemma accuracy_by_counts (out : list (list Q)) (labels : list Z) :
  two_class_batch out labels ->
  let P := zsum (predictions out) in
  let L := zsum labels in
  let n := Z.of_nat (length labels) in
  (0 <= fst (accuracy out labels) <= n)%Z /\
  ((P * L * (n - L) * (n - P))%Z = 0%Z -> snd (accuracy out labels) = NaN) /\
  ((P * L * (n - L) * (n - P))%Z <> 0%Z ->
   exists x, snd (accuracy out labels) = Fin x /\ (-1 <= x <= 1)%R).
Proof.
  intros (Hlen & Hrows & Hbin).
  pose proof (predictions_binary out Hrows) as Hpb.
  assert (Hlen' : length (predictions out) = length labels)
    by (now rewrite predictions_length).
  pose proof (confusion (predictions out) labels Hlen' Hpb Hbin) as C.
  cbv zeta in C. unfold accuracy. cbv zeta. fold (predictions out).
  cbn [fst snd].
  set (tp := dot (fun o => o) (fun l => l) (predictions out) labels) in *.
  set (tn := dot (fun o => 1 - o)%Z (fun l => 1 - l)%Z (predictions out) labels) in *.
  set (fp := dot (fun o => o) (fun l => 1 - l)%Z (predictions out) labels) in *.
  set (fn := dot (fun o => 1 - o)%Z (fun l => l) (predictions out) labels) in *.
  destruct C as ((P1 & P2 & P3 & P4) & (E1 & E2 & E3 & E4) & Eh).
  rewrite Eh.
  destruct (correlation_bound tp tn fp fn P1 P2 P3 P4) as [HD HN].
  destruct (mc_value _ _ HD HN) as [Hzero Hfin].
  rewrite <- E1, <- E2.
  replace (Z.of_nat (length labels) - (tp + fn))%Z with (tn + fp)%Z by lia.
  replace (Z.of_nat (length labels) - (tp + fp))%Z with (tn + fn)%Z by lia.
  split; [lia|]. split; assumption.
Qed.

(** Both classes occur in a 0/1 array when its sum is neither 0 nor its
    length. *)
Lemma classes_by_counts (out : list (list Q)) (labels : list Z) :
  two_class_batch out labels ->
  (two_classes (predictions out) /\ two_classes labels <->
   (zsum (predictions out) * zsum labels
    * (Z.of_nat (length labels) - zsum labels)
    * (Z.of_nat (length labels) - zsum (predictions out)))%Z <> 0%Z).
Proof.
  intros (Hlen & Hrows & Hbin).
  pose proof (predictions_binary out Hrows) as Hpb.
  pose proof (has_positive labels Hbin) as L1.
  pose proof (has_negative labels Hbin) as L0.
  pose proof (has_positive (predictions out) Hpb) as Q1.
  pose proof (has_negative (predictions out) Hpb) as Q0.
  rewrite predictions_length, Hlen in Q0.
  unfold two_classes. rewrite L1, L0, Q1, Q0. split.
  - intros [[A1 A2] [A3 A4]] H0.
    apply Z.mul_eq_0 in H0. destruct H0 as [H0|H0]; [|lia].
    apply Z.mul_eq_0 in H0. destruct H0 as [H0|H0]; [|lia].
    apply Z.mul_eq_0 in H0. destruct H0 as [H0|H0]; lia.
  - intros H0. repeat split; intros E; apply H0; rewrite E; ring.
Qed.

(** X7.  On a batch of a two-class task the helper returns a number of
    hits between 0 and the batch size.  Its correlation is a number between
    -1 and 1 when both classes occur among the predictions and among the
    labels, and NaN in every other case: never an infinity, never a number
    outside [-1, 1], and never a number when the predictions, or the labels,
    are all of one class. *)
Theorem accuracy_correlation_range (out : list (list Q)) (labels : list Z) :
  two_class_batch out labels ->
  (0 <= fst (accuracy out labels) <= Z.of_nat (length labels))%Z /\
  (two_classes (predictions out) /\ two_classes labels ->
   exists x, snd (accuracy out labels) = Fin x /\ (-1 <= x <= 1)%R) /\
  (~ (two_classes (predictions out) /\ two_classes labels) ->
   snd (accuracy out labels) = NaN).
Proof.
  intros Hb.
  destruct (accuracy_by_counts out labels Hb) as (Hh & Hzero & Hfin).
  pose proof (classes_by_counts out labels Hb) as Hiff.
  split; [exact Hh|]. split.
  - intros H2. apply Hfin. now apply Hiff.
  - intros H2. apply Hzero.
    match goal with |- ?d = 0%Z => destruct (Z.eq_dec d 0) as [E|E] end;
      [exact E|].
    exfalso. apply H2. now apply Hiff.
Qed.

(** Closed instances of [two_class_batch]. *)
Ltac two_class :=
  unfold two_class_batch, binary; cbn;
  repeat first [ apply Forall_nil | apply Forall_cons | split | reflexivity
               | left; reflexivity | right; reflexivity ].

Lemma accuracy_correlation_range_witness :
  snd (accuracy [[0; 1]; [0; 1]]%Q [1; 0]%Z) = NaN.
Proof.
  apply (accuracy_correlation_range [[0; 1]; [0; 1]]%Q [1; 0]%Z).
  - two_class.
  - intros [[H0 _] _]. cbn in H0. destruct H0 as [H0|[H0|[]]]; discriminate H0.
Defined.

(** ** The evaluation loop on any batches *)

Lemma eval_fold_eq {Rest EvalInput}
  (forward : list string -> list Q -> BertModel Rest -> EvalInput -> list (list Q))
  (prune_type : list string) (prune_rate : list Q) (m : BertModel Rest)
  (batches : list (EvalInput * list Z)) (a : Z) (c : npfloat) (n e : Z) :
  fold_left (eval_step forward prune_type prune_rate m) batches (a, c, n, e)
  = ((a + zsum (map (fun b => fst (accuracy (forward prune_type prune_rate m (fst b))
                                            (snd b))) batches))%Z,
     fold_left fl_add
       (map (fun b => snd (accuracy (forward prune_type prune_rate m (fst b))
                                    (snd b))) batches) c,
     (n + Z.of_nat (length batches))%Z,
     (e + total_examples batches)%Z).
Proof.
  revert a c n e.
  induction batches as [|[x labels] bs IH]; intros a c n e.
  - cbn. now rewrite !Z.add_0_r.
  - cbn [fold_left map length]. unfold eval_step at 2. cbn [fst snd].
    destruct (accuracy (forward prune_type prune_rate m x) labels) as [h mc0].
    rewrite IH. cbn [fst snd].
    unfold total_examples, zsum. cbn [map fold_right snd].
    replace (n + 1 + Z.of_nat (length bs))%Z
      with (n + Z.of_nat (S (length bs)))%Z by lia.
    now rewrite <- !Z.add_assoc.
Qed.

(** X8.  One batch is enough to void the correlation of an epoch: when in
    some batch of the evaluation set the labels, or the predictions, are all
    of one class, the correlation of the whole epoch is NaN, whatever the
    other batches hold, and the score of the epoch for the task ["cola"]
    is 0. *)
Theorem degenerate_batch_voids_correlation {Rest Batch EvalInput}
  (forward : list string -> list Q -> BertModel Rest -> EvalInput -> list (list Q))
  (self : prune_function Batch EvalInput) (prune_type : list string)
  (prune_rate : list Q) (m : BertModel Rest) (x : EvalInput) (labels : list Z) :
  In (x, labels) (eval_dataloader self) ->
  two_class_batch (forward prune_type prune_rate m x) labels ->
  ~ (two_classes (predictions (forward prune_type prune_rate m x)) /\
     two_classes labels) ->
  exists acc,
    evaluate forward self prune_type prune_rate m = Ok (acc, NaN) /\
    (task_name self = "cola"%string -> epoch_score self acc NaN = Fin 0).
Proof.
  intros Hin Hb Hone. unfold evaluate. rewrite eval_fold_eq.
  assert (Hlen : (0 < Z.of_nat (length (eval_dataloader self)))%Z).
  { destruct (eval_dataloader self); [destruct Hin | cbn; lia]. }
  replace (0 + Z.of_nat (length (eval_dataloader self)) =? 0)%Z with false
    by (symmetry; apply Z.eqb_neq; lia).
  rewrite fold_fl_add_has_nan.
  - eexists. split; [reflexivity|]. intros Ht.
    unfold epoch_score. rewrite Ht. reflexivity.
  - apply in_map_iff. exists (x, labels). split; [|exact Hin]. cbn [fst snd].
    apply (accuracy_by_counts _ _ Hb).
    match goal with |- ?d = 0%Z => destruct (Z.eq_dec d 0) as [E|E] end;
      [exact E|].
    exfalso. apply Hone. now apply (classes_by_counts _ _ Hb).
Qed.

Lemma degenerate_batch_voids_correlation_witness :
  exists acc,
    evaluate (fun _ _ _ _ => [[0; 1]; [1; 0]]%Q) (tiny_self 1 [1; 1]%Z) [] []
      tiny_model = Ok (acc, NaN) /\
    epoch_score (tiny_self 1 [1; 1]%Z) acc NaN = Fin 0.
Proof.
  destruct (degenerate_batch_voids_correlation
              (fun _ _ _ _ => [[0; 1]; [1; 0]]%Q) (tiny_self 1 [1; 1]%Z) [] []
              tiny_model tt [1; 1]%Z) as (acc & He & Hs).
  - left. reflexivity.
  - two_class.
  - intros [_ [H0 _]]. cbn in H0. destruct H0 as [H0|[H0|[]]]; discriminate H0.
  - exists acc. split; [exact He | now apply Hs].
Defined.

Lemma hits_range (a b : list Z) :
  length a = length b ->
  (0 <= zsum (map (fun '(o, l) => if (o =? l)%Z then 1 else 0)%Z (combine a b))
   <= Z.of_nat (length b))%Z.
Proof.
  revert b. induction a as [|x a IH]; intros [|y b] Hlen; try discriminate Hlen.
  - cbn. lia.
  - injection Hlen as Hlen. specialize (IH b Hlen).
    unfold zsum in *. cbn [combine map fold_right length].
    rewrite Nat2Z.inj_succ. destruct (x =? y)%Z; lia.
Qed.

Lemma zsum_cons (a : Z) (l : list Z) : zsum (a :: l) = (a + zsum l)%Z.
Proof. reflexivity. Qed.

Lemma accuracy_hits (out : list (list Q)) (labels : list Z) :
  fst (accuracy out labels)
  = zsum (map (fun '(o, l) => if (o =? l)%Z then 1 else 0)%Z
              (combine (predictions out) labels)).
Proof. reflexivity. Qed.

Lemma eval_hits_range {Rest EvalInput}
  (forward : list string -> list Q -> BertModel Rest -> EvalInput -> list (list Q))
  (prune_type : list string) (prune_rate : list Q) (m : BertModel Rest)
  (batches : list (EvalInput * list Z)) :
  Forall (fun b => length (forward prune_type prune_rate m (fst b))
                   = length (snd b)) batches ->
  (0 <= zsum (map (fun b => fst (accuracy (forward prune_type prune_rate m (fst b))
                                          (snd b))) batches)
   <= total_examples batches)%Z.
Proof.
  induction 1 as [|[x labels] bs Hb _ IH]; [cbn; lia|].
  unfold total_examples in *. cbn [map fst snd] in *. rewrite !zsum_cons.
  rewrite accuracy_hits.
  pose proof (hits_range (predictions (forward prune_type prune_rate m x)) labels)
    as Hr.
  rewrite predictions_length in Hr. specialize (Hr Hb). lia.
Qed.

(** X9.  The accuracy of an epoch is a number between 0 and 1 as soon as
    the evaluation set holds an example and every batch comes with one row
    of logits per label. *)
Theorem epoch_accuracy_range {Rest Batch EvalInput}
  (forward : list string -> list Q -> BertModel Rest -> EvalInput -> list (list Q))
  (self : prune_function Batch EvalInput) (prune_type : list string)
  (prune_rate : list Q) (m : BertModel Rest) :
  Forall (fun b => length (forward prune_type prune_rate m (fst b))
                   = length (snd b)) (eval_dataloader self) ->
  (0 < total_examples (eval_dataloader self))%Z ->
  exists x mc,
    evaluate forward self prune_type prune_rate m = Ok (Fin x, mc) /\
    (0 <= x <= 1)%R.
Proof.
  intros Hrows Hpos. unfold evaluate. rewrite eval_fold_eq.
  assert (Hlen : (0 < Z.of_nat (length (eval_dataloader self)))%Z).
  { destruct (eval_dataloader self); [discriminate Hpos | cbn; lia]. }
  replace (0 + Z.of_nat (length (eval_dataloader self)) =? 0)%Z with false
    by (symmetry; apply Z.eqb_neq; lia).
  rewrite !Z.add_0_l.
  set (hits := zsum _).
  assert (Hh : (0 <= hits <= total_examples (eval_dataloader self))%Z)
    by (now apply eval_hits_range).
  unfold of_int.
  assert (Hnz : IZR (total_examples (eval_dataloader self)) <> 0%R)
    by (apply not_0_IZR; lia).
  rewrite fl_div_fin by exact Hnz.
  eexists. eexists. split; [reflexivity|].
  assert (Ht : (0 < IZR (total_examples (eval_dataloader self)))%R)
    by (apply IZR_lt; lia).
  assert (H0 : (0 <= IZR hits)%R) by (apply IZR_le; lia).
  assert (H1 : (IZR hits <= IZR (total_examples (eval_dataloader self)))%R)
    by (apply IZR_le; lia).
  split.
  - apply Rmult_le_reg_r with (IZR (total_examples (eval_dataloader self)));
      [exact Ht|].
    unfold Rdiv. rewrite Rmult_assoc, Rinv_l by lra. lra.
  - apply Rmult_le_reg_r with (IZR (total_examples (eval_dataloader self)));
      [exact Ht|].
    unfold Rdiv. rewrite Rmult_assoc, Rinv_l by lra. lra.
Qed.

Lemma epoch_accuracy_range_witness :
  exists x mc,
    evaluate (fun _ _ _ _ => [[0; 1]; [1; 0]]%Q) (tiny_self 1 [1; 1]%Z) [] []
      tiny_model = Ok (Fin x, mc) /\ (0 <= x <= 1)%R.
Proof.
  apply (epoch_accuracy_range (fun _ _ _ _ => [[0; 1]; [1; 0]]%Q)
           (tiny_self 1 [1; 1]%Z) [] [] tiny_model).
  - repeat constructor.
  - reflexivity.
Defined.

(** ** Runs that cannot go well *)

Section RunEdges.

Variables Rest Opt Batch EvalInput : Type.
Variable make_optimizer : BertModel Rest -> Opt.
Variable train_step :
  list string -> list Q -> nat -> Batch -> BertModel Rest * Opt -> BertModel Rest * Opt.
Variable forward : list string -> list Q -> BertModel Rest -> EvalInput -> list (list Q).
Variable self : prune_function Batch EvalInput.
Variables (prune_type : list string) (prune_rate : list Q).

(** X10.  With [int(num_train_epochs)] at most 0 (an option of 0.9, say)
    nothing is trained, evaluated or reported: the run returns the start
    value 0 of [best_acc], whatever the plan and the data are. *)
Theorem no_epoch_returns_zero (w : World Rest) :
  (py_int (num_train_epochs self) <= 0)%Z ->
  eval_after_train make_optimizer train_step forward self prune_type prune_rate w
  = (Ok (Fin 0), snd (deepcopy (self_model self) w)) /\
  nni_log (snd (deepcopy (self_model self) w)) = nni_log w /\
  nni_final (snd (deepcopy (self_model self) w)) = nni_final w.
Proof.
  intros H. unfold eval_after_train.
  replace (Z.to_nat (py_int (num_train_epochs self))) with 0 by lia.
  split; [reflexivity|]. split; reflexivity.
Qed.

Lemma epoch_empty_loader (model epoch_i : nat) (optimizer : Opt)
  (best_acc : npfloat) (w : World Rest) :
  train_dataloader self epoch_i = [] ->
  epoch train_step forward self model prune_type prune_rate epoch_i
    (optimizer, None, best_acc) w
  = (Raise UnboundLocalError, w).
Proof. intros H. unfold epoch. rewrite H. reflexivity. Qed.

Lemma run_on_empty_training_set (w : World Rest) :
  (0 < py_int (num_train_epochs self))%Z ->
  train_dataloader self 0 = [] ->
  eval_after_train make_optimizer train_step forward self prune_type prune_rate w
  = (Raise UnboundLocalError, snd (deepcopy (self_model self) w)).
Proof.
  intros Hn Hempty. unfold eval_after_train.
  destruct (Z.to_nat (py_int (num_train_epochs self))) as [|n] eqn:E; [lia|].
  cbn [seq for_eachM].
  unfold bindM at 1, deepcopy. cbv beta iota.
  unfold bindM at 1, get_obj. cbv beta iota.
  unfold bindM at 1. unfold bindM at 1.
  rewrite epoch_empty_loader by exact Hempty. reflexivity.
Qed.

(** X11.  An empty training set is not noticed before the end of the first
    epoch, where the loss is averaged over [step + 1]: no iteration having
    bound [step], the run raises [UnboundLocalError].  By then the model
    has been copied; nothing has been evaluated or reported. *)
Theorem empty_training_set_raises (w : World Rest) :
  (0 < py_int (num_train_epochs self))%Z ->
  train_dataloader self 0 = [] ->
  let run := eval_after_train make_optimizer train_step forward self
               prune_type prune_rate w in
  fst run = Raise UnboundLocalError /\
  next (snd run) = S (next w) /\
  heap (snd run) (next w) = heap w (self_model self) /\
  nni_log (snd run) = nni_log w /\ nni_final (snd run) = nni_final w.
Proof.
  intros Hn Hempty. cbv zeta.
  rewrite run_on_empty_training_set by assumption.
  cbn [fst snd deepcopy next heap nni_log nni_final].
  rewrite Nat.eqb_refl. repeat split; reflexivity.
Qed.

(** A loop that returns has run its body, with a normal outcome, on every
    element. *)
Lemma for_eachM_ok {X S} (l : list X) (body : X -> S -> M Rest S) (s s' : S)
  (w w' : World Rest) :
  for_eachM l body s w = (Ok s', w') ->
  forall x, In x l -> exists s0 w0 s1 w1, body x s0 w0 = (Ok s1, w1).
Proof.
  revert s w. induction l as [|y l IH]; intros s w H x Hx; [destruct Hx|].
  cbn [for_eachM] in H. unfold bindM in H.
  destruct (body y s w) as [[s1|e] w1] eqn:E; [|discriminate H].
  destruct Hx as [->|Hx].
  - now exists s, w, s1, w1.
  - now apply (IH s1 w1 H).
Qed.

Lemma bindM_ok {A B} (m : M Rest A) (f : A -> M Rest B) (b : B)
  (w w' : World Rest) :
  bindM m f w = (Ok b, w') ->
  exists a w1, m w = (Ok a, w1) /\ f a w1 = (Ok b, w').
Proof.
  unfold bindM. destruct (m w) as [[a|e] w1]; [|discriminate].
  intros H. now exists a, w1.
Qed.

(** A training iteration that returns has found the 48 types. *)
Lemma train_iteration_ok (model step : nat) (batch : Batch) (optimizer o' : Opt)
  (w w' : World Rest) :
  train_iteration train_step model prune_type prune_rate step batch optimizer w
  = (Ok o', w') ->
  48 <= length prune_type.
Proof.
  unfold train_iteration. intros H.
  apply bindM_ok in H. destruct H as (m & w1 & _ & H).
  destruct (train_step prune_type prune_rate step batch (m, optimizer))
    as [m' optimizer'].
  apply bindM_ok in H. destruct H as (u & w2 & _ & H).
  apply bindM_ok in H. destruct H as (u' & w3 & H & _).
  destruct (for_eachM_ok _ _ _ _ _ _ H 11) as (s0 & w0 & s1 & w4 & Hb).
  { apply in_seq. unfold layer_num. lia. }
  apply bindM_ok in Hb. destruct Hb as (m2 & w5 & _ & Hb).
  apply bindM_ok in Hb. destruct Hb as (ls & w6 & Hb & _).
  unfold lift in Hb. injection Hb as Hb _.
  apply sparse_layer_ok in Hb. destruct Hb as (L & L' & _ & Hpt & _).
  lia.
Qed.

(** X12.  What a run of at least one epoch that returns has found: a first
    batch to train on, a batch to evaluate on, and 48 types in the plan.
    (The rates are not among the requirements: a type that its slot does
    not know leaves the rate of the slot unread.) *)
Theorem returning_run_had (best : npfloat) (w w' : World Rest) :
  (0 < py_int (num_train_epochs self))%Z ->
  eval_after_train make_optimizer train_step forward self prune_type prune_rate w
  = (Ok best, w') ->
  train_dataloader self 0 <> [] /\ eval_dataloader self <> [] /\
  48 <= length prune_type.
Proof.
  intros Hn H.
  assert (Htrain : train_dataloader self 0 <> []).
  { intros Hempty. rewrite run_on_empty_training_set in H by assumption.
    discriminate H. }
  split; [exact Htrain|]. split.
  - pose proof (eval_after_train_outcome _ _ _ _ _ _ _ _ _ _ _ _ _ H)
      as (scores & Hsc & Hlen & _).
    destruct scores as [|s scores]; [cbn in Hlen; lia|].
    inversion Hsc as [|? ? (m & a & c & He & _) _]; subst.
    intros Hempty. unfold evaluate in He. rewrite Hempty in He.
    discriminate He.
  - unfold eval_after_train in H.
    apply bindM_ok in H. destruct H as (model & w1 & _ & H).
    apply bindM_ok in H. destruct H as (m & w2 & _ & H).
    apply bindM_ok in H. destruct H as (st & w3 & H & _).
    destruct (for_eachM_ok _ _ _ _ _ _ H 0) as ([[o s] b] & w4 & st1 & w5 & He).
    { apply in_seq. lia. }
    unfold epoch in He.
    apply bindM_ok in He. destruct He as (st2 & w6 & He & _).
    destruct (train_dataloader self 0) as [|batch batches] eqn:E;
      [congruence|].
    cbn [length seq combine] in He.
    destruct (for_eachM_ok _ _ _ _ _ _ He (0, batch) (or_introl eq_refl))
      as ([o1 s1] & w7 & st3 & w8 & Hi).
    apply bindM_ok in Hi. destruct Hi as (o2 & w9 & Hi & _).
    now apply train_iteration_ok in Hi.
Qed.

(** The final result is out of reach of the run. *)
Lemma eval_after_train_keeps_final (rates : list Q) (w : World Rest) :
  nni_final (snd (eval_after_train make_optimizer train_step forward self
                    prune_type rates w)) = nni_final w.
Proof.
  set (P := fun a b : World Rest => nni_final b = nni_final a).
  assert (Hr : forall a, P a a) by (intros a; reflexivity).
  assert (Ht : forall a b c, P a b -> P b c -> P a c)
    by (unfold P; intros a b c H1 H2; congruence).
  assert (Hset : forall q m, respects P (set_obj q m))
    by (intros q m a; reflexivity).
  assert (Hrep : forall s, respects P (report_intermediate_result s))
    by (intros s a; reflexivity).
  assert (Hcopy : forall q, respects P (deepcopy q))
    by (intros q a; reflexivity).
  enough (H : respects P (eval_after_train make_optimizer train_step forward
                            self prune_type rates)) by (apply H).
  unfold eval_after_train.
  rbind. intros model. rbind. intros m.
  rbind; [|intros [[? ?] ?]; now apply respects_ret].
  apply respects_for_eachM; trivial. intros epoch_i [[optimizer step] best_acc].
  unfold epoch. rbind.
  { apply training_loop_respects; trivial. }
  intros [optimizer' step']. rbind. intros _. rbind. intros m1.
  rbind. intros [acc mc]. rbind.
Qed.

(** X13.  [main] reports a final result only for a run that returns: when
    the balancer raises, nothing is run and the world is as before; when the
    run raises, no final result is set. *)
Theorem failed_trial_reports_no_final (rates0 : list Q) (e : Exn)
  (w w' : World Rest) :
  main_trial make_optimizer train_step forward self prune_type rates0 w
  = (Raise e, w') ->
  nni_final w' = nni_final w /\
  (forall e0, balance rates0 (3 # 10) = Raise e0 -> e = e0 /\ w' = w).
Proof.
  unfold main_trial. unfold bindM at 1, lift.
  destruct (balance rates0 (3 # 10)) as [rates1|e1].
  - unfold bindM at 1.
    pose proof (eval_after_train_keeps_final rates1 w) as Hk.
    destruct (eval_after_train make_optimizer train_step forward self
                prune_type rates1 w) as [[acc|e2] w1].
    + cbn. discriminate.
    + intros H. injection H as <- <-.
      split; [exact Hk|]. intros e0 H0. discriminate H0.
  - intros H. injection H as <- <-. split; [reflexivity|].
    intros e0 H0. injection H0 as <-. now split.
Qed.

End RunEdges.

Lemma no_epoch_returns_zero_witness :
  eval_after_train (fun _ => tt) (fun _ _ _ _ s => s)
    (fun _ _ _ _ => [[0; 1]; [1; 0]]%Q)
    (tiny_self (9 # 10) [1; 0]%Z) [] [] tiny_world
  = (Ok (Fin 0), snd (deepcopy 0 tiny_world)).
Proof.
  apply (no_epoch_returns_zero unit unit unit unit (fun _ => tt)
           (fun _ _ _ _ s => s) (fun _ _ _ _ => [[0; 1]; [1; 0]]%Q)
           (tiny_self (9 # 10) [1; 0]%Z) [] [] tiny_world).
  vm_compute. discriminate.
Defined.

Lemma empty_training_set_raises_witness :
  fst (eval_after_train (fun _ => tt) (fun _ _ _ _ s => s)
         (fun _ _ _ _ => [[0; 1]; [1; 0]]%Q)
         (mkSelf "cola"%string 3 (fun _ => @nil unit) [(tt, [1; 0]%Z)] 0)
         (repeat "vanilla"%string 48) (repeat (1 # 2)%Q 48) tiny_world)
  = Raise UnboundLocalError.
Proof.
  apply (empty_training_set_raises unit unit unit unit (fun _ => tt)
           (fun _ _ _ _ s => s) (fun _ _ _ _ => [[0; 1]; [1; 0]]%Q)
           (mkSelf "cola"%string 3 (fun _ => @nil unit) [(tt, [1; 0]%Z)] 0)).
  - vm_compute. reflexivity.
  - reflexivity.
Defined.

Lemma returning_run_had_witness :
  48 <= length (repeat "vanilla"%string 48).
Proof.
  unfold tiny_run.
  pose proof (returning_run_had unit unit unit unit (fun _ => tt)
                (fun _ _ _ _ s => s) (fun _ _ _ _ => [[0; 1]; [1; 0]]%Q)
                (tiny_self 1 [1; 0]%Z) (repeat "vanilla"%string 48)
                (repeat (1 # 2)%Q 48)) as H.
  match type of H with
  | forall best w w', _ -> ?run w = _ -> _ =>
      assert (Hf : match fst (run tiny_world) with
                   | Ok _ => True | Raise _ => False end)
        by (run_concrete; exact I);
      destruct (run tiny_world) as [r w'] eqn:E
  end.
  cbn [fst] in Hf. destruct r as [b|e]; [|contradiction].
  apply (H b tiny_world w'); [vm_compute; reflexivity | exact E].
Defined.

Lemma failed_trial_reports_no_final_witness :
  main_trial (fun _ => tt) (fun _ _ _ _ s => s)
    (fun _ _ _ _ => [[0; 1]; [1; 0]]%Q) (tiny_self 1 [1; 0]%Z)
    (repeat "vanilla"%string 48) (repeat 0%Q 48) tiny_world
  = (Raise ZeroDivisionError, tiny_world) /\
  nni_final tiny_world = None.
Proof.
  assert (H : main_trial (fun _ => tt) (fun _ _ _ _ s => s)
                (fun _ _ _ _ => [[0; 1]; [1; 0]]%Q) (tiny_self 1 [1; 0]%Z)
                (repeat "vanilla"%string 48) (repeat 0%Q 48) tiny_world
              = (Raise ZeroDivisionError, tiny_world))
    by (vm_compute; reflexivity).
  split; [exact H|].
  destruct (failed_trial_reports_no_final unit unit unit unit (fun _ => tt)
              (fun _ _ _ _ s => s) (fun _ _ _ _ => [[0; 1]; [1; 0]]%Q)
              (tiny_self 1 [1; 0]%Z) (repeat "vanilla"%string 48)
              (repeat 0%Q 48) ZeroDivisionError tiny_world tiny_world H)
    as [Hf _].
  exact (eq_trans Hf eq_refl).
Defined.

(** ** Truncation of a sequence pair *)

(** One turn of the loop, as the source writes it. *)
Lemma truncate_loop {A} (tokens_a tokens_b : list A) (max_length : Z) :
  _truncate_seq_pair tokens_a tokens_b max_length
  = if (Z.of_nat (length tokens_a + length tokens_b) <=? max_length)%Z
    then Ok (tokens_a, tokens_b)
    else if length tokens_b <? length tokens_a
         then tokens_a <- py_pop tokens_a ;;
              _truncate_seq_pair tokens_a tokens_b max_length
         else tokens_b <- py_pop tokens_b ;;
              _truncate_seq_pair tokens_a tokens_b max_length.
Proof.
  rewrite _truncate_seq_pair_equation_1.
  destruct (Z.of_nat (length tokens_a + length tokens_b) <=? max_length)%Z;
    [reflexivity|].
  unfold _truncate_seq_pair_unfold_clause_1.
  destruct (length tokens_b <? length tokens_a).
  - destruct tokens_a; reflexivity.
  - destruct tokens_b; reflexivity.
Qed.

Lemma firstn_removelast {A} (l : list A) (n : nat) :
  n <= length l - 1 -> firstn n (removelast l) = firstn n l.
Proof.
  intros Hn. rewrite removelast_firstn_len, firstn_firstn.
  f_equal. lia.
Qed.

Lemma removelast_length {A} (l : list A) :
  length (removelast l) = length l - 1.
Proof. rewrite removelast_firstn_len, length_firstn. lia. Qed.

(** For a bound that is not negative the loop ends by [break], on a
    prefix of each list. *)
Lemma truncate_prefixes {A} (tokens_a tokens_b : list A) (max_length : Z) :
  (0 <= max_length)%Z ->
  exists na nb,
    _truncate_seq_pair tokens_a tokens_b max_length
    = Ok (firstn na tokens_a, firstn nb tokens_b) /\
    na <= length tokens_a /\ nb <= length tokens_b /\
    Z.of_nat (na + nb)
    = Z.min (Z.of_nat (length tokens_a + length tokens_b)) max_length /\
    (na < length tokens_a -> nb <= na) /\
    (nb < length tokens_b -> na <= nb + 1).
Proof.
  intros Hm.
  remember (length tokens_a + length tokens_b) as n eqn:En.
  revert tokens_a tokens_b En.
  induction n as [n IH] using lt_wf_ind. intros a b En.
  rewrite truncate_loop, <- En.
  destruct (Z.leb_spec (Z.of_nat n) max_length) as [Hle|Hgt].
  - exists (length a), (length b). rewrite !firstn_all.
    split; [reflexivity|]. rewrite <- En. repeat split; lia.
  - destruct (Nat.ltb_spec (length b) (length a)) as [Hlt|Hge].
    + destruct a as [|x l]; [cbn in Hlt; lia|].
      cbn [py_pop bind].
      destruct (IH (n - 1) ltac:(cbn in En; lia) (removelast (x :: l)) b)
        as (na & nb & He & Ha & Hb & Hs & H1 & H2).
      { rewrite removelast_length. cbn [length] in *. lia. }
      rewrite removelast_length in *.
      exists na, nb. rewrite firstn_removelast in He by exact Ha.
      split; [exact He|]. cbn [length] in *. repeat split; lia.
    + destruct b as [|y l]; [cbn in Hge, En; lia|].
      cbn [py_pop bind].
      destruct (IH (n - 1) ltac:(cbn in En; lia) a (removelast (y :: l)))
        as (na & nb & He & Ha & Hb & Hs & H1 & H2).
      { rewrite removelast_length. cbn [length] in *. lia. }
      rewrite removelast_length in *.
      exists na, nb. rewrite firstn_removelast in He by exact Hb.
      split; [exact He|]. cbn [length] in *. repeat split; lia.
Qed.

(** For a negative bound the loop cannot stop: it empties both lists and
    raises at the [pop] that follows. *)
Lemma truncate_negative {A} (tokens_a tokens_b : list A) (max_length : Z) :
  (max_length < 0)%Z ->
  _truncate_seq_pair tokens_a tokens_b max_length = Raise IndexError.
Proof.
  intros Hm.
  remember (length tokens_a + length tokens_b) as n eqn:En.
  revert tokens_a tokens_b En.
  induction n as [n IH] using lt_wf_ind. intros a b En.
  rewrite truncate_loop, <- En.
  destruct (Z.leb_spec (Z.of_nat n) max_length) as [Hle|Hgt]; [lia|].
  destruct (Nat.ltb_spec (length b) (length a)) as [Hlt|Hge].
  - destruct a as [|x l]; [reflexivity|]. cbn [py_pop bind].
    apply (IH (n - 1)); [cbn in En; lia|].
    rewrite removelast_length. cbn [length] in *. lia.
  - destruct b as [|y l]; [reflexivity|]. cbn [py_pop bind].
    apply (IH (n - 1)); [cbn in En; lia|].
    rewrite removelast_length. cbn [length] in *. lia.
Qed.

(** X14.  For a bound that is not negative the truncation returns a prefix
    of each list.  Together they hold [min(total, max_length)] tokens; a
    list that lost tokens is not shorter than the other one, up to one
    token for the second list: the shorter list is kept whole as long as
    possible, then the two are cut to the same length, the odd token going
    to the first list.  These conditions leave one pair of lengths only. *)
Theorem truncate_seq_pair_fits {A} (tokens_a tokens_b : list A)
  (max_length : Z) :
  (0 <= max_length)%Z ->
  exists na nb,
    _truncate_seq_pair tokens_a tokens_b max_length
    = Ok (firstn na tokens_a, firstn nb tokens_b) /\
    na <= length tokens_a /\ nb <= length tokens_b /\
    Z.of_nat (na + nb)
    = Z.min (Z.of_nat (length tokens_a + length tokens_b)) max_length /\
    (na < length tokens_a -> nb <= na) /\
    (nb < length tokens_b -> na <= nb + 1) /\
    (forall na' nb',
       na' <= length tokens_a -> nb' <= length tokens_b ->
       Z.of_nat (na' + nb')
       = Z.min (Z.of_nat (length tokens_a + length tokens_b)) max_length ->
       (na' < length tokens_a -> nb' <= na') ->
       (nb' < length tokens_b -> na' <= nb' + 1) ->
       na' = na /\ nb' = nb).
Proof.
  intros Hm.
  destruct (truncate_prefixes tokens_a tokens_b max_length Hm)
    as (na & nb & He & Ha & Hb & Hs & H1 & H2).
  exists na, nb. repeat (split; [assumption|]).
  intros na' nb' Ha' Hb' Hs' H1' H2'.
  destruct (Nat.lt_trichotomy na na') as [Hlt|[Heq|Hgt]].
  - assert (nb' < nb) by lia. lia.
  - split; [now symmetry | lia].
  - assert (nb < nb') by lia. lia.
Qed.

Lemma truncate_seq_pair_fits_witness :
  exists na nb,
    _truncate_seq_pair [1; 2; 3; 4; 5] [6; 7] 4
    = Ok (firstn na [1; 2; 3; 4; 5], firstn nb [6; 7]) /\ na + nb = 4.
Proof.
  destruct (truncate_seq_pair_fits [1; 2; 3; 4; 5] [6; 7] 4)
    as (na & nb & He & _ & _ & Hs & _); [lia|].
  exists na, nb. split; [exact He|]. cbn in Hs. lia.
Defined.

(** X15.  The truncation raises for a negative bound and for no other:
    with [max_length < 0] (a [max_seq_length] below 3 at the call) both lists
    are emptied and the [pop] that follows raises [IndexError]; no other
    exception leaves the function. *)
Theorem truncate_seq_pair_raises {A} (tokens_a tokens_b : list A)
  (max_length : Z) :
  ((max_length < 0)%Z ->
   _truncate_seq_pair tokens_a tokens_b max_length = Raise IndexError) /\
  (forall e, _truncate_seq_pair tokens_a tokens_b max_length = Raise e ->
             (max_length < 0)%Z /\ e = IndexError).
Proof.
  split; [apply truncate_negative|].
  intros e He. destruct (Z.lt_ge_cases max_length 0) as [Hm|Hm].
  - rewrite truncate_negative in He by exact Hm.
    injection He as <-. now split.
  - destruct (truncate_prefixes tokens_a tokens_b max_length Hm)
      as (na & nb & Hok & _).
    rewrite Hok in He. discriminate He.
Qed.

Lemma truncate_seq_pair_raises_witness :
  _truncate_seq_pair [1; 2; 3] [4] (2 - 3) = Raise IndexError.
Proof. apply truncate_seq_pair_raises. lia. Defined.

(** ** Conversion of examples to features *)

Lemma label_eqb_eq (a b : option string) : label_eqb a b = true <-> a = b.
Proof.
  destruct a as [x|], b as [y|]; cbn; try (split; congruence).
  rewrite String.eqb_eq. split; congruence.
Qed.

(** The label map sends a label to a position of the label list that holds
    it, and knows exactly the labels of the list. *)
Lemma label_map_fold (l : list (option string)) (a : nat)
  (d : dict (option string) nat) (k : option string) :
  (forall i,
     dict_get label_eqb
       (fold_left (fun d '(i, label) => dict_set d label i)
          (combine (seq a (length l)) l) d) k = Some i ->
     (a <= i /\ nth_error l (i - a) = Some k) \/ dict_get label_eqb d k = Some i) /\
  (dict_get label_eqb
     (fold_left (fun d '(i, label) => dict_set d label i)
        (combine (seq a (length l)) l) d) k = None ->
   ~ In k l /\ dict_get label_eqb d k = None).
Proof.
  revert a d. induction l as [|x l IH]; intros a d; cbn [length seq combine fold_left].
  - split; [intros i H; now right | intros H; now split].
  - destruct (IH (S a) (dict_set d x a)) as [IH1 IH2]. split.
    + intros i H. destruct (IH1 i H) as [[Hi Hn]|Hd].
      * left. split; [lia|]. replace (i - a) with (S (i - S a)) by lia. exact Hn.
      * unfold dict_get, dict_set in Hd. cbn [find fst snd] in Hd.
        destruct (label_eqb x k) eqn:E.
        -- apply label_eqb_eq in E. injection Hd as <-. left.
           split; [lia|]. rewrite Nat.sub_diag. cbn. now f_equal.
        -- right. exact Hd.
    + intros H. destruct (IH2 H) as [Hn Hd].
      unfold dict_get, dict_set in Hd. cbn [find fst snd] in Hd.
      destruct (label_eqb x k) eqn:E; [discriminate Hd|].
      split; [|exact Hd]. intros [Hx|Hin]; [|contradiction].
      apply label_eqb_eq in Hx. congruence.
Qed.

Lemma label_map_get (label_list : list (option string)) (k : option string) :
  (forall i, dict_get label_eqb (make_label_map label_list) k = Some i ->
             nth_error label_list i = Some k) /\
  (dict_get label_eqb (make_label_map label_list) k = None <-> ~ In k label_list).
Proof.
  unfold make_label_map, enumerate.
  destruct (label_map_fold label_list 0 [] k) as [H1 H2]. split; [|split].
  - intros i H. destruct (H1 i H) as [[_ Hn]|Hd]; [|discriminate Hd].
    now rewrite Nat.sub_0_r in Hn.
  - intros H. now apply H2.
  - intros Hn.
    destruct (dict_get label_eqb _ k) as [i|] eqn:E; [|reflexivity].
    exfalso. apply Hn. destruct (H1 i eq_refl) as [[_ Hi]|Hd]; [|discriminate Hd].
    eapply nth_error_In. exact Hi.
Qed.

Local Open Scope outcome_scope.

(** From the tokens to the features: the padding makes up for the missing
    length, and the three assertions hold. *)
Lemma features_tail (convert_tokens_to_ids : list string -> Outcome (list Z))
  (tokens : list string) (seg : list Z) (max_seq_length : Z)
  (LS : Outcome LabelId) :
  one_id_per_token convert_tokens_to_ids ->
  length seg = length tokens -> 2 <= length tokens ->
  (Z.of_nat (length tokens) <= max_seq_length)%Z ->
  exists ids mask seg',
    (forall l, padded_to max_seq_length (mkInputFeatures ids mask seg' l)) /\
    (input_ids <- convert_tokens_to_ids tokens ;;
     let input_mask := repeat 1%Z (length input_ids) in
     let padding := py_repeat 0%Z (max_seq_length - Z.of_nat (length input_ids)) in
     let input_ids := input_ids ++ padding in
     let input_mask := input_mask ++ padding in
     let segment_ids := seg ++ padding in
     _ <- py_assert (Z.of_nat (length input_ids) =? max_seq_length)%Z ;;
     _ <- py_assert (Z.of_nat (length input_mask) =? max_seq_length)%Z ;;
     _ <- py_assert (Z.of_nat (length segment_ids) =? max_seq_length)%Z ;;
     label_id <- LS ;;
     Return (mkInputFeatures input_ids input_mask segment_ids label_id))
    = (label_id <- LS ;; Return (mkInputFeatures ids mask seg' label_id)).
Proof.
  intros Hids Hseg H2 Hmax.
  destruct (Hids tokens) as (ids & Hc & Hl). rewrite Hc. cbn [bindO]. cbv zeta.
  set (n := length tokens) in *.
  set (padding := py_repeat 0%Z (max_seq_length - Z.of_nat (length ids))).
  assert (Hp : length padding = Z.to_nat max_seq_length - n).
  { unfold padding, py_repeat. rewrite repeat_length, Hl. lia. }
  assert (A1 : (Z.of_nat (length (ids ++ padding)) =? max_seq_length)%Z = true).
  { apply Z.eqb_eq. rewrite length_app, Hp, Hl. lia. }
  assert (A2 : (Z.of_nat (length (repeat 1%Z (length ids) ++ padding))
                =? max_seq_length)%Z = true).
  { apply Z.eqb_eq. rewrite length_app, repeat_length, Hp, Hl. lia. }
  assert (A3 : (Z.of_nat (length (seg ++ padding)) =? max_seq_length)%Z = true).
  { apply Z.eqb_eq. rewrite length_app, Hp, Hseg. lia. }
  rewrite A1, A2, A3. cbn [py_assert bindO].
  eexists. eexists. eexists. split; [|reflexivity].
  intros l. exists n. cbn [input_ids input_mask segment_ids].
  split; [exact H2|]. split; [exact Hmax|]. split; [|split; [|split]].
  - rewrite Hl. f_equal. unfold padding, py_repeat. f_equal. lia.
  - rewrite length_app, Hp, Hl. lia.
  - rewrite length_app, Hp, Hseg. lia.
  - intros i Hi. split.
    + rewrite app_nth2 by lia. unfold padding, py_repeat. apply nth_repeat.
    + rewrite app_nth2 by lia. unfold padding, py_repeat. apply nth_repeat.
Qed.

Lemma py_slice_to_length {A} (l : list A) (stop : Z) :
  (0 <= stop)%Z -> Z.of_nat (length (py_slice_to l stop)) = Z.min stop (Z.of_nat (length l)).
Proof.
  intros H. unfold py_slice_to.
  replace (stop <? 0)%Z with false by (symmetry; apply Z.ltb_ge; exact H).
  rewrite length_firstn. lia.
Qed.

Section ConversionFacts.

Variable tokenize : string -> list string.
Variable convert_tokens_to_ids : list string -> Outcome (list Z).
Variable float_of_string : string -> option Q.
Hypothesis Hids : one_id_per_token convert_tokens_to_ids.

(** With room for the markers, only the label can make the conversion of an
    example fail. *)
Lemma convert_example_when_fits (label_map : dict (option string) nat)
  (max_seq_length : Z) (output_mode : string) (example : InputExample) :
  (3 <= max_seq_length)%Z \/
  ((2 <= max_seq_length)%Z /\ py_truthy (text_b example) = None) ->
  exists ids mask seg,
    (forall l, padded_to max_seq_length (mkInputFeatures ids mask seg l)) /\
    convert_example tokenize convert_tokens_to_ids float_of_string label_map
      max_seq_length output_mode example
    = (label_id <-
         (if (output_mode =? "classification")%string then
            match dict_get label_eqb label_map (label example) with
            | Some i => Return (IntLabel i)
            | None => Throw KeyError
            end
          else if (output_mode =? "regression")%string then
            match label example with
            | None => Throw TypeError
            | Some s => match float_of_string s with
                        | Some x => Return (FloatLabel x)
                        | None => Throw ValueError
                        end
            end
          else Throw KeyError) ;;
       Return (mkInputFeatures ids mask seg label_id)).
Proof.
  intros Hmax. unfold convert_example. cbv zeta.
  destruct (py_truthy (text_b example)) as [s|] eqn:Et.
  - assert (H3 : (3 <= max_seq_length)%Z)
      by (destruct Hmax as [H|[_ H]]; [exact H | discriminate H]).
    destruct (truncate_prefixes (tokenize (text_a example)) (tokenize s)
                (max_seq_length - 3)) as (na & nb & He & Ha & Hb & Hs & _);
      [lia|].
    rewrite He. cbn [of_result bindO].
    assert (La : length (firstn na (tokenize (text_a example))) = na)
      by (rewrite length_firstn; lia).
    assert (Lb : length (firstn nb (tokenize s)) = nb)
      by (rewrite length_firstn; lia).
    destruct (firstn nb (tokenize s)) as [|t tb] eqn:Eb.
    + apply features_tail; trivial.
      * rewrite repeat_length. reflexivity.
      * rewrite !length_app. cbn [length]. lia.
      * rewrite !length_app, La. cbn [length] in *. lia.
    + apply features_tail; trivial.
      * rewrite ?length_app, ?repeat_length, ?length_app. cbn [length]. lia.
      * rewrite !length_app. cbn [length]. lia.
      * rewrite !length_app, La. cbn [length] in *. lia.
  - cbn [bindO].
    assert (H2 : (2 <= max_seq_length)%Z) by lia.
    set (ta := if (max_seq_length - 2 <? Z.of_nat (length (tokenize (text_a example))))%Z
               then py_slice_to (tokenize (text_a example)) (max_seq_length - 2)
               else tokenize (text_a example)).
    assert (La : (Z.of_nat (length ta) <= max_seq_length - 2)%Z).
    { unfold ta.
      destruct (Z.ltb_spec (max_seq_length - 2)
                  (Z.of_nat (length (tokenize (text_a example))))) as [H|H].
      - rewrite py_slice_to_length by lia. lia.
      - exact H. }
    apply features_tail; trivial.
    + rewrite repeat_length. reflexivity.
    + rewrite !length_app. cbn [length]. lia.
    + rewrite !length_app. cbn [length]. lia.
Qed.

(** The loop that collects the features. *)
Lemma collect_features (conv : InputExample -> Outcome InputFeatures)
  (P : InputExample -> InputFeatures -> Prop) (examples : list InputExample)
  (acc : list InputFeatures) :
  Forall (fun ex => exists f, conv ex = Return f /\ P ex f) examples ->
  exists fs,
    for_eachO examples (fun example features =>
        f <- conv example ;; Return (features ++ [f])) acc
    = Return (acc ++ fs) /\ Forall2 P examples fs.
Proof.
  intros H. revert acc. induction H as [|ex l (f & Hf & Hp) _ IH]; intros acc.
  - exists []. cbn. now rewrite app_nil_r.
  - cbn [for_eachO]. rewrite Hf. cbn [bindO].
    destruct (IH (acc ++ [f])) as (fs & He & HP).
    exists (f :: fs). rewrite He, <- app_assoc. split; [reflexivity|].
    now constructor.
Qed.

(** X16.  The truncation leaves room for the markers and the padding fills
    what is left: with a tokenizer that gives one id per token, for a
    classification task whose examples carry labels of the label list, and
    with [max_seq_length] at least 3 (at least 2 when no example has a second
    text), the conversion returns, no assertion fails, and every example
    gets features of [max_seq_length] ids, mask bits and segment ids, the
    mask being ones on the real tokens and zeros on the padding, and the
    label id a position of the label in the label list. *)
Theorem features_fit (examples : list InputExample)
  (label_list : list (option string)) (max_seq_length : Z) :
  (3 <= max_seq_length)%Z \/
  ((2 <= max_seq_length)%Z /\
   Forall (fun ex => py_truthy (text_b ex) = None) examples) ->
  Forall (fun ex => In (label ex) label_list) examples ->
  exists features,
    convert_examples_to_features tokenize convert_tokens_to_ids float_of_string
      (Some examples) label_list max_seq_length "classification"
    = Return features /\
    Forall2 (fun ex f =>
               padded_to max_seq_length f /\
               exists i, label_id f = IntLabel i /\
                         nth_error label_list i = Some (label ex))
            examples features.
Proof.
  intros Hmax Hlab. unfold convert_examples_to_features. cbv zeta.
  destruct (collect_features
              (convert_example tokenize convert_tokens_to_ids float_of_string
                 (make_label_map label_list) max_seq_length "classification")
              (fun ex f =>
                 padded_to max_seq_length f /\
                 exists i, label_id f = IntLabel i /\
                           nth_error label_list i = Some (label ex))
              examples []) as (fs & He & HP).
  - apply Forall_forall. intros ex Hex.
    destruct (convert_example_when_fits (make_label_map label_list)
                max_seq_length "classification" ex)
      as (ids & mask & seg & Hpad & Hc).
    { destruct Hmax as [H|[H Hs]]; [now left | right; split; [exact H|]].
      rewrite Forall_forall in Hs. now apply Hs. }
    rewrite Forall_forall in Hlab.
    rewrite Hc. cbn [String.eqb Ascii.eqb Bool.eqb].
    destruct (label_map_get label_list (label ex)) as [Hsome Hnone].
    destruct (dict_get label_eqb (make_label_map label_list) (label ex))
      as [i|] eqn:Ed.
    + cbn [bindO]. eexists. split; [reflexivity|]. split; [apply Hpad|].
      exists i. split; [reflexivity | now apply Hsome].
    + exfalso. apply (proj1 Hnone); [reflexivity | now apply Hlab].
  - exists fs. split; [exact He | exact HP].
Qed.

(** The loop stops at the first example that fails. *)
Lemma collect_features_throw (conv : InputExample -> Outcome InputFeatures)
  (pre rest : list InputExample) (ex : InputExample) (e : Exception)
  (acc : list InputFeatures) :
  Forall (fun ex => exists f, conv ex = Return f) pre ->
  conv ex = Throw e ->
  for_eachO (pre ++ ex :: rest) (fun example features =>
      f <- conv example ;; Return (features ++ [f])) acc
  = Throw e.
Proof.
  intros H He. revert acc. induction H as [|x l (f & Hf) _ IH]; intros acc.
  - cbn [app for_eachO]. rewrite He. reflexivity.
  - cbn [app for_eachO]. rewrite Hf. cbn [bindO]. apply IH.
Qed.

(** Too short a [max_seq_length] makes the conversion of an example fail. *)
Lemma convert_example_short (label_map : dict (option string) nat)
  (max_seq_length : Z) (output_mode : string) (example : InputExample) :
  (py_truthy (text_b example) <> None -> (max_seq_length < 3)%Z ->
   convert_example tokenize convert_tokens_to_ids float_of_string label_map
     max_seq_length output_mode example = Throw (Builtin IndexError)) /\
  (py_truthy (text_b example) = None -> (max_seq_length < 2)%Z ->
   convert_example tokenize convert_tokens_to_ids float_of_string label_map
     max_seq_length output_mode example = Throw AssertionError).
Proof.
  split.
  - intros Ht Hm. unfold convert_example. cbv zeta.
    destruct (py_truthy (text_b example)) as [s|]; [|congruence].
    rewrite truncate_negative by lia. reflexivity.
  - intros Ht Hm. unfold convert_example. cbv zeta. rewrite Ht. cbn [bindO].
    match goal with
    | |- context [convert_tokens_to_ids ?t] =>
        destruct (Hids t) as (ids & Hc & Hl); rewrite Hc
    end.
    cbn [bindO].
    rewrite !length_app in Hl. cbn [length] in Hl.
    replace (py_repeat 0%Z (max_seq_length - Z.of_nat (length ids)))
      with (@nil Z) by (unfold py_repeat; now replace (Z.to_nat _) with 0 by lia).
    rewrite app_nil_r.
    replace (Z.of_nat (length ids) =? max_seq_length)%Z with false
      by (symmetry; apply Z.eqb_neq; lia).
    reflexivity.
Qed.

(** X17.  Too short a [max_seq_length] is not refused, it makes the
    conversion of any non-empty list of examples fail on the first example:
    below 3, a first example with a second text raises [IndexError], from
    the truncation; below 2, a first example without one fails the first
    assertion.  The label list and the output mode play no part. *)
Theorem short_max_seq_length_raises (label_list : list (option string))
  (max_seq_length : Z) (output_mode : string) (example : InputExample)
  (rest : list InputExample) :
  (py_truthy (text_b example) <> None -> (max_seq_length < 3)%Z ->
   convert_examples_to_features tokenize convert_tokens_to_ids float_of_string
     (Some (example :: rest)) label_list max_seq_length output_mode
   = Throw (Builtin IndexError)) /\
  (py_truthy (text_b example) = None -> (max_seq_length < 2)%Z ->
   convert_examples_to_features tokenize convert_tokens_to_ids float_of_string
     (Some (example :: rest)) label_list max_seq_length output_mode
   = Throw AssertionError).
Proof.
  destruct (convert_example_short (make_label_map label_list) max_seq_length
              output_mode example) as [H1 H2].
  unfold convert_examples_to_features. cbv zeta. cbn [for_eachO].
  split; intros Ht Hm.
  - rewrite (H1 Ht Hm). reflexivity.
  - rewrite (H2 Ht Hm). reflexivity.
Qed.

(** X18.  With room for the markers, what can still fail is the label: in a
    classification task the first example whose label is not in the label
    list raises [KeyError], whatever follows it; and with an output mode that
    is neither ["classification"] nor ["regression"] any non-empty list of
    examples raises [KeyError]. *)
Theorem unknown_label_raises (label_list : list (option string))
  (max_seq_length : Z) (output_mode : string)
  (before rest : list InputExample) (example : InputExample) :
  (3 <= max_seq_length)%Z ->
  (output_mode = "classification"%string /\
   Forall (fun ex => In (label ex) label_list) before /\
   ~ In (label example) label_list) \/
  (output_mode <> "classification"%string /\
   output_mode <> "regression"%string /\ before = []) ->
  convert_examples_to_features tokenize convert_tokens_to_ids float_of_string
    (Some (before ++ example :: rest)) label_list max_seq_length output_mode
  = Throw KeyError.
Proof.
  intros Hmax Hcase.
  unfold convert_examples_to_features. cbv zeta.
  apply collect_features_throw.
  - destruct Hcase as [(-> & Hb & _)|(_ & _ & ->)]; [|constructor].
    apply Forall_forall. intros ex Hex. rewrite Forall_forall in Hb.
    destruct (convert_example_when_fits (make_label_map label_list)
                max_seq_length "classification" ex)
      as (ids & mask & seg & _ & Hc); [now left|].
    rewrite Hc. cbn [String.eqb Ascii.eqb Bool.eqb].
    destruct (label_map_get label_list (label ex)) as [_ Hnone].
    destruct (dict_get label_eqb (make_label_map label_list) (label ex))
      as [i|] eqn:Ed.
    + cbn [bindO]. eexists. reflexivity.
    + exfalso. apply (proj1 Hnone); [reflexivity | now apply Hb].
  - destruct (convert_example_when_fits (make_label_map label_list)
                max_seq_length output_mode example)
      as (ids & mask & seg & _ & Hc); [now left|].
    rewrite Hc. destruct Hcase as [(-> & _ & Hn)|(H1 & H2 & _)].
    + cbn [String.eqb Ascii.eqb Bool.eqb].
      rewrite (proj2 (proj2 (label_map_get label_list (label example))) Hn).
      reflexivity.
    + apply String.eqb_neq in H1, H2. rewrite H1, H2. reflexivity.
Qed.

End ConversionFacts.

Lemma features_fit_witness :
  exists features,
    convert_examples_to_features (fun s => [s]) (fun t => Return (map (fun _ => 7%Z) t))
      (fun _ => None)
      (Some [mkInputExample "dev-1" "a" (Some "b"%string) (Some "1"%string)])
      [Some "0"; Some "1"]%string 4 "classification"
    = Return features /\ length features = 1.
Proof.
  destruct (features_fit (fun s => [s]) (fun t => Return (map (fun _ => 7%Z) t))
              (fun _ => None)
              ltac:(intros t; eexists; split; [reflexivity | apply length_map])
              [mkInputExample "dev-1" "a" (Some "b"%string) (Some "1"%string)]
              [Some "0"; Some "1"]%string 4) as (fs & He & HF).
  - left. lia.
  - constructor; [cbn; right; left; reflexivity | constructor].
  - exists fs. split; [exact He|].
    apply Forall2_length in HF. cbn in HF. lia.
Defined.

Lemma short_max_seq_length_raises_witness :
  convert_examples_to_features (fun s => [s])
    (fun t => Return (map (fun _ => 7%Z) t)) (fun _ => None)
    (Some [mkInputExample "dev-1" "a" (Some "b"%string) (Some "1"%string)])
    [Some "0"; Some "1"]%string 2 "classification"
  = Throw (Builtin IndexError) /\
  convert_examples_to_features (fun s => [s])
    (fun t => Return (map (fun _ => 7%Z) t)) (fun _ => None)
    (Some [mkInputExample "dev-1" "a" None (Some "1"%string)])
    [Some "0"; Some "1"]%string 1 "classification"
  = Throw AssertionError.
Proof.
  pose proof (short_max_seq_length_raises (fun s => [s])
                (fun t => Return (map (fun _ => 7%Z) t)) (fun _ => None)
                ltac:(intros t; eexists; split; [reflexivity | apply length_map]))
    as H.
  split.
  - apply (H [Some "0"; Some "1"]%string 2%Z "classification"%string
             (mkInputExample "dev-1" "a" (Some "b"%string) (Some "1"%string)) []).
    + discriminate.
    + lia.
  - apply (H [Some "0"; Some "1"]%string 1%Z "classification"%string
             (mkInputExample "dev-1" "a" None (Some "1"%string)) []).
    + reflexivity.
    + lia.
Defined.

Lemma unknown_label_raises_witness :
  convert_examples_to_features (fun s => [s])
    (fun t => Return (map (fun _ => 7%Z) t)) (fun _ => None)
    (Some [mkInputExample "dev-1" "a" (Some "b"%string) (Some "1"%string);
           mkInputExample "dev-2" "c" (Some "d"%string) None;
           mkInputExample "dev-3" "e" (Some "f"%string) (Some "0"%string)])
    [Some "0"; Some "1"]%string 8 "classification"
  = Throw KeyError.
Proof.
  apply (unknown_label_raises (fun s => [s])
           (fun t => Return (map (fun _ => 7%Z) t)) (fun _ => None)
           ltac:(intros t; eexists; split; [reflexivity | apply length_map])
           [Some "0"; Some "1"]%string 8%Z "classification"%string
           [mkInputExample "dev-1" "a" (Some "b"%string) (Some "1"%string)]
           [mkInputExample "dev-3" "e" (Some "f"%string) (Some "0"%string)]
           (mkInputExample "dev-2" "c" (Some "d"%string) None)).
  - lia.
  - left. split; [reflexivity|]. split.
    + constructor; [cbn; right; left; reflexivity | constructor].
    + intros [H|[H|[]]]; discriminate H.
Defined.

(** ** The data processors *)

Local Open Scope result_scope.

(** A loop that appends, for each element, what [g] makes of it, and stops
    with [e] at the first element that is not [ok]. *)
Lemma for_each_rows {X B} (body : X -> list B -> Result (list B))
  (g : X -> list B) (ok : X -> bool) (e : Exn) :
  (forall x acc, ok x = true -> body x acc = Ok (acc ++ g x)) ->
  (forall x acc, ok x = false -> body x acc = Raise e) ->
  forall l acc,
    for_each l body acc
    = if forallb ok l then Ok (acc ++ flat_map g l) else Raise e.
Proof.
  intros Hok Hbad. induction l as [|x l IH]; intros acc; cbn [for_each forallb flat_map].
  - now rewrite app_nil_r.
  - destruct (ok x) eqn:E.
    + rewrite (Hok x acc E). cbn [bind andb]. rewrite IH.
      destruct (forallb ok l); [|reflexivity]. now rewrite app_assoc.
    + rewrite (Hbad x acc E). reflexivity.
Qed.

Lemma flat_map_single {X B} (h : X -> B) (l : list X) :
  flat_map (fun x => [h x]) l = map h l.
Proof.
  induction l as [|x l IH]; cbn; [reflexivity | now rewrite IH].
Qed.

Lemma forallb_combine_snd {A} (p : A -> bool) (l : list A) (a : nat) :
  forallb (fun x : nat * A => p (snd x)) (combine (seq a (length l)) l)
  = forallb p l.
Proof.
  revert a. induction l as [|x l IH]; intros a; cbn; [reflexivity|].
  now rewrite IH.
Qed.

Lemma forallb_Forall {A} (p : A -> bool) (P : A -> Prop) (l : list A) :
  (forall x, p x = true <-> P x) ->
  (Forall P l -> forallb p l = true) /\
  (Exists (fun x => ~ P x) l -> forallb p l = false).
Proof.
  intros H. split.
  - intros HF. apply forallb_forall. rewrite Forall_forall in HF.
    intros x Hx. apply H. now apply HF.
  - intros HE. apply Exists_exists in HE. destruct HE as (x & Hx & Hn).
    destruct (forallb p l) eqn:E; [|reflexivity].
    rewrite forallb_forall in E. exfalso. apply Hn, H, E, Hx.
Qed.

(** [str] gives different numerals for different numbers. *)
Lemma py_str_inj (i j : nat) : py_str i = py_str j -> i = j.
Proof.
  unfold py_str. intros H.
  apply (f_equal NilEmpty.uint_of_string) in H. rewrite !NilEmpty.usu in H.
  injection H as H. now apply DecimalNat.Unsigned.to_uint_inj.
Qed.

Lemma guid_format_inj (a b c : string) : guid_format a b = guid_format a c -> b = c.
Proof.
  unfold guid_format. induction a as [|x a IH]; cbn; intros H.
  - now injection H.
  - injection H as H. now apply IH.
Qed.

(** Examples named after the number of their line have distinct guids. *)
Lemma indexed_guids_NoDup {A} (set_type : string)
  (g : nat * A -> list InputExample) :
  (forall x e, In e (g x) ->
     g x = [e] /\ guid e = guid_format set_type (py_str (fst x))) ->
  forall (l : list A) (a : nat),
    NoDup (map guid (flat_map g (combine (seq a (length l)) l))).
Proof.
  intros Hg.
  assert (Hin : forall (l : list A) a s,
             In s (map guid (flat_map g (combine (seq a (length l)) l))) ->
             exists i, a <= i /\ s = guid_format set_type (py_str i)).
  { induction l as [|x l IH]; intros a s; cbn [length seq combine flat_map map];
      [intros []|].
    rewrite map_app, in_app_iff. intros [H|H].
    - apply in_map_iff in H. destruct H as (e & <- & He).
      exists a. split; [lia|]. apply (Hg (a, x) e He).
    - apply IH in H. destruct H as (i & Hi & ->). exists i. split; [lia|reflexivity]. }
  induction l as [|x l IH]; intros a; cbn [length seq combine flat_map map];
    [constructor|].
  destruct (g (a, x)) as [|e t] eqn:E; [apply IH|].
  destruct (Hg (a, x) e) as [He Hguid]; [rewrite E; now left|].
  rewrite E in He. injection He as ->. cbn [app map]. constructor; [|apply IH].
  intros H. apply Hin in H. destruct H as (i & Hi & H).
  rewrite Hguid in H. cbn [fst] in H.
  apply guid_format_inj, py_str_inj in H. lia.
Qed.

(** *** CoLA *)

Lemma cola_loop (set_type : string) (l : list (nat * list string))
  (acc : list InputExample) :
  for_each l (fun '(i, line) examples =>
      let guid := guid_format set_type (py_str i) in
      text_a <- py_index line 3 ;;
      label <- py_index line 1 ;;
      Ok (examples ++ [mkInputExample guid text_a None (Some label)])) acc
  = if forallb (fun x => 4 <=? length (snd x)) l
    then Ok (acc ++ map (fun x =>
                 mkInputExample (guid_format set_type (py_str (fst x)))
                   (nth 3 (snd x) ""%string) None
                   (Some (nth 1 (snd x) ""%string))) l)
    else Raise IndexError.
Proof.
  rewrite <- flat_map_single. apply for_each_rows.
  - intros [i row] acc' H. cbn [snd fst] in *.
    destruct row as [|f0 [|f1 [|f2 [|f3 row]]]]; try discriminate H.
    reflexivity.
  - intros [i row] acc' H. cbn [snd fst] in *.
    destruct row as [|f0 [|f1 [|f2 [|f3 row]]]]; try reflexivity.
    discriminate H.
Qed.

(** X19.  The CoLA processor, unlike the others, does not skip the first
    line of the file: when every line, the first included, has at least
    four fields, it returns one example per line, numbered from 0 in the
    guid, with field 3 as the text and field 1 as the label; when some line
    has fewer than four fields it raises [IndexError]. *)
Theorem cola_keeps_first_line (lines : list (list string)) (set_type : string) :
  (Forall (fun line => 4 <= length line) lines ->
   ColaProcessor._create_examples lines set_type
   = Ok (map (fun x : nat * list string =>
                mkInputExample (guid_format set_type (py_str (fst x)))
                  (nth 3 (snd x) ""%string) None
                  (Some (nth 1 (snd x) ""%string)))
           (enumerate lines))) /\
  (Exists (fun line => ~ 4 <= length line) lines ->
   ColaProcessor._create_examples lines set_type = Raise IndexError).
Proof.
  assert (E : ColaProcessor._create_examples lines set_type
              = if forallb (fun line => 4 <=? length line) lines
                then Ok (map (fun x : nat * list string =>
                                mkInputExample (guid_format set_type (py_str (fst x)))
                                  (nth 3 (snd x) ""%string) None
                                  (Some (nth 1 (snd x) ""%string)))
                           (enumerate lines))
                else Raise IndexError).
  { unfold ColaProcessor._create_examples. rewrite cola_loop.
    unfold enumerate at 1.
    now rewrite (forallb_combine_snd (fun line => 4 <=? length line)). }
  rewrite E.
  destruct (forallb_Forall (fun line => 4 <=? length line)
              (fun line => 4 <= length line) lines) as [H1 H2].
  { intros x. apply Nat.leb_le. }
  split; intros H.
  - rewrite (H1 H). reflexivity.
  - rewrite (H2 H). reflexivity.
Qed.

Lemma cola_keeps_first_line_witness :
  ColaProcessor._create_examples
    [["gj04"; "1"; ""; "Our friends will not buy this analysis."];
     ["gj04"; "0"; "*"; "They drank the pub."]]%string "dev"
  = Ok [mkInputExample "dev-0" "Our friends will not buy this analysis." None
          (Some "1"%string);
        mkInputExample "dev-1" "They drank the pub." None (Some "0"%string)] /\
  ColaProcessor._create_examples
    [["gj04"; "1"; ""; "Our friends will not buy this analysis."];
     ["gj04"; "0"; "*"]]%string "dev"
  = Raise IndexError.
Proof.
  split.
  - apply (proj1 (cola_keeps_first_line
             [["gj04"; "1"; ""; "Our friends will not buy this analysis."];
              ["gj04"; "0"; "*"; "They drank the pub."]]%string "dev")).
    repeat constructor.
  - apply (proj2 (cola_keeps_first_line
             [["gj04"; "1"; ""; "Our friends will not buy this analysis."];
              ["gj04"; "0"; "*"]]%string "dev")).
    apply Exists_cons_tl, Exists_cons_hd. cbn. lia.
Defined.

(** *** QQP *)

Lemma qqp_loop (set_type : string) (l : list (nat * list string))
  (acc : list InputExample) :
  for_each l (fun '(i, line) examples =>
      if i =? 0 then Ok examples
      else
        l0 <- py_index line 0 ;;
        let guid := guid_format set_type l0 in
        match (text_a <- py_index line 3 ;;
               text_b <- py_index line 4 ;;
               label <- py_index line 5 ;;
               Ok (text_a, text_b, label)) with
        | Ok (text_a, text_b, label) =>
            Ok (examples ++ [mkInputExample guid text_a (Some text_b) (Some label)])
        | Raise IndexError => Ok examples
        | Raise e => Raise e
        end) acc
  = if forallb (fun x => (fst x =? 0) || (1 <=? length (snd x))) l
    then Ok (acc ++ flat_map (fun x =>
                 if fst x =? 0 then []
                 else if 6 <=? length (snd x)
                 then [mkInputExample
                         (guid_format set_type (nth 0 (snd x) ""%string))
                         (nth 3 (snd x) ""%string)
                         (Some (nth 4 (snd x) ""%string))
                         (Some (nth 5 (snd x) ""%string))]
                 else []) l)
    else Raise IndexError.
Proof.
  apply for_each_rows.
  - intros [i row] acc' H. cbn [snd fst] in *.
    destruct (i =? 0); [now rewrite app_nil_r|].
    destruct row as [|f0 [|f1 [|f2 [|f3 [|f4 [|f5 row]]]]]]; try discriminate H;
      cbn; now rewrite ?app_nil_r.
  - intros [i row] acc' H. cbn [snd fst] in *.
    destruct (i =? 0); [discriminate H|].
    destruct row as [|f0 row]; [reflexivity | discriminate H].
Qed.

Lemma rows_after_header {A B} (p : A -> bool) (q : A -> bool) (h : A -> B)
  (l : list A) (a : nat) :
  forallb (fun x : nat * A => (fst x =? 0) || p (snd x))
    (combine (seq (S a) (length l)) l) = forallb p l /\
  flat_map (fun x : nat * A =>
              if fst x =? 0 then [] else if q (snd x) then [h (snd x)] else [])
    (combine (seq (S a) (length l)) l)
  = map h (filter q l).
Proof.
  revert a. induction l as [|x l IH]; intros a;
    cbn [length seq combine forallb flat_map filter map fst snd Nat.eqb orb];
    [now split|].
  destruct (IH (S a)) as [-> ->]. split; [reflexivity|].
  destruct (q x); reflexivity.
Qed.

(** X20.  The QQP processor skips the first line and, silently, every row
    that has a first field but fewer than six fields; a row without any
    field (a blank line of the file) is not skipped: the guid is read
    outside the [try], and the processor raises [IndexError]. *)
Theorem qqp_skips_short_rows_not_blank_ones (header : list string)
  (rows : list (list string)) (set_type : string) :
  (Forall (fun row => row <> []) rows ->
   QqpProcessor._create_examples (header :: rows) set_type
   = Ok (map (fun row =>
                mkInputExample (guid_format set_type (nth 0 row ""%string))
                  (nth 3 row ""%string) (Some (nth 4 row ""%string))
                  (Some (nth 5 row ""%string)))
           (filter (fun row => 6 <=? length row) rows))) /\
  (In [] rows ->
   QqpProcessor._create_examples (header :: rows) set_type = Raise IndexError).
Proof.
  assert (E : QqpProcessor._create_examples (header :: rows) set_type
              = if forallb (fun row => 1 <=? length row) rows
                then Ok (map (fun row =>
                     mkInputExample (guid_format set_type (nth 0 row ""%string))
                       (nth 3 row ""%string) (Some (nth 4 row ""%string))
                       (Some (nth 5 row ""%string)))
                   (filter (fun row => 6 <=? length row) rows))
                else Raise IndexError).
  { unfold QqpProcessor._create_examples. rewrite qqp_loop.
    unfold enumerate. cbn [length seq combine forallb flat_map fst snd Nat.eqb orb andb app].
    destruct (rows_after_header (fun row : list string => 1 <=? length row)
                (fun row : list string => 6 <=? length row)
                (fun row =>
                   mkInputExample (guid_format set_type (nth 0 row ""%string))
                     (nth 3 row ""%string) (Some (nth 4 row ""%string))
                     (Some (nth 5 row ""%string))) rows 0) as [-> ->].
    reflexivity. }
  rewrite E. split; intros H.
  - replace (forallb (fun row => 1 <=? length row) rows) with true; [reflexivity|].
    symmetry. apply forallb_forall. rewrite Forall_forall in H.
    intros row Hrow. specialize (H row Hrow). destruct row; [congruence|reflexivity].
  - replace (forallb (fun row => 1 <=? length row) rows) with false; [reflexivity|].
    symmetry. destruct (forallb _ rows) eqn:F; [|reflexivity].
    rewrite forallb_forall in F. specialize (F [] H). discriminate F.
Qed.

Lemma qqp_skips_short_rows_not_blank_ones_witness :
  QqpProcessor._create_examples
    [["id"; "qid1"; "qid2"; "question1"; "question2"; "is_duplicate"];
     ["0"; "1"; "2"; "How do I cook?"; "How to cook?"; "1"];
     ["1"; "3"; "4"; "Why"]]%string "train"
  = Ok [mkInputExample "train-0" "How do I cook?" (Some "How to cook?"%string)
          (Some "1"%string)] /\
  QqpProcessor._create_examples
    [["id"; "qid1"; "qid2"; "question1"; "question2"; "is_duplicate"];
     ["0"; "1"; "2"; "How do I cook?"; "How to cook?"; "1"];
     []]%string "train"
  = Raise IndexError.
Proof.
  split.
  - apply (proj1 (qqp_skips_short_rows_not_blank_ones
             ["id"; "qid1"; "qid2"; "question1"; "question2"; "is_duplicate"]
             [["0"; "1"; "2"; "How do I cook?"; "How to cook?"; "1"];
              ["1"; "3"; "4"; "Why"]] "train")%string).
    repeat constructor; discriminate.
  - apply (proj2 (qqp_skips_short_rows_not_blank_ones
             ["id"; "qid1"; "qid2"; "question1"; "question2"; "is_duplicate"]
             [["0"; "1"; "2"; "How do I cook?"; "How to cook?"; "1"]; []]
             "train")%string).
    right. left. reflexivity.
Defined.

(** *** Guids made of line numbers *)

Lemma mrpc_loop (set_type : string) (l : list (nat * list string))
  (acc : list InputExample) :
  for_each l (fun '(i, line) examples =>
      if i =? 0 then Ok examples
      else
        let guid := guid_format set_type (py_str i) in
        text_a <- py_index line 3 ;;
        text_b <- py_index line 4 ;;
        label <- py_index line 0 ;;
        Ok (examples ++ [mkInputExample guid text_a (Some text_b) (Some label)])) acc
  = if forallb (fun x => (fst x =? 0) || (5 <=? length (snd x))) l
    then Ok (acc ++ flat_map (fun x =>
                 if fst x =? 0 then []
                 else [mkInputExample (guid_format set_type (py_str (fst x)))
                         (nth 3 (snd x) ""%string)
                         (Some (nth 4 (snd x) ""%string))
                         (Some (nth 0 (snd x) ""%string))]) l)
    else Raise IndexError.
Proof.
  apply for_each_rows.
  - intros [i row] acc' H. cbn [snd fst] in *.
    destruct (i =? 0); [now rewrite app_nil_r|].
    destruct row as [|f0 [|f1 [|f2 [|f3 [|f4 row]]]]]; try discriminate H.
    reflexivity.
  - intros [i row] acc' H. cbn [snd fst] in *.
    destruct (i =? 0); [discriminate H|].
    destruct row as [|f0 [|f1 [|f2 [|f3 [|f4 row]]]]]; try reflexivity.
    discriminate H.
Qed.

Lemma sst2_loop (set_type : string) (l : list (nat * list string))
  (acc : list InputExample) :
  for_each l (fun '(i, line) examples =>
      if i =? 0 then Ok examples
      else
        let guid := guid_format set_type (py_str i) in
        text_a <- py_index line 0 ;;
        label <- py_index line 1 ;;
        Ok (examples ++ [mkInputExample guid text_a None (Some label)])) acc
  = if forallb (fun x => (fst x =? 0) || (2 <=? length (snd x))) l
    then Ok (acc ++ flat_map (fun x =>
                 if fst x =? 0 then []
                 else [mkInputExample (guid_format set_type (py_str (fst x)))
                         (nth 0 (snd x) ""%string) None
                         (Some (nth 1 (snd x) ""%string))]) l)
    else Raise IndexError.
Proof.
  apply for_each_rows.
  - intros [i row] acc' H. cbn [snd fst] in *.
    destruct (i =? 0); [now rewrite app_nil_r|].
    destruct row as [|f0 [|f1 row]]; try discriminate H.
    reflexivity.
  - intros [i row] acc' H. cbn [snd fst] in *.
    destruct (i =? 0); [discriminate H|].
    destruct row as [|f0 [|f1 row]]; try reflexivity.
    discriminate H.
Qed.

(** X21.  The processors that name an example after the number of its line
    (MRPC, CoLA and SST-2) give distinct guids to the examples of one call,
    whatever the lines hold. *)
Theorem line_number_guids_distinct (lines : list (list string))
  (set_type : string) (examples : list InputExample) :
  MrpcProcessor._create_examples lines set_type = Ok examples \/
  ColaProcessor._create_examples lines set_type = Ok examples \/
  Sst2Processor._create_examples lines set_type = Ok examples ->
  NoDup (map guid examples).
Proof.
  intros [H|[H|H]].
  - unfold MrpcProcessor._create_examples in H. rewrite mrpc_loop in H.
    destruct (forallb _ (enumerate lines)); [|discriminate H].
    apply Ok_inj in H. subst examples. cbn [app]. unfold enumerate.
    apply indexed_guids_NoDup with (set_type := set_type).
    intros [i row] e. cbn [fst snd]. destruct (i =? 0); [intros []|].
    intros [<-|[]]. split; reflexivity.
  - unfold ColaProcessor._create_examples in H. rewrite cola_loop in H.
    destruct (forallb _ (enumerate lines)); [|discriminate H].
    apply Ok_inj in H. subst examples. cbn [app]. unfold enumerate.
    rewrite <- (flat_map_single _ (combine (seq 0 (length lines)) lines)).
    apply indexed_guids_NoDup with (set_type := set_type).
    intros [i row] e. cbn [fst snd]. intros [<-|[]]. split; reflexivity.
  - unfold Sst2Processor._create_examples in H. rewrite sst2_loop in H.
    destruct (forallb _ (enumerate lines)); [|discriminate H].
    apply Ok_inj in H. subst examples. cbn [app]. unfold enumerate.
    apply indexed_guids_NoDup with (set_type := set_type).
    intros [i row] e. cbn [fst snd]. destruct (i =? 0); [intros []|].
    intros [<-|[]]. split; reflexivity.
Qed.

Lemma line_number_guids_distinct_witness :
  NoDup (map guid
           [mkInputExample "dev-1" "a fine film" None (Some "1"%string);
            mkInputExample "dev-2" "a fine film" None (Some "1"%string)]).
Proof.
  apply (line_number_guids_distinct
           [["sentence"; "label"]; ["a fine film"; "1"]; ["a fine film"; "1"]]%string
           "dev").
  right. right. reflexivity.
Defined.

(** ** The constructor of [prune_function] *)

Local Open Scope outcome_scope.

(** The nine tasks that have an output mode, and the mode of each. *)
Lemma output_modes_get (t m : string) :
  dict_get String.eqb Construction.output_modes t = Some m ->
  In t ["cola"; "mnli"; "mrpc"; "sst-2"; "sts-b"; "qqp"; "qnli"; "rte"; "wnli"]%string /\
  m = (if (t =? "sts-b")%string then "regression" else "classification")%string.
Proof.
  unfold Construction.output_modes, dict_of, dict_get, dict_set.
  cbn [fold_left find fst snd].
  repeat match goal with
         | |- context [String.eqb ?a t] =>
             destruct (String.eqb_spec a t) as [<-|?]
         end;
    intros H; try discriminate H; injection H as <-;
    (split; [cbn; tauto | reflexivity]).
Qed.

(** The task "mnli-mm" has a processor and no output mode. *)
Lemma mnli_mm_lookup (fs : Files) :
  (exists p, dict_get String.eqb (Construction.processors fs) "mnli-mm"%string = Some p) /\
  dict_get String.eqb Construction.output_modes "mnli-mm"%string = None.
Proof.
  split; [eexists|]; reflexivity.
Qed.

(** Each of the nine tasks has a processor, with two labels but for "mnli"
    (three) and "sts-b" (one). *)
Lemma processors_get (fs : Files) (t : string) :
  In t ["cola"; "mnli"; "mrpc"; "sst-2"; "sts-b"; "qqp"; "qnli"; "rte"; "wnli"]%string ->
  exists p, dict_get String.eqb (Construction.processors fs) t = Some p /\
            length (labels_of p)
            = (if (t =? "mnli")%string then 3
               else if (t =? "sts-b")%string then 1 else 2).
Proof.
  cbn [In]. intros H.
  repeat (destruct H as [<-|H]; [eexists; split; reflexivity|]).
  destruct H.
Qed.

Section ConstructorFacts.

Context {Device Tokenizer Loader Model : Type}.
Variable lower : string -> string.
Variable fs : Files.
Variable float_of_string : string -> option Q.
Variable setup_device : Construction.Args -> Outcome (Device * Z).
Variable set_seeds : Z -> Z -> Outcome unit.
Variable from_pretrained : string -> bool -> Outcome (option Tokenizer).
Variable tokenize : Tokenizer -> string -> list string.
Variable convert_tokens_to_ids : Tokenizer -> list string -> Outcome (list Z).
Variable train_steps : nat -> Z -> Z -> Q -> Outcome Q.
Variable get_world_size : Outcome Z.
Variable train_loader : list InputFeatures -> string -> Z -> Z -> Outcome Loader.
Variable eval_loader : list InputFeatures -> Z -> Outcome Loader.
Variable load_model : Construction.Args -> nat -> Device -> Z -> Outcome Model.

Local Abbreviation init :=
  (Construction.__init__ lower fs float_of_string setup_device set_seeds
     from_pretrained tokenize convert_tokens_to_ids train_steps get_world_size
     train_loader eval_loader load_model).

(** The constructor up to the look-up of the processor, when the device
    is set up, the accumulation steps are accepted, the seeds are set and
    one of [do_train] and [do_eval] is given. *)
Ltac init_prelude args d Hd Hg Hs Hdo :=
  unfold Construction.__init__;
  rewrite Hd; destruct d as [?dev ?n]; cbn [bindO fst snd] in *;
  replace (Construction.gradient_accumulation_steps args <? 1)%Z with false
    by (symmetry; apply Z.ltb_ge; exact Hg);
  cbn [bindO]; cbv zeta;
  cbn [Construction.seed Construction.do_train Construction.do_eval
       Construction.task_name Construction.bert_model
       Construction.do_lower_case Construction.set_train_batch_size];
  rewrite Hs; cbn [bindO];
  replace (negb (Construction.do_train args) && negb (Construction.do_eval args))
    with false by (destruct Hdo as [Hdo|Hdo]; rewrite Hdo; cbn;
                   now rewrite ?andb_false_r);
  cbn [bindO].

(** X22.  The task "mnli-mm" is among the processors and has no output
    mode: once the device is set up, the accumulation steps are accepted,
    the seeds are set and one of [do_train] and [do_eval] is given, the
    constructor raises [KeyError] for it. *)
Theorem mnli_mm_is_listed_but_unusable (args : Construction.Args)
  (d : Device * Z) :
  lower (Construction.task_name args) = "mnli-mm"%string ->
  setup_device args = Return d ->
  (1 <= Construction.gradient_accumulation_steps args)%Z ->
  set_seeds (Construction.seed args) (snd d) = Return tt ->
  Construction.do_train args = true \/ Construction.do_eval args = true ->
  init args = Throw KeyError.
Proof.
  intros Ht Hd Hg Hs Hdo. init_prelude args d Hd Hg Hs Hdo.
  rewrite Ht.
  destruct (mnli_mm_lookup fs) as [(p & ->) ->]. reflexivity.
Qed.

(** X23.  Evaluation alone is not possible: with [do_eval] and without
    [do_train], for any of the nine tasks and once the tokenizer is there,
    the constructor raises [TypeError], from the conversion of the training
    examples that were never read. *)
Theorem eval_only_raises_type_error (args : Construction.Args)
  (d : Device * Z) (tok : option Tokenizer) :
  Construction.do_train args = false ->
  Construction.do_eval args = true ->
  setup_device args = Return d ->
  (1 <= Construction.gradient_accumulation_steps args)%Z ->
  set_seeds (Construction.seed args) (snd d) = Return tt ->
  In (lower (Construction.task_name args))
     ["cola"; "mnli"; "mrpc"; "sst-2"; "sts-b"; "qqp"; "qnli"; "rte"; "wnli"]%string ->
  from_pretrained (Construction.bert_model args) (Construction.do_lower_case args)
  = Return tok ->
  init args = Throw TypeError.
Proof.
  intros Htr Hev Hd Hg Hs Ht Htok.
  assert (Hdo : Construction.do_train args = true \/ Construction.do_eval args = true)
    by now right.
  init_prelude args d Hd Hg Hs Hdo.
  destruct (processors_get fs _ Ht) as (p & -> & _). cbn [bindO].
  destruct (dict_get String.eqb Construction.output_modes
              (lower (Construction.task_name args))) as [m|] eqn:Em.
  - cbn [bindO]. rewrite Htok, Htr. cbn [bindO].
    destruct tok as [t|]; reflexivity.
  - exfalso. cbn [In] in Ht.
    repeat (destruct Ht as [Ht|Ht]; [rewrite <- Ht in Em; discriminate Em|]).
    destruct Ht.
Qed.

(** X24.  What a constructor that returns has found: accumulation steps of
    at least 1, [do_train], no distributed run, one of the nine tasks that
    have an output mode, and a batch size that the accumulation steps do not
    bring to 0; the object then holds the divided batch size, the output
    mode of the task and the number of its labels. *)
Theorem constructed_had (args : Construction.Args)
  (self : @Construction.Self Device Loader Model) :
  init args = Return self ->
  let task := lower (Construction.task_name args) in
  let batch := (Construction.train_batch_size args
                / Construction.gradient_accumulation_steps args)%Z in
  (1 <= Construction.gradient_accumulation_steps args)%Z /\
  Construction.do_train args = true /\
  Construction.local_rank args = (-1)%Z /\
  In task ["cola"; "mnli"; "mrpc"; "sst-2"; "sts-b"; "qqp"; "qnli"; "rte"; "wnli"]%string /\
  batch <> 0%Z /\
  Construction.self_args self = Construction.set_train_batch_size args batch /\
  Construction.output_mode self
  = (if (task =? "sts-b")%string then "regression" else "classification")%string /\
  Construction.num_labels self
  = (if (task =? "mnli")%string then 3
     else if (task =? "sts-b")%string then 1 else 2).
Proof.
  intros H. cbv zeta. unfold Construction.__init__ in H.
  destruct (setup_device args) as [[dev n]|e] eqn:Hd; [|discriminate H].
  cbn [bindO] in H.
  destruct (Z.ltb_spec (Construction.gradient_accumulation_steps args) 1)
    as [Hg|Hg]; [discriminate H|].
  cbn [bindO] in H. cbv zeta in H.
  cbn [Construction.seed Construction.do_train Construction.do_eval
       Construction.task_name Construction.bert_model Construction.data_dir
       Construction.do_lower_case Construction.train_batch_size
       Construction.gradient_accumulation_steps Construction.local_rank
       Construction.max_seq_length Construction.eval_batch_size
       Construction.num_train_epochs Construction.set_train_batch_size] in H.
  destruct (set_seeds (Construction.seed args) n) as [[]|e]; [|discriminate H].
  cbn [bindO] in H.
  destruct (negb (Construction.do_train args) && negb (Construction.do_eval args));
    [discriminate H|].
  cbn [bindO] in H.
  destruct (dict_get String.eqb (Construction.processors fs)
              (lower (Construction.task_name args))) as [p|] eqn:Ep;
    [|discriminate H].
  cbn [bindO] in H.
  destruct (dict_get String.eqb Construction.output_modes
              (lower (Construction.task_name args))) as [m|] eqn:Em;
    [|discriminate H].
  cbn [bindO] in H.
  destruct (output_modes_get _ _ Em) as [Ht ->].
  destruct (processors_get fs _ Ht) as (p' & Ep' & Hp).
  rewrite Ep in Ep'. injection Ep' as <-.
  destruct (from_pretrained _ _) as [tok|e]; [|discriminate H].
  cbn [bindO] in H.
  destruct (Construction.do_train args) eqn:Htr.
  - destruct (train_examples_of p _) as [exs|e];
      [|discriminate H].
    cbn [bindO] in H.
    destruct (Z.eqb_spec (Construction.train_batch_size args
                          / Construction.gradient_accumulation_steps args) 0)
      as [Hb|Hb]; [discriminate H|].
    destruct (train_steps _ _ _ _) as [steps|e]; [|discriminate H].
    cbn [bindO] in H.
    destruct (Z.eqb_spec (Construction.local_rank args) (-1)) as [Hl|Hl].
    + cbn [bindO] in H.
      repeat match type of H with
             | bindO ?m _ = Return _ =>
                 destruct m; [cbn [bindO] in H | discriminate H]
             end.
      injection H as <-.
      cbn [Construction.self_args Construction.output_mode
           Construction.num_labels].
      repeat match goal with |- _ /\ _ => split end;
        try assumption; try reflexivity.
    + destruct get_world_size; discriminate H.
  - cbn [bindO] in H. destruct tok; discriminate H.
Qed.

End ConstructorFacts.

Lemma mnli_mm_is_listed_but_unusable_witness :
  tiny_init (tiny_args "MNLI-mm" true) = Throw KeyError.
Proof.
  unfold tiny_init.
  apply mnli_mm_is_listed_but_unusable with (d := (tt, 0%Z)).
  - reflexivity.
  - reflexivity.
  - cbn. lia.
  - reflexivity.
  - left. reflexivity.
Defined.

Lemma eval_only_raises_type_error_witness :
  tiny_init (tiny_args "CoLA" false) = Throw TypeError.
Proof.
  unfold tiny_init.
  apply eval_only_raises_type_error with (d := (tt, 0%Z)) (tok := Some tt).
  - reflexivity.
  - reflexivity.
  - reflexivity.
  - cbn. lia.
  - reflexivity.
  - cbn. left. reflexivity.
  - reflexivity.
Defined.

Lemma constructed_had_witness :
  exists self,
    tiny_init (tiny_args "CoLA" true) = Return self /\
    Construction.train_batch_size (Construction.self_args self) = 16%Z /\
    Construction.output_mode self = "classification"%string /\
    Construction.num_labels self = 2 /\
    length (Construction.train_dataloader self) = 2.
Proof.
  eexists. split; [vm_compute; reflexivity|].
  match goal with
  | |- context [Construction.self_args ?built] =>
      pose proof (constructed_had ascii_lower tiny_files
                    (fun _ => None)
                    (fun _ => Return (tt, 0%Z))
                    (fun _ _ => Return tt)
                    (fun _ _ => Return (Some tt))
                    (fun _ s => [s])
                    (fun _ tokens => Return (map (fun _ => 7%Z) tokens))
                    (fun n batch steps epochs =>
                       Return (inject_Z (Z.of_nat n / batch / steps) * epochs)%Q)
                    (Return 1%Z)
                    (fun features _ _ _ => Return features)
                    (fun features _ => Return features)
                    (fun _ _ _ _ => Return tt)
                    (tiny_args "CoLA" true) built eq_refl) as H
  end.
  cbv zeta in H. destruct H as (_ & _ & _ & _ & _ & Ha & Hm & Hn).
  rewrite Ha, Hm, Hn. repeat split.
Defined.

(** ** The first version of the pruning engine *)

Local Open Scope result_scope.

Lemma argsort_length (l : list Q) : length (argsort l) = length l.
Proof.
  unfold argsort.
  now rewrite (Permutation_length (sort_by_perm _ _)), length_seq.
Qed.

(** A loop over the first positions of a list is a loop over its first
    elements. *)
Lemma for_each_positions {A St} (l : list A) (f : A -> St -> Result St)
  (k a : nat) (s : St) :
  a + k <= length l ->
  for_each (seq a k) (fun i s => x <- py_getitem l i ;; f x s) s
  = for_each (firstn k (skipn a l)) f s.
Proof.
  revert a s. induction k as [|k IH]; intros a s Hk; [reflexivity|].
  cbn [seq for_each].
  destruct (skipn a l) as [|x t] eqn:E.
  { apply (f_equal (@length A)) in E. rewrite length_skipn in E.
    cbn in E. lia. }
  assert (Hx : py_getitem l a = Ok x).
  { unfold py_getitem.
    replace (nth_error l a) with (nth_error (skipn a l) 0)
      by (rewrite nth_error_skipn; f_equal; lia).
    now rewrite E. }
  rewrite Hx. cbn [bind firstn for_each].
  destruct (f x s) as [s'|e]; [|reflexivity]. cbn [bind].
  rewrite IH by lia.
  replace (skipn (S a) l) with t; [reflexivity|].
  change (S a) with (1 + a). rewrite <- skipn_skipn, E. reflexivity.
Qed.

Lemma replace_nth_nth {A} (l : list A) (q p : nat) (v d : A) :
  nth p (replace_nth l q v) d
  = if (q =? p) && (q <? length l) then v else nth p l d.
Proof.
  revert q p. induction l as [|x l IH]; intros q p.
  - cbn. rewrite andb_false_r. now destruct q.
  - destruct q as [|q], p as [|p]; cbn [replace_nth nth]; try reflexivity.
    rewrite IH. reflexivity.
Qed.

(** Zeros written one by one at positions inside the mask. *)
Lemma setitem_loop (sel : list nat) (d2 : nat) (m : Tensor Q) :
  wf m -> size1 m = d2 -> (forall p, In p sel -> p < numel m) ->
  exists st,
    for_each sel (fun p m => tensor_setitem m (p / d2) (p mod d2) 0%Q) m
    = Ok (mkTensor (size0 m) (size1 m) st) /\
    length st = numel m /\
    forall p, nth p st 0%Q = if mem p sel then 0%Q else nth p (storage m) 0%Q.
Proof.
  intros Hwf <-. revert m Hwf.
  induction sel as [|q sel IH]; intros m Hwf Hb.
  - exists (storage m). destruct m. now repeat split.
  - cbn [for_each].
    assert (Hq : q < numel m) by (apply Hb; now left).
    unfold numel in Hq.
    assert (H1 : 0 < size1 m) by nia.
    assert (Hr : q / size1 m < size0 m)
      by (apply Nat.Div0.div_lt_upper_bound; lia).
    assert (Hc : q mod size1 m < size1 m) by (apply Nat.mod_upper_bound; lia).
    unfold tensor_setitem at 1.
    apply Nat.ltb_lt in Hr, Hc. rewrite Hr, Hc. cbn [andb bind].
    replace (q / size1 m * size1 m + q mod size1 m) with q
      by (rewrite (Nat.div_mod_eq q (size1 m)) at 1; lia).
    set (m1 := mkTensor (size0 m) (size1 m) (replace_nth (storage m) q 0%Q)).
    destruct (IH m1) as (st & He & Hl & Hn).
    + unfold wf, m1, numel. cbn. rewrite replace_nth_length. exact Hwf.
    + intros p Hp. unfold m1, numel. cbn. apply Hb. now right.
    + exists st. split; [exact He|]. split; [exact Hl|].
      intros p. rewrite Hn. unfold m1. cbn [storage mem existsb].
      fold (mem p sel).
      destruct (mem p sel); [now rewrite orb_true_r|]. rewrite orb_false_r.
      rewrite replace_nth_nth, (Nat.eqb_sym q p).
      destruct (p =? q); [|reflexivity]. cbn [andb orb].
      replace (q <? length (storage m)) with true; [reflexivity|].
      symmetry. apply Nat.ltb_lt. unfold wf, numel in Hwf. lia.
Qed.

Lemma for_each_app_raise {X St} (l1 l2 : list X) (body : X -> St -> Result St)
  (s s1 : St) (x : X) (e : Exn) :
  for_each l1 body s = Ok s1 -> body x s1 = Raise e ->
  for_each (l1 ++ x :: l2) body s = Raise e.
Proof.
  revert s. induction l1 as [|y l1 IH]; intros s H1 Hx; cbn [app for_each] in *.
  - apply Ok_inj in H1. subst s1. now rewrite Hx.
  - destruct (body y s) as [s'|e']; [|discriminate H1]. cbn [bind] in *.
    now apply IH.
Qed.

(** The loop of [sparse] over the first [k] sorted positions. *)
Lemma sparse_eq (w m : Tensor Q) (ratio : Q) (k : Z) :
  sparse_count w ratio = Ok k ->
  sparse w m ratio
  = for_each (py_range k) (fun i m =>
        idi <- py_getitem (argsort (storage w)) i ;;
        tensor_setitem m (idi / size1 w) (idi mod size1 w) 0%Q)
      m.
Proof.
  unfold sparse_count, sparse, numel. cbv zeta.
  destruct (py_float (size0 w * size1 w)) as [f|e]; cbn [bind];
    [|discriminate].
  intros ->. reflexivity.
Qed.

Lemma sparse_count_raises (w m : Tensor Q) (ratio : Q) (e : Exn) :
  sparse_count w ratio = Raise e ->
  e = OverflowError /\ sparse w m ratio = Raise OverflowError.
Proof.
  unfold sparse_count, sparse, numel, py_float, py_int_mul. cbv zeta.
  destruct (f64 (inject_Z (Z.of_nat (size0 w * size1 w)))) as [f|];
    cbn [bind].
  - destruct (f64 (f * ratio)); cbn [bind]; intros H;
      [discriminate H | injection H as <-; now split].
  - intros H. injection H as <-. now split.
Qed.

(** X25.  The first version of the engine, [sparse], ranks the weights by
    their signed value, not by their magnitude: for a mask of the shape of
    [w], fewer than 2^53 cells and a ratio between 0 and 1 it returns,
    having written zeros into the mask at [int(d1*d2*ratio)] distinct cells
    and nowhere else, and no weight of a zeroed cell is above a weight of
    another cell.  The count is computed in doubles: it is
    [floor(d1 * d2 * ratio)] when the product is a double, and need not be
    otherwise. *)
Theorem sparse_masks_lowest_weights (w m : Tensor Q) (ratio : Q) :
  wf w -> wf m -> size0 m = size0 w -> size1 m = size1 w ->
  (0 <= ratio <= 1)%Q -> (Z.of_nat (numel w) < 2 ^ 53)%Z ->
  exists st sel,
    sparse w m ratio = Ok (mkTensor (size0 m) (size1 m) st) /\
    length st = numel m /\
    NoDup sel /\
    sparse_count w ratio = Ok (Z.of_nat (length sel)) /\
    length sel <= numel w /\
    ((f64_round (inject_Z (Z.of_nat (numel w)) * ratio)
      == inject_Z (Z.of_nat (numel w)) * ratio)%Q ->
     Z.of_nat (length sel)
     = Qfloor (inject_Z (Z.of_nat (numel w)) * ratio)) /\
    (forall p, In p sel -> p < numel w) /\
    (forall p, nth p st 0%Q = if mem p sel then 0%Q else nth p (storage m) 0%Q) /\
    (forall p q, In p sel -> q < numel w -> ~ In q sel ->
                 (nth p (storage w) 0 <= nth q (storage w) 0)%Q).
Proof.
  intros Hw Hm H0 H1 [Hr0 Hr1] Hd.
  set (n := numel w) in *.
  assert (Hn0 : (0 <= inject_Z (Z.of_nat n))%Q)
    by (change 0%Q with (inject_Z 0); rewrite <- Zle_Qle; lia).
  destruct (py_float_exact n Hd) as (f & Ef & Hf).
  assert (Hlo : (0 <= f * ratio)%Q)
    by (rewrite Hf; now apply Qmult_le_0_compat).
  assert (Hhi : (f * ratio <= inject_Z (Z.of_nat n))%Q).
  { rewrite Hf. rewrite <- (Qmult_1_r (inject_Z (Z.of_nat n))) at 2.
    apply Qmult_le_compat_nonneg; split; trivial; apply Qle_refl. }
  destruct (py_int_mul_in_range f ratio (Z.of_nat n) Hlo Hhi Hd)
    as (k & Ek & Hkn).
  assert (Ec : sparse_count w ratio = Ok (Z.of_nat k))
    by (unfold sparse_count; fold n; rewrite Ef; exact Ek).
  assert (Hkle : k <= length (storage w)) by (rewrite Hw; fold n; lia).
  set (sel := topk_col k (storage w)).
  assert (Hlen : length sel = k) by (unfold sel; now apply topk_col_length).
  assert (Hb : forall p, In p sel -> p < numel w).
  { intros p Hp. apply topk_col_bound in Hp. now rewrite Hw in Hp. }
  destruct (setitem_loop sel (size1 w) m Hm H1) as (st & He & Hl & Hn).
  { intros p Hp. unfold numel. rewrite H0, H1. now apply Hb. }
  exists st, sel.
  repeat match goal with |- _ /\ _ => split end.
  - rewrite (sparse_eq w m ratio _ Ec). unfold py_range. rewrite Nat2Z.id.
    rewrite (for_each_positions (argsort (storage w))) by
      (rewrite argsort_length; cbn; exact Hkle).
    exact He.
  - exact Hl.
  - apply topk_col_NoDup.
  - now rewrite Hlen.
  - rewrite Hlen. lia.
  - intros Ex. rewrite Hlen.
    assert (Hx : (f * ratio == inject_Z (Z.of_nat n) * ratio)%Q)
      by now rewrite Hf.
    assert (Hr : (f64_round (f * ratio) == inject_Z (Z.of_nat n) * ratio)%Q)
      by (rewrite (f64_round_comp _ _ Hx); exact Ex).
    unfold py_int_mul in Ek.
    rewrite (f64_in_range _ _ Hlo Hhi Hd) in Ek.
    injection Ek as Ek. rewrite <- Ek.
    rewrite py_int_floor
      by (apply (f64_round_bounds _ _ Hlo Hhi Hd)).
    apply Qfloor_comp. exact Hr.
  - exact Hb.
  - exact Hn.
  - intros p q Hp Hq Hnq. apply (topk_col_smallest k); trivial.
    now rewrite Hw.
Qed.

(** X26.  Outside the range: when the count [int(d1*d2*ratio)] is not
    positive, as it is for every negative ratio that gives one, [sparse]
    returns the mask as it is; when it is above the number of cells of [w],
    [sparse] raises [IndexError], reading past the end of the sorted
    indices; and when the product is infinite, or the number of cells too
    large for a double, [sparse] raises [OverflowError]. *)
Theorem sparse_ratio_out_of_range (w m : Tensor Q) (ratio : Q) :
  wf w -> wf m -> size0 m = size0 w -> size1 m = size1 w ->
  match sparse_count w ratio with
  | Ok k =>
      ((ratio < 0)%Q -> (k <= 0)%Z) /\
      ((k <= 0)%Z -> sparse w m ratio = Ok m) /\
      ((Z.of_nat (numel w) < k)%Z -> sparse w m ratio = Raise IndexError)
  | Raise e => e = OverflowError /\ sparse w m ratio = Raise OverflowError
  end.
Proof.
  intros Hw Hm H0 H1.
  destruct (sparse_count w ratio) as [k|e] eqn:Ec;
    [|now apply sparse_count_raises].
  repeat match goal with |- _ /\ _ => split end.
  - intros Hr. unfold sparse_count in Ec.
    destruct (py_float (numel w)) as [f|] eqn:Ef; [|discriminate Ec].
    cbn [bind] in Ec. apply (py_int_mul_nonpos f ratio); [|exact Ec].
    pose proof (py_float_nonneg _ _ Ef) as Hf.
    destruct ratio as [a b], f as [c d]. unfold Qlt in Hr.
    unfold Qle in *. cbn in *. nia.
  - intros Hk. rewrite (sparse_eq w m ratio _ Ec).
    unfold py_range. replace (Z.to_nat k) with 0 by lia. reflexivity.
  - intros Hk. rewrite (sparse_eq w m ratio _ Ec).
    set (n := numel w) in *. unfold py_range.
    set (k' := Z.to_nat k).
    assert (Hkn : n < k') by (unfold k'; lia).
    replace (seq 0 k') with (seq 0 n ++ n :: seq (S n) (k' - S n)).
    2:{ replace k' with (n + S (k' - S n)) at 2 by lia.
        rewrite seq_app. reflexivity. }
    assert (Hlen : length (argsort (storage w)) = n)
      by (rewrite argsort_length; exact Hw).
    destruct (setitem_loop (argsort (storage w)) (size1 w) m Hm H1)
      as (st & He & _).
    { intros p Hp. unfold argsort in Hp.
      apply (Permutation_in _ (sort_by_perm _ _)) in Hp.
      apply in_seq in Hp. unfold numel. rewrite H0, H1. fold (numel w).
      rewrite Hw in Hp. lia. }
    eapply for_each_app_raise.
    + rewrite (for_each_positions (argsort (storage w))) by (cbn; lia).
      cbn [skipn]. rewrite <- Hlen, firstn_all. exact He.
    + cbv beta. unfold py_getitem.
      replace (nth_error (argsort (storage w)) n) with (@None nat);
        [reflexivity|].
      symmetry. apply nth_error_None. lia.
Qed.

Lemma sparse_masks_lowest_weights_witness :
  exists (st : list Q) (sel : list nat),
    sparse (mkTensor 2 5 [-5; 1 # 10; 3; -2; 7; 0; 4; -1; 9; 2]%Q)
      (ones 2 5) (f64_round (7 # 10))
    = Ok (mkTensor 2 5 st) /\
    length st = 10 /\ length sel = 7 /\
    Qfloor (inject_Z 10 * f64_round (7 # 10)) = 6%Z.
Proof.
  destruct (sparse_masks_lowest_weights
              (mkTensor 2 5 [-5; 1 # 10; 3; -2; 7; 0; 4; -1; 9; 2]%Q)
              (ones 2 5) (f64_round (7 # 10)))
    as (st & sel & He & Hl & _ & Hc & _).
  - reflexivity.
  - reflexivity.
  - reflexivity.
  - reflexivity.
  - split; vm_compute; discriminate.
  - vm_compute. reflexivity.
  - exists st, sel.
    assert (Ec : sparse_count
                   (mkTensor 2 5 [-5; 1 # 10; 3; -2; 7; 0; 4; -1; 9; 2]%Q)
                   (f64_round (7 # 10)) = Ok 7%Z)
      by (vm_compute; reflexivity).
    rewrite Ec in Hc. injection Hc as Hc.
    split; [exact He|]. split; [exact Hl|]. split; [lia|].
    vm_compute. reflexivity.
Defined.

Lemma sparse_ratio_out_of_range_witness :
  sparse (mkTensor 1 3 [-5; 1 # 10; 3]%Q) (ones 1 3) (-1) = Ok (ones 1 3) /\
  sparse (mkTensor 1 3 [-5; 1 # 10; 3]%Q) (ones 1 3) 2 = Raise IndexError /\
  sparse (mkTensor 1 3 [-5; 1 # 10; 3]%Q) (ones 1 3) (- (2 ^ 1023))
  = Raise OverflowError.
Proof.
  pose proof (sparse_ratio_out_of_range (mkTensor 1 3 [-5; 1 # 10; 3]%Q)
                (ones 1 3) (-1) eq_refl eq_refl eq_refl eq_refl) as H1.
  pose proof (sparse_ratio_out_of_range (mkTensor 1 3 [-5; 1 # 10; 3]%Q)
                (ones 1 3) 2 eq_refl eq_refl eq_refl eq_refl) as H2.
  pose proof (sparse_ratio_out_of_range (mkTensor 1 3 [-5; 1 # 10; 3]%Q)
                (ones 1 3) (- (2 ^ 1023)) eq_refl eq_refl eq_refl eq_refl) as H3.
  assert (E1 : sparse_count (mkTensor 1 3 [-5; 1 # 10; 3]%Q) (-1)
               = Ok (-3)%Z) by (vm_compute; reflexivity).
  assert (E2 : sparse_count (mkTensor 1 3 [-5; 1 # 10; 3]%Q) 2
               = Ok 6%Z) by (vm_compute; reflexivity).
  assert (E3 : sparse_count (mkTensor 1 3 [-5; 1 # 10; 3]%Q) (- (2 ^ 1023))
               = Raise OverflowError) by (vm_compute; reflexivity).
  rewrite E1 in H1. rewrite E2 in H2. rewrite E3 in H3.
  destruct H1 as (_ & H1 & _). destruct H2 as (_ & _ & H2).
  destruct H3 as (_ & H3).
  split; [apply H1; lia|]. split; [apply H2|exact H3].
  change (numel (mkTensor 1 3 [-5; 1 # 10; 3]%Q)) with 3. lia.
Defined.

(** ** The plan of a trial *)

Local Open Scope result_scope.

(** The reading loop from slot [a] on: the lists keep their length, the
    slots it passes hold what the parameters say, the others are as
    before. *)
Lemma read_plan_loop (params : Params) (n a : nat) (types : list string)
  (rates : list Q) :
  a + n <= length types -> a + n <= length rates ->
  exists types' rates',
    for_each (seq a n) (fun i '(prune_type, prune_rate) =>
        prune_rate <-
          match dict_get String.eqb (rate_params params) ("pr" ++ py_str i)%string with
          | Some v => py_setitem prune_rate i v
          | None => Ok prune_rate
          end ;;
        prune_type <-
          match dict_get String.eqb (type_params params) ("pt" ++ py_str i)%string with
          | Some v => py_setitem prune_type i v
          | None => Ok prune_type
          end ;;
        Ok (prune_type, prune_rate))
      (types, rates)
    = Ok (types', rates') /\
    length types' = length types /\ length rates' = length rates /\
    forall i,
      nth i rates' 0%Q
      = (if (a <=? i) && (i <? a + n) then
           match dict_get String.eqb (rate_params params) ("pr" ++ py_str i)%string with
           | Some v => v
           | None => nth i rates 0%Q
           end
         else nth i rates 0%Q) /\
      nth i types' ""%string
      = (if (a <=? i) && (i <? a + n) then
           match dict_get String.eqb (type_params params) ("pt" ++ py_str i)%string with
           | Some v => v
           | None => nth i types ""%string
           end
         else nth i types ""%string).
Proof.
  revert a types rates. induction n as [|n IH]; intros a types rates Ht Hr.
  - exists types, rates. cbn [seq for_each]. repeat split;
      (replace ((a <=? i) && (i <? a + 0)) with false; [reflexivity|];
       symmetry; apply andb_false_iff;
       destruct (Nat.leb_spec a i); [right; apply Nat.ltb_ge; lia | now left]).
  - cbn [seq for_each].
    set (rates1 := match dict_get String.eqb (rate_params params) ("pr" ++ py_str a)%string with
                   | Some v => replace_nth rates a v
                   | None => rates
                   end).
    set (types1 := match dict_get String.eqb (type_params params) ("pt" ++ py_str a)%string with
                   | Some v => replace_nth types a v
                   | None => types
                   end).
    assert (E1 : match dict_get String.eqb (rate_params params) ("pr" ++ py_str a)%string with
                 | Some v => py_setitem rates a v
                 | None => Ok rates
                 end = Ok rates1).
    { unfold rates1, py_setitem.
      destruct (dict_get _ (rate_params params) _); [|reflexivity].
      replace (a <? length rates) with true; [reflexivity|].
      symmetry. apply Nat.ltb_lt. lia. }
    assert (E2 : match dict_get String.eqb (type_params params) ("pt" ++ py_str a)%string with
                 | Some v => py_setitem types a v
                 | None => Ok types
                 end = Ok types1).
    { unfold types1, py_setitem.
      destruct (dict_get _ (type_params params) _); [|reflexivity].
      replace (a <? length types) with true; [reflexivity|].
      symmetry. apply Nat.ltb_lt. lia. }
    rewrite E1. cbn [bind]. rewrite E2. cbn [bind].
    assert (L1 : length rates1 = length rates)
      by (unfold rates1; destruct (dict_get _ (rate_params params) _);
          [apply replace_nth_length | reflexivity]).
    assert (L2 : length types1 = length types)
      by (unfold types1; destruct (dict_get _ (type_params params) _);
          [apply replace_nth_length | reflexivity]).
    destruct (IH (S a) types1 rates1) as (types' & rates' & He & Lt & Lr & Hn);
      [lia | lia |].
    exists types', rates'. split; [exact He|]. split; [lia|]. split; [lia|].
    intros i. destruct (Hn i) as [Hnr Hnt]. rewrite Hnr, Hnt.
    destruct (Nat.eq_dec i a) as [->|Hne].
    + replace ((S a <=? a) && (a <? S a + n)) with false
        by (symmetry; apply andb_false_iff; left; apply Nat.leb_gt; lia).
      replace ((a <=? a) && (a <? a + S n)) with true
        by (symmetry; apply andb_true_iff; split;
            [apply Nat.leb_le | apply Nat.ltb_lt]; lia).
      unfold rates1, types1. split.
      * destruct (dict_get _ (rate_params params) _); [|reflexivity].
        rewrite replace_nth_nth, Nat.eqb_refl.
        replace (a <? length rates) with true; [reflexivity|].
        symmetry. apply Nat.ltb_lt. lia.
      * destruct (dict_get _ (type_params params) _); [|reflexivity].
        rewrite replace_nth_nth, Nat.eqb_refl.
        replace (a <? length types) with true; [reflexivity|].
        symmetry. apply Nat.ltb_lt. lia.
    + assert (R : nth i rates1 0%Q = nth i rates 0%Q).
      { unfold rates1. destruct (dict_get _ (rate_params params) ("pr" ++ py_str a)%string);
          [|reflexivity].
        rewrite replace_nth_nth.
        replace (a =? i) with false; [reflexivity|].
        symmetry. apply Nat.eqb_neq. lia. }
      assert (T : nth i types1 ""%string = nth i types ""%string).
      { unfold types1. destruct (dict_get _ (type_params params) ("pt" ++ py_str a)%string);
          [|reflexivity].
        rewrite replace_nth_nth.
        replace (a =? i) with false; [reflexivity|].
        symmetry. apply Nat.eqb_neq. lia. }
      rewrite R, T.
      replace ((S a <=? i) && (i <? S a + n)) with ((a <=? i) && (i <? a + S n));
        [split; reflexivity|].
      destruct (Nat.leb_spec a i), (Nat.leb_spec (S a) i),
        (Nat.ltb_spec i (a + S n)), (Nat.ltb_spec i (S a + n));
        try reflexivity; lia.
Qed.

Lemma read_plan_slots (params : Params) :
  exists types rates,
    read_plan params = Ok (types, rates) /\
    length types = 48 /\ length rates = 48 /\
    forall i, i < 48 ->
      nth i rates 0%Q = rate_read params i /\
      nth i types ""%string = type_read params i.
Proof.
  destruct (read_plan_loop params 48 0 (repeat "vanilla"%string 48)
              (repeat (1 # 2)%Q 48)) as (types & rates & He & Lt & Lr & Hn).
  { rewrite repeat_length. lia. }
  { rewrite repeat_length. lia. }
  exists types, rates. split; [exact He|].
  rewrite repeat_length in Lt, Lr. split; [exact Lt|]. split; [exact Lr|].
  intros i Hi. destruct (Hn i) as [Hr Ht]. rewrite Hr, Ht.
  replace ((0 <=? i) && (i <? 0 + 48)) with true
    by (symmetry; apply andb_true_iff; split;
        [apply Nat.leb_le | apply Nat.ltb_lt]; lia).
  unfold rate_read, type_read. rewrite !nth_repeat_lt by exact Hi.
  split; reflexivity.
Qed.

(** X27.  The reading of the plan never raises and always gives 48 types
    and 48 rates: slot [i] holds the parameter ["pt<i>"], respectively
    ["pr<i>"], when the trial has it, and ["vanilla"], respectively 0.5,
    otherwise.  No other key is looked at: two sets of parameters that agree
    on these 96 keys give the same plan. *)
Theorem plan_has_48_slots (params : Params) :
  (exists types rates,
     read_plan params = Ok (types, rates) /\
     length types = 48 /\ length rates = 48 /\
     forall i, i < 48 ->
       nth i rates 0%Q = rate_read params i /\
       nth i types ""%string = type_read params i) /\
  (forall params',
     (forall i, i < 48 -> rate_read params' i = rate_read params i /\
                          type_read params' i = type_read params i) ->
     read_plan params' = read_plan params).
Proof.
  split; [apply read_plan_slots|].
  intros params' Hsame.
  destruct (read_plan_slots params) as (types & rates & -> & Lt & Lr & Hn).
  destruct (read_plan_slots params') as (types' & rates' & -> & Lt' & Lr' & Hn').
  f_equal. f_equal.
  - apply (nth_ext _ _ ""%string ""%string); [lia|].
    intros i Hi. rewrite Lt' in Hi.
    rewrite (proj2 (Hn i Hi)), (proj2 (Hn' i Hi)). apply Hsame, Hi.
  - apply (nth_ext _ _ 0%Q 0%Q); [lia|].
    intros i Hi. rewrite Lr' in Hi.
    rewrite (proj1 (Hn i Hi)), (proj1 (Hn' i Hi)). apply Hsame, Hi.
Qed.

Lemma plan_has_48_slots_witness :
  read_plan (mkParams [("pr3", 1 # 4); ("lr", 1 # 100)]%string [])
  = read_plan (mkParams [("pr3", 1 # 4)]%string []).
Proof.
  apply (proj2 (plan_has_48_slots (mkParams [("pr3", 1 # 4)]%string []))).
  intros i Hi. split; [|reflexivity].
  unfold rate_read, dict_get. cbn [rate_params find fst snd].
  destruct (String.eqb "pr3" ("pr" ++ py_str i)); reflexivity.
Defined.

(** X28.  A trial that names no rate is run with the target of the
    balancer, 0.3, in every slot, and with the types that were read.  The
    rates read are 0.5 everywhere; every product, running sum and quotient
    that the balancer forms from them, and their mean, is a double, so that
    no rounding happens before the multiplication by the target; and that
    multiplication is by the quotient 1. *)
Theorem default_plan_balances_to_target (params : Params) :
  (forall i, i < 48 -> rate_read params i = 1 # 2) ->
  exists types read rates,
    read_plan params = Ok (types, read) /\
    balanced_plan params = Ok (types, rates) /\
    length types = 48 /\ length rates = 48 /\
    (forall i, i < 48 -> nth i types ""%string = type_read params i) /\
    Forall (fun r => r = 1 # 2) read /\
    forallb is_f64 (balance_steps read) = true /\
    Forall (fun r => (r / weighted_mean read == 1)%Q) read /\
    Forall (fun r => (r == 3 # 10)%Q) rates.
Proof.
  intros Hu.
  destruct (read_plan_slots params) as (types & read & He & Lt & Lr & Hn).
  assert (Hread : read = repeat (1 # 2)%Q 48).
  { apply (nth_ext _ _ 0%Q 0%Q); [now rewrite repeat_length|].
    intros i Hi. rewrite Lr in Hi.
    rewrite (proj1 (Hn i Hi)), (Hu i Hi), nth_repeat_lt by exact Hi.
    reflexivity. }
  subst read.
  assert (Eb : exists out,
             balance (repeat (1 # 2)%Q 48) (3 # 10) = Ok out /\
             length out = 48 /\
             forallb (fun r => Qeq_bool r (3 # 10)) out = true).
  { eexists. split; [vm_compute; reflexivity|].
    split; vm_compute; reflexivity. }
  destruct Eb as (rates & Eb & Lo & Ho).
  exists types, (repeat (1 # 2)%Q 48), rates.
  split; [exact He|].
  split; [unfold balanced_plan; rewrite He; cbn [bind]; rewrite Eb; reflexivity|].
  split; [exact Lt|]. split; [exact Lo|].
  split; [intros i Hi; apply (Hn i Hi)|].
  split; [apply Forall_forall; intros r Hr; now apply repeat_spec in Hr|].
  split; [vm_compute; reflexivity|].
  split.
  - apply Forall_forall. intros r Hr. apply repeat_spec in Hr. subst r.
    vm_compute. reflexivity.
  - apply Forall_forall. intros r Hr. apply Qeq_bool_iff.
    rewrite forallb_forall in Ho. now apply Ho.
Qed.

Lemma default_plan_balances_to_target_witness :
  exists types rates,
    balanced_plan (mkParams [] [("pt5", "channel")]%string) = Ok (types, rates) /\
    length rates = 48 /\ Forall (fun r => (r == 3 # 10)%Q) rates.
Proof.
  destruct (default_plan_balances_to_target
              (mkParams [] [("pt5", "channel")]%string))
    as (types & read & rates & _ & He & _ & Lr & _ & _ & _ & _ & Hf).
  - intros i Hi. reflexivity.
  - exists types, rates. split; [exact He|]. split; [exact Lr | exact Hf].
Defined.
